(** * Collections worklist and tabular exporter: a shallow embedding

    The development follows the two TypeScript sources of the dashboard:

    - [components/pages/Collections.tsx]: derivation of the collections
      worklist from orders, customers and users, the status/type filter with
      its date sort, and the recognition handler with its writes to the
      backing store and to the browser's local storage;
    - the export helper module ([exportData] and its adapters).

    JavaScript numbers are embedded as [Z] (integral currency amounts),
    strings as [string], optional fields as [option], arrays as [list].
    Calls that leave the program (the backing store, [alert], [console],
    [saveAs], the workbook encoders) are recorded as events; their answers
    are parameters of the model. *)

From Stdlib Require Import String Ascii List ZArith Bool Lia.
From Stdlib Require Import Sorting.Sorted Sorting.Permutation.
From Stdlib Require Import DecimalString.
Import ListNotations.

Set Warnings "-register-all".

Local Open Scope string_scope.
Local Open Scope Z_scope.

(* ===================================================================== *)
(** ** The JavaScript operations the sources rely on *)
(* ===================================================================== *)

Module Js.

(** [hay.includes(needle)]: does [needle] occur in [hay] as a substring. *)
Fixpoint includes (hay needle : string) : bool :=
  match hay with
  | EmptyString => prefix needle EmptyString
  | String _ rest => prefix needle hay || includes rest needle
  end.

(** [s || d] on an optional string. *)
Definition strOr (s : option string) (d : string) : string :=
  match s with
  | Some (String c r) => String c r
  | _ => d
  end.

(** [n || d] on an optional number: [undefined] and [0] are falsy. *)
Definition numOr (n : option Z) (d : Z) : Z :=
  match n with
  | Some z => if z =? 0 then d else z
  | None => d
  end.

(** [x > 0] on an optional number ([undefined > 0] is [false]). *)
Definition gtZero (n : option Z) : bool :=
  match n with
  | Some z => 0 <? z
  | None => false
  end.

(** [Math.max(0, x)]. *)
Definition mathMax0 (x : Z) : Z := Z.max 0 x.

(** [Array.prototype.find]. *)
Definition find {A : Type} (p : A -> bool) (l : list A) : option A :=
  List.find p l.

(** The character set of a string, as a membership test. *)
Fixpoint hasChar (c : ascii) (s : string) : bool :=
  match s with
  | EmptyString => false
  | String d r => Ascii.eqb c d || hasChar c r
  end.

(** Values that [JSON.parse] can return. *)
Inductive JSON : Type :=
| JNull
| JBool (b : bool)
| JNum (z : Z)
| JStr (s : string)
| JArr (items : list JSON)
| JObj (props : list (string * JSON)).

(** The result of a property read: a value or [undefined]. *)
Inductive Value : Type :=
| Undefined
| Val (j : JSON).

(** An exception travelling through [throw] / a rejected promise. *)
Inductive Error : Type :=
| TypeError
| StoreError (msg : string)
| NetworkError (msg : string)
| LibraryError (cause : string).

Fixpoint lookupProp (k : string) (props : list (string * JSON)) : Value :=
  match props with
  | [] => Undefined
  | (k', v) :: rest => if String.eqb k k' then Val v else lookupProp k rest
  end.

(** [c.id] for a parsed JSON value [c]: reading a property of [null]
    throws; primitives and arrays have no [id]; objects are looked up. *)
Definition getId (c : JSON) : Error + Value :=
  match c with
  | JNull => inl TypeError
  | JObj props => inr (lookupProp "id" props)
  | _ => inr Undefined
  end.

(** SameValueZero between a stored value and a string key. *)
Definition sameAsString (v : Value) (s : string) : bool :=
  match v with
  | Val (JStr t) => String.eqb t s
  | _ => false
  end.

(** [set.has(s)] for a [Set] given by its elements and a string [s]. *)
Definition setHas (elems : list Value) (s : string) : bool :=
  existsb (fun v => sameAsString v s) elems.

(** [arr.includes(s)] for an array of parsed JSON values and a string. *)
Definition arrIncludes (items : list JSON) (s : string) : bool :=
  existsb (fun j => sameAsString (Val j) s) items.

(** [arr.map(f)] where [f] may throw: the first exception aborts. *)
Fixpoint mapThrowing {A B : Type} (f : A -> Error + B) (l : list A)
  : Error + list B :=
  match l with
  | [] => inr []
  | x :: rest =>
      match f x with
      | inl e => inl e
      | inr y =>
          match mapThrowing f rest with
          | inl e => inl e
          | inr ys => inr (y :: ys)
          end
      end
  end.

End Js.

(* ===================================================================== *)
(** ** Data model *)
(* ===================================================================== *)

(** The entities read from the data context.  Optional fields of the
    TypeScript interfaces are [option]s. *)

Module Order.
Record t : Type := mk {
  id : string;
  customerId : string;
  customerName : option string;
  date : option string;
  total : Z;
  status : string;
  assignedUserId : option string;
  chequeBalance : option Z;
  creditBalance : option Z;
  notes : option string
}.
End Order.

Module Customer.
Record t : Type := mk {
  id : string;
  name : string;
  outstandingBalance : option Z
}.
End Customer.

Module User.
Record t : Type := mk {
  id : string;
  name : string;
  email : string;
  role : string
}.
End User.

Inductive CollectionType : Type := credit | cheque.

Inductive Status : Type := pending | complete.

Definition typeName (t : CollectionType) : string :=
  match t with
  | credit => "credit"
  | cheque => "cheque"
  end.

(** [collectionType.toUpperCase()]. *)
Definition typeNameUpper (t : CollectionType) : string :=
  match t with
  | credit => "CREDIT"
  | cheque => "CHEQUE"
  end.

Definition CollectionType_eqb (a b : CollectionType) : bool :=
  match a, b with
  | credit, credit | cheque, cheque => true
  | _, _ => false
  end.

Definition Status_eqb (a b : Status) : bool :=
  match a, b with
  | pending, pending | complete, complete => true
  | _, _ => false
  end.

Module CollectionRecord.
Record t : Type := mk {
  id : string;
  orderId : string;
  customerId : string;
  customerName : string;
  collectionType : CollectionType;
  amount : Z;
  collectedBy : string;
  collectedAt : string;
  status : Status;
  notes : option string
}.
End CollectionRecord.

(** What the page writes to the console, kept as structured entries. *)
Inductive LogEntry : Type :=
| DebugOrders (n : nat)
| DebugCustomers (n : nat)
| DebugUsers (n : nat)
| DebugCompletedCollections (ids : list Js.Value)
| DebugOrder (orderId : string) (creditBalance chequeBalance : option Z)
             (customer collectedBy : option string)
| DebugNoCustomer (orderId customerId : string)
| DebugNoUser (orderId : string) (assignedUserId : option string)
| DebugHasCollections (orderId : string)
| DebugGenerated (n : nat)
| ErrorRecognizing (e : Js.Error).

(* ===================================================================== *)
(** ** Derivation of the worklist (the [useEffect] of [Collections]) *)
(* ===================================================================== *)

(** The token searched in an order's notes. *)
Definition COLLECTION_COMPLETED : string := "COLLECTION_COMPLETED".

(** [`${order.id}-credit`] and [`${order.id}-cheque`]. *)
Definition collectionId (orderId : string) (t : CollectionType) : string :=
  orderId ++ "-" ++ typeName t.

(** [order.notes && order.notes.includes('COLLECTION_COMPLETED')], as the
    truth value it is used for. *)
Definition isCollectionCompleted (order : Order.t) : bool :=
  match Order.notes order with
  | Some (String c r) => Js.includes (String c r) COLLECTION_COMPLETED
  | _ => false
  end.

(** [new Set(completedCollections.map((c: any) => c.id))] for the parsed
    content of the local-storage item.  Only an array has [map]. *)
Definition completedIdsOf (completedCollections : Js.JSON)
  : Js.Error + list Js.Value :=
  match completedCollections with
  | Js.JArr items => Js.mapThrowing Js.getId items
  | _ => inl Js.TypeError
  end.

(** [JSON.parse(localStorage.getItem('completedCollections') || '[]')].
    The stored text is kept as the JSON value it parses to; an absent key
    parses as the empty array. *)
Definition readCompletedCollections (item : option Js.JSON) : Js.JSON :=
  match item with
  | Some j => j
  | None => Js.JArr []
  end.

Record DeriveState : Type := mkDeriveState {
  records : list CollectionRecord.t;
  console : list LogEntry
}.

Definition log (e : LogEntry) (st : DeriveState) : DeriveState :=
  mkDeriveState (records st) (console st ++ [e]).

Definition push (r : CollectionRecord.t) (st : DeriveState) : DeriveState :=
  mkDeriveState (records st ++ [r]) (console st).

Section Derivation.

(** [new Date().toISOString().slice(0, 10)] at the time of the pass. *)
Variable today : string.

Variable customers : list Customer.t.
Variable users : list User.t.
Variable currentUser : option User.t.

(** [u.id === order.assignedUserId]. *)
Definition isAssigned (order : Order.t) (u : User.t) : bool :=
  match Order.assignedUserId order with
  | Some uid => String.eqb (User.id u) uid
  | None => false
  end.

(** [u.email === currentUser?.email]. *)
Definition isCurrent (u : User.t) : bool :=
  match currentUser with
  | Some cu => String.eqb (User.email u) (User.email cu)
  | None => false
  end.

Definition findCustomer (order : Order.t) : option Customer.t :=
  Js.find (fun c => String.eqb (Customer.id c) (Order.customerId order))
          customers.

(** [users.find(by id) || users.find(by the current user's email)]. *)
Definition findCollectedBy (order : Order.t) : option User.t :=
  match Js.find (isAssigned order) users with
  | Some u => Some u
  | None => Js.find isCurrent users
  end.

(** The record literal pushed for one balance of one order. *)
Definition makeRecord (completedIds : list Js.Value) (order : Order.t)
  (customer : Customer.t) (collectedBy : User.t)
  (t : CollectionType) (balance : Z) : CollectionRecord.t :=
  let id := collectionId (Order.id order) t in
  let isCompleted := Js.setHas completedIds id || isCollectionCompleted order in
  CollectionRecord.mk
    id
    (Order.id order)
    (Order.customerId order)
    (Js.strOr (Order.customerName order) (Customer.name customer))
    t
    balance
    (User.name collectedBy)
    (Js.strOr (Order.date order) today)
    (if isCompleted then complete else pending)
    (Some (if isCompleted then "Previously completed" else "")).

Definition pushIfPositive (completedIds : list Js.Value) (order : Order.t)
  (customer : Customer.t) (collectedBy : User.t)
  (t : CollectionType) (balance : option Z) (st : DeriveState)
  : DeriveState :=
  match balance with
  | Some b =>
      if 0 <? b
      then push (makeRecord completedIds order customer collectedBy t b) st
      else st
  | None => st
  end.

(** The body of [orders.forEach(order => ...)]. *)
Definition forEachOrder (completedIds : list Js.Value)
  (st : DeriveState) (order : Order.t) : DeriveState :=
  let customer := findCustomer order in
  let collectedBy := findCollectedBy order in
  let st := log (DebugOrder (Order.id order)
                            (Order.creditBalance order)
                            (Order.chequeBalance order)
                            (option_map Customer.name customer)
                            (option_map User.name collectedBy)) st in
  match customer with
  | None => log (DebugNoCustomer (Order.id order) (Order.customerId order)) st
  | Some cust =>
      match collectedBy with
      | None =>
          log (DebugNoUser (Order.id order) (Order.assignedUserId order)) st
      | Some usr =>
          let st := pushIfPositive completedIds order cust usr
                                   credit (Order.creditBalance order) st in
          let st := pushIfPositive completedIds order cust usr
                                   cheque (Order.chequeBalance order) st in
          if Js.gtZero (Order.creditBalance order)
             || Js.gtZero (Order.chequeBalance order)
          then log (DebugHasCollections (Order.id order)) st
          else st
      end
  end.

(** The whole effect: the value handed to [setCollections] and the console
    output, or the exception that escapes the effect. *)
Definition deriveCollections (item : option Js.JSON) (orders : list Order.t)
  : Js.Error + DeriveState :=
  match completedIdsOf (readCompletedCollections item) with
  | inl e => inl e
  | inr completedIds =>
      let st := mkDeriveState [] [] in
      let st := log (DebugOrders (List.length orders)) st in
      let st := log (DebugCustomers (List.length customers)) st in
      let st := log (DebugUsers (List.length users)) st in
      let st := log (DebugCompletedCollections completedIds) st in
      let st := fold_left (forEachOrder completedIds) orders st in
      inr (log (DebugGenerated (List.length (records st))) st)
  end.

End Derivation.

(* ===================================================================== *)
(** ** The engine's [Array.prototype.sort] *)
(* ===================================================================== *)

(** The sort of the V8 engine, as it runs on an array of fewer than 64
    elements: the run the array starts with is counted, and reversed when
    it descends strictly; every later element is then put into the sorted
    front part at the place a binary search finds.  The comparator is
    called with the same arguments in the same order as the engine calls
    it, which decides the result when the comparator is not consistent.
    Longer arrays are cut into such runs that are merged; with a
    consistent comparator the outcome is the same stable arrangement. *)

Module ArraySort.

Section ArraySort.

Variable A : Type.

(** The comparator, with a [NaN] answer already read as [+0]. *)
Variable comparefn : A -> A -> Z.

(** How many of the elements after [previousElement] go on with the run:
    a strictly descending run stops at the first [order >= 0], any other
    run at the first [order < 0]. *)
Fixpoint runAfter (isDescending : bool) (previousElement : A)
  (rest : list A) : nat :=
  match rest with
  | [] => O
  | currentElement :: rest' =>
      let order := comparefn currentElement previousElement in
      if isDescending
      then (if 0 <=? order then O
            else S (runAfter isDescending currentElement rest'))
      else (if order <? 0 then O
            else S (runAfter isDescending currentElement rest'))
  end.

(** [CountAndMakeRun]: the run at the start of the array, turned round
    when it descends, and the elements after it. *)
Definition countAndMakeRun (workArray : list A) : list A * list A :=
  match workArray with
  | elementHigh :: elementLow :: rest =>
      let order := comparefn elementLow elementHigh in
      let isDescending := order <? 0 in
      let runLength := S (S (runAfter isDescending elementLow rest)) in
      let run := firstn runLength workArray in
      (if isDescending then rev run else run, skipn runLength workArray)
  | _ => (workArray, [])
  end.

(** The binary search of [BinaryInsertionSort] between [left] and
    [right]; [steps] bounds the number of halvings. *)
Fixpoint binarySearch (steps : nat) (pivot : A) (workArray : list A)
  (left right : nat) : nat :=
  match steps with
  | O => left
  | S steps' =>
      if (left <? right)%nat
      then
        let mid := (left + (right - left) / 2)%nat in
        match nth_error workArray mid with
        | Some element =>
            let order := comparefn pivot element in
            if order <? 0
            then binarySearch steps' pivot workArray left mid
            else binarySearch steps' pivot workArray (S mid) right
        | None => left
        end
      else left
  end.

(** The elements from [left] on move one place up and the pivot takes
    the place [left]. *)
Definition insertAt (left : nat) (pivot : A) (workArray : list A) : list A :=
  (firstn left workArray ++ pivot :: skipn left workArray)%list.

(** One round of [BinaryInsertionSort]: the next element is the pivot and
    the sorted front part is all that stands before it. *)
Definition insertPivot (front : list A) (pivot : A) : list A :=
  insertAt (binarySearch (List.length front) pivot front O (List.length front))
           pivot front.

Definition binaryInsertionSort (run rest : list A) : list A :=
  fold_left insertPivot rest run.

(** Arrays of fewer than two elements are returned as they are. *)
Definition sort (workArray : list A) : list A :=
  match workArray with
  | _ :: _ :: _ =>
      let (run, rest) := countAndMakeRun workArray in
      binaryInsertionSort run rest
  | _ => workArray
  end.

End ArraySort.

Arguments runAfter {A} comparefn isDescending previousElement rest.
Arguments countAndMakeRun {A} comparefn workArray.
Arguments binarySearch {A} comparefn steps pivot workArray left right.
Arguments insertAt {A} left pivot workArray.
Arguments insertPivot {A} comparefn front pivot.
Arguments binaryInsertionSort {A} comparefn run rest.
Arguments sort {A} comparefn workArray.

End ArraySort.

(* ===================================================================== *)
(** ** Filtering and sorting ([filteredCollections]) *)
(* ===================================================================== *)

Inductive StatusFilter : Type := StatusAll | StatusIs (s : Status).

Inductive TypeFilter : Type := TypeAll | TypeIs (t : CollectionType).

Section Filtering.

(** [new Date(s).getTime()]; [None] stands for the [NaN] of an invalid
    date. *)
Variable getTime : string -> option Z.

(** The comparator handed to [sort]:
    [new Date(b.collectedAt).getTime() - new Date(a.collectedAt).getTime()],
    with a [NaN] result read as [+0], as [sort] does. *)
Definition compareFn (a b : CollectionRecord.t) : Z :=
  match getTime (CollectionRecord.collectedAt b),
        getTime (CollectionRecord.collectedAt a) with
  | Some tb, Some ta => tb - ta
  | _, _ => 0
  end.

(** [filtered.sort(compareFn)], by the engine's algorithm above. *)
Definition sortBy (cmp : CollectionRecord.t -> CollectionRecord.t -> Z)
  (l : list CollectionRecord.t) : list CollectionRecord.t :=
  ArraySort.sort cmp l.

Definition applyStatusFilter (f : StatusFilter)
  (l : list CollectionRecord.t) : list CollectionRecord.t :=
  match f with
  | StatusAll => l
  | StatusIs s =>
      filter (fun c => Status_eqb (CollectionRecord.status c) s) l
  end.

Definition applyTypeFilter (f : TypeFilter)
  (l : list CollectionRecord.t) : list CollectionRecord.t :=
  match f with
  | TypeAll => l
  | TypeIs t =>
      filter (fun c => CollectionType_eqb (CollectionRecord.collectionType c) t) l
  end.

(** The memoised view.  [sort] works in place on the array it is given;
    the view is the array it returns. *)
Definition filteredCollections (collections : list CollectionRecord.t)
  (statusFilter : StatusFilter) (typeFilter : TypeFilter)
  : list CollectionRecord.t :=
  let filtered := collections in
  let filtered := applyStatusFilter statusFilter filtered in
  let filtered := applyTypeFilter typeFilter filtered in
  sortBy compareFn filtered.

End Filtering.

(* ===================================================================== *)
(** ** Effects: state, exceptions and [try]/[catch] *)
(* ===================================================================== *)

(** A computation over a world [W] either returns or throws; the world it
    leaves behind is kept in both cases, so that what was done before a
    [throw] stays done. *)

Inductive Result (A : Type) : Type :=
| Returned (a : A)
| Thrown (e : Js.Error).

Arguments Returned {A} a.
Arguments Thrown {A} e.

Definition Eff (W A : Type) : Type := W -> Result A * W.

Definition ret {W A : Type} (a : A) : Eff W A :=
  fun w => (Returned a, w).

Definition throw {W A : Type} (e : Js.Error) : Eff W A :=
  fun w => (Thrown e, w).

Definition bind {W A B : Type} (m : Eff W A) (k : A -> Eff W B) : Eff W B :=
  fun w =>
    match m w with
    | (Returned a, w') => k a w'
    | (Thrown e, w') => (Thrown e, w')
    end.

Definition tryCatch {W A : Type} (body : Eff W A)
  (handler : Js.Error -> Eff W A) : Eff W A :=
  fun w =>
    match body w with
    | (Returned a, w') => (Returned a, w')
    | (Thrown e, w') => handler e w'
    end.

Definition modify {W : Type} (f : W -> W) : Eff W unit :=
  fun w => (Returned tt, f w).

Definition gets {W A : Type} (f : W -> A) : Eff W A :=
  fun w => (Returned (f w), w).

Declare Scope eff_scope.
Delimit Scope eff_scope with eff.

Notation "x <- m ;; k" := (bind m (fun x => k))
  (at level 61, m at next level, right associativity) : eff_scope.
Notation "m ;; k" := (bind m (fun _ => k))
  (at level 61, right associativity) : eff_scope.

(* ===================================================================== *)
(** ** Recognition ([handleRecognizeCollection]) *)
(* ===================================================================== *)

(** A value written to a column of the backing store. *)
Inductive FieldValue : Type :=
| FStr (s : string)
| FNum (z : Z).

(** The object handed to [update]: its keys in insertion order. *)
Definition Patch : Type := list (string * FieldValue).

(** How an awaited store call ends: [{ error: null }], [{ error }], or a
    rejected promise. *)
Inductive Response : Type :=
| Succeeded
| ErrorReturned (e : Js.Error)
| Rejected (e : Js.Error).

(** What the handler does to the outside, in order. *)
Inductive Event : Type :=
| StoreUpdate (table : string) (patch : Patch) (id : string)
| CacheWrite (content : Js.JSON)
| RefetchData
| Alert (message : string)
| ConsoleError (e : Js.Error).

(** The mutable surroundings of the handler: the local-storage item
    ['completedCollections'], the React state cells, and the trace. *)
Record World : Type := mkWorld {
  localStorage : option Js.JSON;
  collections : list CollectionRecord.t;
  selectedCollection : option CollectionRecord.t;
  verificationNotes : string;
  trace : list Event
}.

Definition emit (e : Event) : Eff World unit :=
  modify (fun w => mkWorld (localStorage w) (collections w)
                           (selectedCollection w) (verificationNotes w)
                           (trace w ++ [e])).

Definition setItem (j : Js.JSON) : Eff World unit :=
  modify (fun w => mkWorld (Some j) (collections w)
                           (selectedCollection w) (verificationNotes w)
                           (trace w ++ [CacheWrite j])).

Definition setCollections
  (f : list CollectionRecord.t -> list CollectionRecord.t) : Eff World unit :=
  modify (fun w => mkWorld (localStorage w) (f (collections w))
                           (selectedCollection w) (verificationNotes w)
                           (trace w)).

Definition setSelectedCollection (c : option CollectionRecord.t)
  : Eff World unit :=
  modify (fun w => mkWorld (localStorage w) (collections w)
                           c (verificationNotes w) (trace w)).

Definition setVerificationNotes (s : string) : Eff World unit :=
  modify (fun w => mkWorld (localStorage w) (collections w)
                           (selectedCollection w) s (trace w)).

Definition FAILED_NOTICE : string :=
  "Failed to recognize collection. Please try again.".

Section Recognition.

(** [n.toLocaleString('en-IN', { maximumFractionDigits: 2 })]. *)
Variable toLocaleString : Z -> string.

(** The backing store's answer to an [update] call. *)
Variable backend : string -> Patch -> string -> Response.

(** How the awaited [refetchData()] ends: it resolves or it rejects. *)
Variable refetchOutcome : option Js.Error.

(** The values the handler closes over. *)
Variable customers : list Customer.t.
Variable currentUser : option User.t.

Local Open Scope eff_scope.

(** [formatCurrency(amount)] with the default currency. *)
Definition formatCurrency (amount : Z) : string :=
  "LKR" ++ " " ++ toLocaleString amount.

(** [`${currentUser?.name}`]. *)
Definition actorName : string :=
  match currentUser with
  | Some u => User.name u
  | None => "undefined"
  end.

(** [verificationNotes ? 'Notes: ' + verificationNotes : '']. *)
Definition notesSuffix (verification : string) : string :=
  match verification with
  | EmptyString => ""
  | String _ _ => "Notes: " ++ verification
  end.

(** The template literal assigned to [updatedOrderData.notes]. *)
Definition auditNote (sel : CollectionRecord.t) (verification : string)
  : string :=
  typeNameUpper (CollectionRecord.collectionType sel)
  ++ " collection of " ++ formatCurrency (CollectionRecord.amount sel)
  ++ " completed by " ++ actorName ++ ". " ++ notesSuffix verification.

(** [updatedOrderData] after the balance key has been added. *)
Definition updatedOrderData (sel : CollectionRecord.t) (verification : string)
  : Patch :=
  let data := [("notes", FStr (auditNote sel verification))] in
  match CollectionRecord.collectionType sel with
  | credit => (data ++ [("creditbalance", FNum 0)])%list
  | cheque => (data ++ [("chequebalance", FNum 0)])%list
  end.

(** [await supabase.from(table).update(patch).eq('id', id)]: the [error]
    member of the answer, or the rejection. *)
Definition supabaseUpdate (table : string) (patch : Patch) (id : string)
  : Eff World (option Js.Error) :=
  emit (StoreUpdate table patch id) ;;
  match backend table patch id with
  | Succeeded => ret None
  | ErrorReturned e => ret (Some e)
  | Rejected e => throw e
  end.

(** [Math.max(0, (customer.outstandingBalance || 0) - amount)]. *)
Definition newOutstandingBalance (customer : Customer.t) (amount : Z) : Z :=
  Js.mathMax0 (Js.numOr (Customer.outstandingBalance customer) 0 - amount).

Definition updateCustomer (sel : CollectionRecord.t) : Eff World unit :=
  match Js.find (fun c => String.eqb (Customer.id c)
                                     (CollectionRecord.customerId sel))
                customers with
  | Some customer =>
      _ <- supabaseUpdate "customers"
             [("outstandingbalance",
               FNum (newOutstandingBalance customer
                                           (CollectionRecord.amount sel)))]
             (CollectionRecord.customerId sel) ;;
      ret tt
  | None => ret tt
  end.

(** The local-storage step: [includes] then [push] and [setItem].  Only an
    array has [push]; a string has [includes] (substring search) but no
    [push]; anything else has neither. *)
Definition storeCompletion (id : string) : Eff World unit :=
  item <- gets localStorage ;;
  match readCompletedCollections item with
  | Js.JArr items =>
      if Js.arrIncludes items id then ret tt
      else setItem (Js.JArr (items ++ [Js.JStr id]))
  | Js.JStr s =>
      if Js.includes s id then ret tt else throw Js.TypeError
  | _ => throw Js.TypeError
  end.

(** The optimistic flip of the in-memory record. *)
Definition markComplete (sel : CollectionRecord.t) (verification : string)
  (c : CollectionRecord.t) : CollectionRecord.t :=
  if String.eqb (CollectionRecord.id c) (CollectionRecord.id sel)
  then CollectionRecord.mk
         (CollectionRecord.id c) (CollectionRecord.orderId c)
         (CollectionRecord.customerId c) (CollectionRecord.customerName c)
         (CollectionRecord.collectionType c) (CollectionRecord.amount c)
         (CollectionRecord.collectedBy c) (CollectionRecord.collectedAt c)
         complete (Some verification)
  else c.

Definition refetchData : Eff World unit :=
  emit RefetchData ;;
  match refetchOutcome with
  | None => ret tt
  | Some e => throw e
  end.

Definition successNotice (sel : CollectionRecord.t) : string :=
  typeNameUpper (CollectionRecord.collectionType sel)
  ++ " collection of " ++ formatCurrency (CollectionRecord.amount sel)
  ++ " has been completed and all outstanding amounts updated!".

(** The steps that follow the two store updates: the local-storage write,
    the optimistic flip, the reload, the notice and the two resets. *)
Definition afterStoreUpdates (sel : CollectionRecord.t)
  (verification : string) : Eff World unit :=
  storeCompletion (CollectionRecord.id sel) ;;
  setCollections (map (markComplete sel verification)) ;;
  refetchData ;;
  emit (Alert (successNotice sel)) ;;
  setSelectedCollection None ;;
  setVerificationNotes "".

(** The body of the [try] block. *)
Definition recognize (sel : CollectionRecord.t) (verification : string)
  : Eff World unit :=
  orderError <- supabaseUpdate "orders"
                  (updatedOrderData sel verification)
                  (CollectionRecord.orderId sel) ;;
  match orderError with
  | Some e => throw e
  | None => ret tt
  end ;;
  updateCustomer sel ;;
  afterStoreUpdates sel verification.

(** The body of the [catch] block. *)
Definition onError (error : Js.Error) : Eff World unit :=
  emit (ConsoleError error) ;;
  emit (Alert FAILED_NOTICE).

(** The handler.  [sel] and [verification] are the state values of the
    render the handler was created in. *)
Definition handleRecognizeCollection : Eff World unit :=
  sel <- gets selectedCollection ;;
  verification <- gets verificationNotes ;;
  match sel with
  | None => ret tt
  | Some sel => tryCatch (recognize sel verification) onError
  end.

End Recognition.

(* ===================================================================== *)
(** ** The tabular exporter ([exportData]) *)
(* ===================================================================== *)

Module Exporter.

Inductive ExportFormat : Type := csv | xlsx.

(** [format.toUpperCase()]. *)
Definition formatUpper (f : ExportFormat) : string :=
  match f with
  | csv => "CSV"
  | xlsx => "XLSX"
  end.

Inductive Cell : Type :=
| CText (s : string)
| CNumber (z : Z).

(** A flat record: its own string-named properties in the order
    [Object.keys] lists them; a property the record owns may hold
    [undefined], which is [None]. *)
Definition ExportRecord : Type := list (string * option Cell).

Definition keys (r : ExportRecord) : list string := map fst r.

(** [r[k]]: [undefined] for a key the record lacks and for one that holds
    [undefined]. *)
Fixpoint valueOf (k : string) (r : ExportRecord) : option Cell :=
  match r with
  | [] => None
  | (k', v) :: rest => if String.eqb k k' then v else valueOf k rest
  end.

(** The workbook library's objects, as far as [exportData] drives them. *)
Record Column : Type := mkColumn {
  header : string;
  key : string;
  width : Z
}.

Record Worksheet : Type := mkWorksheet {
  name : string;
  columns : list Column;
  rows : list (list (option Cell))
}.

Definition Workbook : Type := list Worksheet.

Definition Buffer : Type := string.

Record Blob : Type := mkBlob {
  content : Buffer;
  mime : string
}.

Inductive Event : Type :=
| Alert (message : string)
| SaveAs (blob : Blob) (filename : string)
| ConsoleLog (count : nat) (format : string)
| ConsoleWarn (sheetName : string)
| ConsoleError (e : Js.Error).

(** What the workbook library does with the name asked for a new
    worksheet: it throws, or it stores a name, the one asked for or a
    shortened one, after a warning on the console in the latter case. *)
Inductive NameOutcome : Type :=
| NameRejected (e : Js.Error)
| NameStored (stored : string) (warned : bool).

Record World : Type := mkWorld {
  workbook : Workbook;
  events : list Event
}.

Definition emit (e : Event) : Eff World unit :=
  modify (fun w => mkWorld (workbook w) (events w ++ [e])).

(** [new ExcelJS.Workbook()]. *)
Definition newWorkbook : Eff World unit :=
  modify (fun w => mkWorld [] (events w)).

Fixpoint updateSheet (i : nat) (f : Worksheet -> Worksheet) (wb : Workbook)
  : Workbook :=
  match wb, i with
  | [], _ => []
  | s :: rest, O => f s :: rest
  | s :: rest, S j => s :: updateSheet j f rest
  end.

(** The row of headers: one cell per column; no row when there is no
    column to write a header for. *)
Definition headerRows (cols : list Column) : list (list (option Cell)) :=
  match cols with
  | [] => []
  | _ :: _ => [map (fun c => Some (CText (header c))) cols]
  end.

(** [worksheet.columns = cols]: the columns are stored and their headers
    written as the first row. *)
Definition setColumns (sheet : nat) (cols : list Column) : Eff World unit :=
  modify (fun w =>
    mkWorld (updateSheet sheet
               (fun s => mkWorksheet (name s) cols (headerRows cols))
               (workbook w))
            (events w)).

(** The row an object contributes: one cell per column, by column key. *)
Definition rowOf (cols : list Column) (r : ExportRecord)
  : list (option Cell) :=
  map (fun c => valueOf (key c) r) cols.

(** [worksheet.addRows(data)]. *)
Definition addRows (sheet : nat) (data : list ExportRecord)
  : Eff World unit :=
  modify (fun w =>
    mkWorld (updateSheet sheet
               (fun s => mkWorksheet (name s) (columns s)
                           (rows s ++ map (rowOf (columns s)) data)%list)
               (workbook w))
            (events w)).

Definition XLSX_MIME : string :=
  "application/vnd.openxmlformats-officedocument.spreadsheetml.sheet".

Definition CSV_MIME : string := "text/csv;charset=utf-8".

Section ExportData.

(** [workbook.csv.writeBuffer()] and [workbook.xlsx.writeBuffer()]: the
    encoders of the workbook library; either may reject. *)
Variable csvWriteBuffer : Workbook -> Js.Error + Buffer.
Variable xlsxWriteBuffer : Workbook -> Js.Error + Buffer.

(** The library's check of a worksheet name against the sheets the
    workbook holds. *)
Variable worksheetName : Workbook -> string -> NameOutcome.

Local Open Scope eff_scope.

(** [workbook.addWorksheet(sheetName)]; the sheet is referred to by its
    position. The library refuses some names by throwing. *)
Definition addWorksheet (sheetName : string) : Eff World nat :=
  wb <- gets workbook ;;
  match worksheetName wb sheetName with
  | NameRejected e => throw e
  | NameStored stored warned =>
      (if warned then emit (ConsoleWarn sheetName) else ret tt) ;;
      modify (fun w =>
        mkWorld (workbook w ++ [mkWorksheet stored [] []])%list
                (events w)) ;;
      ret (List.length wb)
  end.

Definition writeBuffer (f : ExportFormat) : Eff World Buffer :=
  wb <- gets workbook ;;
  match (match f with
         | csv => csvWriteBuffer wb
         | xlsx => xlsxWriteBuffer wb
         end) with
  | inl e => throw e
  | inr buf => ret buf
  end.

(** [exportData(data, filename, format, sheetName)]; an absent [data] is
    [None]. *)
Definition exportData (data : option (list ExportRecord)) (filename : string)
  (format : ExportFormat) (sheetName : string) : Eff World unit :=
  match data with
  | None | Some [] => emit (Alert "No data to export")
  | Some ((first :: _) as data) =>
      tryCatch
        (newWorkbook ;;
         worksheet <- addWorksheet sheetName ;;
         (if (0 <? List.length data)%nat
          then setColumns worksheet
                 (map (fun k => mkColumn k k 20) (keys first))
          else ret tt) ;;
         addRows worksheet data ;;
         match format with
         | csv =>
             csvBuffer <- writeBuffer csv ;;
             emit (SaveAs (mkBlob csvBuffer CSV_MIME) (filename ++ ".csv"))
         | xlsx =>
             excelBuffer <- writeBuffer xlsx ;;
             emit (SaveAs (mkBlob excelBuffer XLSX_MIME)
                          (filename ++ ".xlsx"))
         end ;;
         emit (ConsoleLog (List.length data) (formatUpper format)))
        (fun error =>
           emit (ConsoleError error) ;;
           emit (Alert "Export failed. Please try again."))
  end.

End ExportData.

End Exporter.

(* ===================================================================== *)
(** ** Concrete runtime functions used in examples *)
(* ===================================================================== *)

Module Runtime.

(** Grouping of a reversed digit string the Indian way: three digits,
    then pairs. *)
Fixpoint groupPairs (l : list ascii) : list ascii :=
  match l with
  | [] => []
  | [a] => ["," % char; a]
  | a :: b :: rest => "," % char :: a :: b :: groupPairs rest
  end.

Definition groupIndian (rev_digits : list ascii) : list ascii :=
  match rev_digits with
  | a :: b :: c :: rest => a :: b :: c :: groupPairs rest
  | _ => rev_digits
  end.

(** [n.toLocaleString('en-IN', ...)] for an integral [n]. *)
Definition toLocaleString (n : Z) : string :=
  let digits :=
    list_ascii_of_string (NilZero.string_of_uint (N.to_uint (Z.abs_N n))) in
  let body := string_of_list_ascii (rev (groupIndian (rev digits))) in
  if n <? 0 then "-" ++ body else body.

Definition digitOf (c : ascii) : option Z :=
  let n := Z.of_nat (nat_of_ascii c) in
  if (48 <=? n) && (n <=? 57) then Some (n - 48) else None.

(** Days from 1970-01-01 to a civil date. *)
Definition daysFromCivil (y m d : Z) : Z :=
  let y := if m <=? 2 then y - 1 else y in
  let era := y / 400 in
  let yoe := y - era * 400 in
  let mp := if 2 <? m then m - 3 else m + 9 in
  let doy := (153 * mp + 2) / 5 + d - 1 in
  let doe := yoe * 365 + yoe / 4 - yoe / 100 + doy in
  era * 146097 + doe - 719468.

(** [new Date(s).getTime()] for a date-only string [YYYY-MM-DD]; any other
    shape counts as an invalid date. *)
Definition getTime (s : string) : option Z :=
  match list_ascii_of_string s with
  | [y1; y2; y3; y4; s1; m1; m2; s2; d1; d2] =>
      match digitOf y1, digitOf y2, digitOf y3, digitOf y4,
            digitOf m1, digitOf m2, digitOf d1, digitOf d2 with
      | Some a, Some b, Some c, Some d, Some e, Some f, Some g, Some h =>
          let y := 1000 * a + 100 * b + 10 * c + d in
          let m := 10 * e + f in
          let dd := 10 * g + h in
          if Ascii.eqb s1 "-" && Ascii.eqb s2 "-"
             && (1 <=? m) && (m <=? 12) && (1 <=? dd) && (dd <=? 31)
          then Some (daysFromCivil y m dd * 86400000)
          else None
      | _, _, _, _, _, _, _, _ => None
      end
  | _ => None
  end.

(** [s.toLowerCase()] on the letters A to Z. *)
Definition toLowerCase (s : string) : string :=
  string_of_list_ascii
    (map (fun c =>
            let n := nat_of_ascii c in
            if ((65 <=? n) && (n <=? 90))%nat then ascii_of_nat (n + 32)
            else c)
         (list_ascii_of_string s)).

(** The characters the workbook library refuses in a worksheet name. *)
Definition refusedInName (c : ascii) : bool :=
  existsb (Ascii.eqb c) ["*"; "?"; ":"; "/"; "\"; "["; "]"]%char.

Definition quoteAtAnEnd (name : string) : bool :=
  match list_ascii_of_string name with
  | [] => false
  | c :: rest => Ascii.eqb c "'" || Ascii.eqb (last rest c) "'"
  end.

(** The name check of the workbook library, for names of ASCII
    characters: the empty name, the name [History], a name holding one of
    the refused characters and a name that starts or ends with a single
    quote are refused; a name of more than 31 characters is cut to 31
    after a warning; a name a sheet of the workbook bears already, up to
    the case of letters, is refused. *)
Definition worksheetName (wb : Exporter.Workbook) (name : string)
  : Exporter.NameOutcome :=
  if String.eqb name "" then
    Exporter.NameRejected (Js.LibraryError "empty worksheet name")
  else if String.eqb name "History" then
    Exporter.NameRejected (Js.LibraryError "protected worksheet name")
  else if existsb refusedInName (list_ascii_of_string name) then
    Exporter.NameRejected
      (Js.LibraryError "character refused in a worksheet name")
  else if quoteAtAnEnd name then
    Exporter.NameRejected
      (Js.LibraryError "quote at an end of a worksheet name")
  else
    let long := (31 <? String.length name)%nat in
    let stored := if long then String.substring 0 31 name else name in
    if existsb (fun ws => String.eqb (toLowerCase (Exporter.name ws))
                                     (toLowerCase stored)) wb
    then Exporter.NameRejected (Js.LibraryError "worksheet name in use")
    else Exporter.NameStored stored long.

End Runtime.

(* ===================================================================== *)
(** ** Notions used to state the properties *)
(* ===================================================================== *)

(** The records one balance of an order gives rise to: at most one. *)
Definition emitted (today : string) (completedIds : list Js.Value)
  (order : Order.t) (customer : Customer.t) (collectedBy : User.t)
  (t : CollectionType) (balance : option Z) : list CollectionRecord.t :=
  records (pushIfPositive today completedIds order customer collectedBy
                          t balance (mkDeriveState [] [])).

(** What one order adds to the record list of a derivation pass. *)
Definition contribution (today : string) (customers : list Customer.t)
  (users : list User.t) (currentUser : option User.t)
  (completedIds : list Js.Value) (order : Order.t)
  : list CollectionRecord.t :=
  records (forEachOrder today customers users currentUser completedIds
                        (mkDeriveState [] []) order).

(** The records of a derivation pass, or the exception that escaped it. *)
Definition derivedRecords (r : Js.Error + DeriveState)
  : Js.Error + list CollectionRecord.t :=
  match r with
  | inl e => inl e
  | inr st => inr (records st)
  end.

(** An order is skipped when its customer or its collector is unresolved. *)
Definition skipped (customers : list Customer.t) (users : list User.t)
  (currentUser : option User.t) (order : Order.t) : Prop :=
  findCustomer customers order = None
  \/ findCollectedBy users currentUser order = None.

(** No customer of the list bears the order's [customerId]. *)
Definition customerUnknown (customers : list Customer.t) (order : Order.t)
  : Prop :=
  forall c, In c customers -> Customer.id c <> Order.customerId order.

(** [c] is the first customer of the list that bears the order's
    [customerId]. *)
Definition customerOf (customers : list Customer.t) (order : Order.t)
  (c : Customer.t) : Prop :=
  exists before behind,
    customers = (before ++ c :: behind)%list
    /\ Customer.id c = Order.customerId order
    /\ forall d, In d before -> Customer.id d <> Order.customerId order.

(** No user of the list bears the order's [assignedUserId]. *)
Definition assigneeUnknown (users : list User.t) (order : Order.t) : Prop :=
  forall u, In u users -> Order.assignedUserId order <> Some (User.id u).

(** Somebody is signed in and [u] is the first entry of the user list
    that bears the e-mail address of the signed-in user. *)
Definition listedAs (users : list User.t) (currentUser : option User.t)
  (u : User.t) : Prop :=
  exists cu before behind,
    currentUser = Some cu
    /\ users = (before ++ u :: behind)%list
    /\ User.email u = User.email cu
    /\ forall v, In v before -> User.email v <> User.email cu.

(** Nobody is signed in, or no entry of the user list bears the e-mail
    address of the signed-in user. *)
Definition notListed (users : list User.t) (currentUser : option User.t)
  : Prop :=
  match currentUser with
  | None => True
  | Some cu => forall u, In u users -> User.email u <> User.email cu
  end.

(** [statusFilter === 'all' || c.status === statusFilter]. *)
Definition statusMatches (f : StatusFilter) (c : CollectionRecord.t) : bool :=
  match f with
  | StatusAll => true
  | StatusIs s => Status_eqb (CollectionRecord.status c) s
  end.

Definition typeMatches (f : TypeFilter) (c : CollectionRecord.t) : bool :=
  match f with
  | TypeAll => true
  | TypeIs t => CollectionType_eqb (CollectionRecord.collectionType c) t
  end.

(** The initial values of the two filter state cells. *)
Definition initialStatusFilter : StatusFilter := StatusAll.
Definition initialTypeFilter : TypeFilter := TypeAll.

(** The time a record was collected at, where its [collectedAt] is a
    date. *)
Definition timeOf (getTime : string -> option Z) (c : CollectionRecord.t)
  : Z :=
  match getTime (CollectionRecord.collectedAt c) with
  | Some t => t
  | None => 0
  end.

Definition hasDate (getTime : string -> option Z) (c : CollectionRecord.t)
  : Prop :=
  getTime (CollectionRecord.collectedAt c) <> None.

(** The place of a pivot in a front part: behind the leading elements it
    is not put before; and the front part with the pivot at that place. *)
Fixpoint placeOf {A : Type} (comparefn : A -> A -> Z) (pivot : A)
  (front : list A) : nat :=
  match front with
  | [] => O
  | element :: rest =>
      if comparefn pivot element <? 0 then O
      else S (placeOf comparefn pivot rest)
  end.

Fixpoint putInPlace {A : Type} (comparefn : A -> A -> Z) (pivot : A)
  (front : list A) : list A :=
  match front with
  | [] => [pivot]
  | element :: rest =>
      if comparefn pivot element <? 0 then pivot :: element :: rest
      else element :: putInPlace comparefn pivot rest
  end.

(** [a] is collected at the same time as [b] or later, both being dates. *)
Definition notOlder (getTime : string -> option Z)
  (a b : CollectionRecord.t) : Prop :=
  exists ta tb,
    getTime (CollectionRecord.collectedAt a) = Some ta
    /\ getTime (CollectionRecord.collectedAt b) = Some tb
    /\ tb <= ta.

Definition datesValid (getTime : string -> option Z)
  (l : list CollectionRecord.t) : Prop :=
  Forall (fun c => getTime (CollectionRecord.collectedAt c) <> None) l.

Definition isOf (s : Status) (t : CollectionType) (c : CollectionRecord.t)
  : bool :=
  Status_eqb (CollectionRecord.status c) s
  && CollectionType_eqb (CollectionRecord.collectionType c) t.

(** A computation that only ever adds to the trace. *)
Definition grows {A : Type} (m : Eff World A) : Prop :=
  forall w, exists post, trace (snd (m w)) = (trace w ++ post)%list.

(** The world once an event has been recorded. *)
Definition recorded (e : Event) (w : World) : World :=
  mkWorld (localStorage w) (collections w) (selectedCollection w)
          (verificationNotes w) (trace w ++ [e]).






(** An absent balance read as 0. *)
Definition balanceOf (c : Customer.t) : Z :=
  match Customer.outstandingBalance c with
  | Some b => b
  | None => 0
  end.

(** The worksheet as the specification words it: columns and their order
    from the first record's keys, each 20 wide; a header row of those
    keys, when there are any; one row per record holding, column by
    column, the record's value under the column's key, or nothing where
    the key is missing or holds no value. *)
Definition worksheetBySpec (sheetName : string)
  (first : Exporter.ExportRecord) (rest : list Exporter.ExportRecord)
  : Exporter.Worksheet :=
  let ks := Exporter.keys first in
  Exporter.mkWorksheet
    sheetName
    (map (fun k => Exporter.mkColumn k k 20) ks)
    ((match ks with
      | [] => []
      | _ :: _ => [map (fun k => Some (Exporter.CText k)) ks]
      end)
     ++ map (fun r => map (fun k => Exporter.valueOf k r) ks)
            (first :: rest))%list.

(** The warning the library leaves on the console when it shortens a
    name. *)
Definition nameWarning (sheetName : string) (warned : bool)
  : list Exporter.Event :=
  if warned then [Exporter.ConsoleWarn sheetName] else [].

(** The encode-and-save step, the only one that looks at the format: the
    events it leaves for a given workbook. *)
Definition encodeAndSave
  (csvWriteBuffer xlsxWriteBuffer
     : Exporter.Workbook -> Js.Error + Exporter.Buffer)
  (wb : Exporter.Workbook) (filename : string)
  (format : Exporter.ExportFormat) (count : nat) : list Exporter.Event :=
  match format with
  | Exporter.csv =>
      match csvWriteBuffer wb with
      | inr buf =>
          [Exporter.SaveAs (Exporter.mkBlob buf Exporter.CSV_MIME)
                           (filename ++ ".csv");
           Exporter.ConsoleLog count "CSV"]
      | inl e =>
          [Exporter.ConsoleError e;
           Exporter.Alert "Export failed. Please try again."]
      end
  | Exporter.xlsx =>
      match xlsxWriteBuffer wb with
      | inr buf =>
          [Exporter.SaveAs (Exporter.mkBlob buf Exporter.XLSX_MIME)
                           (filename ++ ".xlsx");
           Exporter.ConsoleLog count "XLSX"]
      | inl e =>
          [Exporter.ConsoleError e;
           Exporter.Alert "Export failed. Please try again."]
      end
  end.

Definition isSaveAs (e : Exporter.Event) : bool :=
  match e with
  | Exporter.SaveAs _ _ => true
  | _ => false
  end.

(* ===================================================================== *)
(** ** Sample data *)
(* ===================================================================== *)

Module Sample.

Definition today : string := "2024-05-20".

Definition asha : User.t := User.mk "u1" "Asha" "asha@example.com" "Admin".
Definition ravi : User.t := User.mk "u2" "Ravi" "ravi@example.com" "Driver".

Definition users : list User.t := [asha; ravi].

(** A user who signs in without being in the user list. *)
Definition nimal : User.t :=
  User.mk "u9" "Nimal" "nimal@example.com" "Cashier".

Definition perera : Customer.t := Customer.mk "c1" "Perera Stores" (Some 50).
Definition silva : Customer.t := Customer.mk "c2" "Silva Traders" None.

Definition customers : list Customer.t := [perera; silva].

(** An order with a credit balance of 100 and no cheque balance. *)
Definition order1 : Order.t :=
  Order.mk "o1" "c1" None (Some "2024-05-01") 100 "Delivered"
           (Some "u2") (Some 0) (Some 100) None.

(** An order whose customer is not in the customer list. *)
Definition orphan : Order.t :=
  Order.mk "o2" "c9" None (Some "2024-05-02") 70 "Delivered"
           (Some "u2") (Some 30) (Some 40) None.

(** An order assigned to a user that is not in the user list. *)
Definition unassigned : Order.t :=
  Order.mk "o3" "c2" (Some "Silva") None 25 "Pending"
           (Some "u7") (Some 25) None None.

(** The worklist entry derived from [order1]. *)
Definition order1Credit : CollectionRecord.t :=
  CollectionRecord.mk "o1-credit" "o1" "c1" "Perera Stores" credit 100
                      "Ravi" "2024-05-01" pending (Some "").

Definition emptyWorld : World :=
  mkWorld None [order1Credit] (Some order1Credit) "" [].

(** A store that accepts every update. *)
Definition acceptAll : string -> Patch -> string -> Response :=
  fun _ _ _ => Succeeded.

(** A store that accepts order updates and answers every customer update
    with an error object. *)
Definition customersDenied : string -> Patch -> string -> Response :=
  fun table _ _ =>
    if String.eqb table "customers"
    then ErrorReturned (Js.StoreError "permission denied")
    else Succeeded.

(** A store that answers every order update with an error object. *)
Definition ordersDenied : string -> Patch -> string -> Response :=
  fun table _ _ =>
    if String.eqb table "orders"
    then ErrorReturned (Js.StoreError "permission denied")
    else Succeeded.

Definition entry (id : string) (t : CollectionType) (s : Status)
  (collectedAt : string) : CollectionRecord.t :=
  CollectionRecord.mk id "o" "c1" "Perera Stores" t 10 "Ravi" collectedAt s
                      (Some "").

(** Three entries of which the middle one carries no date. *)
Definition undated : list CollectionRecord.t :=
  [ entry "o1-credit" credit pending "2024-01-01";
    entry "o2-credit" credit pending "n/a";
    entry "o3-credit" credit pending "2024-05-01" ].

(** Four entries, three of them of one day. *)
Definition sameDay : list CollectionRecord.t :=
  [ entry "o1-credit" credit pending "2024-05-02";
    entry "o2-credit" credit pending "2024-05-03";
    entry "o3-cheque" cheque pending "2024-05-02";
    entry "o4-credit" credit complete "2024-05-02" ].

(** Three pending credit entries, two pending cheque entries and one
    completed cheque entry. *)
Definition worklist : list CollectionRecord.t :=
  [ entry "o1-credit" credit pending "2024-05-01";
    entry "o2-cheque" cheque pending "2024-04-11";
    entry "o3-credit" credit pending "2024-05-09";
    entry "o4-cheque" cheque complete "2024-05-03";
    entry "o5-cheque" cheque pending "2024-05-17";
    entry "o6-credit" credit pending "2024-03-30" ].

(** A pending credit entry of 80 against the customer who owes 50. *)
Definition credit80 : CollectionRecord.t :=
  CollectionRecord.mk "o4-credit" "o4" "c1" "Perera Stores" credit 80
                      "Ravi" "2024-05-04" pending (Some "").

Definition world80 : World :=
  mkWorld None [credit80] (Some credit80) "cash counted" [].

(** Verification notes that happen to spell the completion token, the
    audit string recognition then writes, and the order as it is reloaded
    afterwards: its credit balance cleared, its cheque balance still due. *)
Definition tokenNotes : string := "COLLECTION_COMPLETED".

Definition tokenAudit : string :=
  "CREDIT collection of LKR 100 completed by Asha. Notes: COLLECTION_COMPLETED".

Definition order1Reloaded : Order.t :=
  Order.mk "o1" "c1" None (Some "2024-05-01") 140 "Delivered"
           (Some "u2") (Some 40) (Some 0) (Some tokenAudit).

(** Two export rows; the second lacks the [Notes] key. *)
Definition exportRows : list Exporter.ExportRecord :=
  [ [("Order ID", Some (Exporter.CText "o1"));
     ("Total Amount", Some (Exporter.CNumber 100));
     ("Notes", Some (Exporter.CText "paid"))];
    [("Order ID", Some (Exporter.CText "o2"));
     ("Total Amount", Some (Exporter.CNumber 70))] ].

(** Two rows of customers; the first owns the [Email] key without a
    value. *)
Definition customerRows : list Exporter.ExportRecord :=
  [ [("Customer ID", Some (Exporter.CText "c1")); ("Email", None);
     ("Total Spent", Some (Exporter.CNumber 900))];
    [("Customer ID", Some (Exporter.CText "c2"));
     ("Email", Some (Exporter.CText "silva@example.com"));
     ("Total Spent", Some (Exporter.CNumber 40))] ].

(** Encoders that print the number of sheets. *)
Definition csvEncoder : Exporter.Workbook -> Js.Error + Exporter.Buffer :=
  fun wb => inr (if (List.length wb =? 1)%nat then "csv:1" else "csv:?").

Definition xlsxEncoder : Exporter.Workbook -> Js.Error + Exporter.Buffer :=
  fun wb => inr (if (List.length wb =? 1)%nat then "xlsx:1" else "xlsx:?").

Definition blankExport : Exporter.World := Exporter.mkWorld [] [].

End Sample.

(* ===================================================================== *)
(** ** Further notions on the derivation *)
(* ===================================================================== *)

(** The balance of an order that a record of type [t] is drawn from. *)
Definition balanceFor (order : Order.t) (t : CollectionType) : option Z :=
  match t with
  | credit => Order.creditBalance order
  | cheque => Order.chequeBalance order
  end.

Definition isNull (j : Js.JSON) : bool :=
  match j with
  | Js.JNull => true
  | _ => false
  end.

(** The cached value can be read by the derivation: it is an array and
    none of its entries is [null]. *)
Definition cacheReadable (j : Js.JSON) : bool :=
  match j with
  | Js.JArr items => forallb (fun e => negb (isNull e)) items
  | _ => false
  end.

(** What a worklist entry shows of itself. *)
Definition summary (r : CollectionRecord.t)
  : string * CollectionType * Z * Status :=
  (CollectionRecord.id r, CollectionRecord.collectionType r,
   CollectionRecord.amount r, CollectionRecord.status r).

Module Scenario.

(** An order with both balances due. *)
Definition orderBoth : Order.t :=
  Order.mk "o7" "c2" (Some "") (Some "") 90 "Delivered"
           None (Some 35) (Some 55) None.

(** An order whose notes carry the completion token. *)
Definition orderMarked : Order.t :=
  Order.mk "o8" "c1" None (Some "2024-05-11") 60 "Delivered"
           (Some "u1") (Some 20) (Some 40)
           (Some "paid in full COLLECTION_COMPLETED by cashier").

End Scenario.

(* ===================================================================== *)
(** ** Aggregate statistics ([totalStats]) *)
(* ===================================================================== *)

Record Stats : Type := mkStats {
  totalPendingAmount : Z;
  totalCompletedAmount : Z;
  pendingCredit : Z;
  pendingCheque : Z;
  totalCollections : nat
}.

(** [l.reduce((sum, c) => sum + c.amount, 0)], over amounts that are
    whole numbers, for which the addition is exact as long as the sum
    stays below 2^53.  The theorems on the statistics use of the addition
    only that the sum over no record is 0. *)
Definition sumAmounts (l : list CollectionRecord.t) : Z :=
  fold_left (fun sum c => sum + CollectionRecord.amount c) l 0.

Definition hasStatus (s : Status) (c : CollectionRecord.t) : bool :=
  Status_eqb (CollectionRecord.status c) s.

Definition hasType (t : CollectionType) (c : CollectionRecord.t) : bool :=
  CollectionType_eqb (CollectionRecord.collectionType c) t.

(** The memoised statistics over the filtered view. *)
Definition totalStats (filteredCollections : list CollectionRecord.t)
  : Stats :=
  let pending := filter (hasStatus pending) filteredCollections in
  let completed := filter (hasStatus complete) filteredCollections in
  mkStats
    (sumAmounts pending)
    (sumAmounts completed)
    (sumAmounts (filter (hasType credit) pending))
    (sumAmounts (filter (hasType cheque) pending))
    (List.length filteredCollections).

(** A record passes both filters. *)
Definition passes (sf : StatusFilter) (tf : TypeFilter)
  (c : CollectionRecord.t) : bool :=
  statusMatches sf c && typeMatches tf c.

(** A record was collected at the instant [t]. *)
Definition collectedAtTime (getTime : string -> option Z) (t : Z)
  (c : CollectionRecord.t) : bool :=
  match getTime (CollectionRecord.collectedAt c) with
  | Some t' => t' =? t
  | None => false
  end.

(* ===================================================================== *)
(** ** Further notions on the recognition *)
(* ===================================================================== *)


Definition isStoreUpdate (e : Event) : bool :=
  match e with
  | StoreUpdate _ _ _ => true
  | _ => false
  end.

(** How many events of a list pass a test. *)
Definition countIn (p : Event -> bool) (l : list Event) : nat :=
  List.length (filter p l).

(** A computation that never throws. *)
Definition returns {A : Type} (m : Eff World A) : Prop :=
  forall w, exists a, fst (m w) = Returned a.

(** A computation that only adds to the trace, and adds [onReturn] events
    of a kind when it returns and [onThrow] when it throws. *)
Definition adds (p : Event -> bool) (onReturn onThrow : nat)
  {A : Type} (m : Eff World A) : Prop :=
  forall w, exists post,
    trace (snd (m w)) = (trace w ++ post)%list
    /\ countIn p post = match fst (m w) with
                        | Returned _ => onReturn
                        | Thrown _ => onThrow
                        end.

(** The store call made for the customer of a record, if the customer is
    in the list: none or one event. *)
Definition customerCall (customers : list Customer.t)
  (sel : CollectionRecord.t) : list Event :=
  match Js.find (fun c => String.eqb (Customer.id c)
                                     (CollectionRecord.customerId sel))
                customers with
  | Some c =>
      [StoreUpdate "customers"
         [("outstandingbalance",
           FNum (newOutstandingBalance c (CollectionRecord.amount sel)))]
         (CollectionRecord.customerId sel)]
  | None => []
  end.

(** The cached list once an id has been recorded in it. *)
Definition cacheAppend (items : list Js.JSON) (id : string)
  : list Js.JSON :=
  if Js.arrIncludes items id then items else (items ++ [Js.JStr id])%list.

(** The local-storage cell and the events of recording an id in a cached
    list [items]: nothing is written when the id is already there. *)
Definition cacheCell (w : World) (items : list Js.JSON) (id : string)
  : option Js.JSON :=
  if Js.arrIncludes items id then localStorage w
  else Some (Js.JArr (items ++ [Js.JStr id])).

Definition cacheEvents (items : list Js.JSON) (id : string) : list Event :=
  if Js.arrIncludes items id then []
  else [CacheWrite (Js.JArr (items ++ [Js.JStr id]))].

(** The cached value lets the recognition go on: it is an array, or a
    string in which the id occurs. *)
Definition cacheUsable (j : Js.JSON) (id : string) : bool :=
  match j with
  | Js.JArr _ => true
  | Js.JStr s => Js.includes s id
  | _ => false
  end.

(** The order-table call of a recognition. *)
Definition orderCall (toLocaleString : Z -> string)
  (currentUser : option User.t) (sel : CollectionRecord.t)
  (verification : string) : Event :=
  StoreUpdate "orders"
              (updatedOrderData toLocaleString currentUser sel verification)
              (CollectionRecord.orderId sel).

(** The store does not reject a call to the customer table. *)
Definition customersNotRejected
  (backend : string -> Patch -> string -> Response) : Prop :=
  forall patch id e, backend "customers" patch id <> Rejected e.

Module Scenario2.

(** A world whose cache already holds an unrelated id. *)
Definition worldWithCache : World :=
  mkWorld (Some (Js.JArr [Js.JStr "o0-cheque"]))
          [Sample.order1Credit; Sample.credit80]
          (Some Sample.credit80) "cash counted" [].

(** A world whose cache key holds an object instead of a list. *)
Definition worldBadCache : World :=
  mkWorld (Some (Js.JObj [])) [Sample.credit80] (Some Sample.credit80) "" [].

(** A store that accepts order updates and rejects customer updates. *)
Definition customersRejected : string -> Patch -> string -> Response :=
  fun table _ _ =>
    if String.eqb table "customers"
    then Rejected (Js.NetworkError "offline")
    else Succeeded.

End Scenario2.

(** The store calls a recognition is expected to make: the order call,
    and the customer call when the order call was accepted. *)
Definition expectedStoreCalls (toLocaleString : Z -> string)
  (backend : string -> Patch -> string -> Response)
  (customers : list Customer.t) (currentUser : option User.t)
  (sel : CollectionRecord.t) (verification : string) : list Event :=
  orderCall toLocaleString currentUser sel verification
  :: match backend "orders"
             (updatedOrderData toLocaleString currentUser sel verification)
             (CollectionRecord.orderId sel) with
     | Succeeded => customerCall customers sel
     | _ => []
     end.

(* ===================================================================== *)
(** ** Further notions on the exporter *)
(* ===================================================================== *)

(** The encoder [exportData] calls for a format. *)
Definition encoderFor
  (csvWriteBuffer xlsxWriteBuffer
     : Exporter.Workbook -> Js.Error + Exporter.Buffer)
  (format : Exporter.ExportFormat)
  : Exporter.Workbook -> Js.Error + Exporter.Buffer :=
  match format with
  | Exporter.csv => csvWriteBuffer
  | Exporter.xlsx => xlsxWriteBuffer
  end.

Definition mimeFor (format : Exporter.ExportFormat) : string :=
  match format with
  | Exporter.csv => Exporter.CSV_MIME
  | Exporter.xlsx => Exporter.XLSX_MIME
  end.

Definition extensionFor (format : Exporter.ExportFormat) : string :=
  match format with
  | Exporter.csv => ".csv"
  | Exporter.xlsx => ".xlsx"
  end.

Definition EXPORT_FAILED : string := "Export failed. Please try again.".

(** Two records agree on the keys of a third. *)
Definition agreeOn (ks : list string) (r1 r2 : Exporter.ExportRecord) : Prop :=
  forall k, In k ks -> Exporter.valueOf k r1 = Exporter.valueOf k r2.

(* ===================================================================== *)
(** ** The export adapters *)
(* ===================================================================== *)

(** Each adapter maps its entities to flat rows with an object literal,
    takes the date of the day as a timestamp and hands the rows to
    [exportData] under its own file prefix and sheet name.  The entities
    reach the adapters untyped; the row literal of each adapter is taken
    as a function from the entity to its row. *)

Module Adapters.

Section Adapters.

(** [new Date().toISOString().split("T")[0]]. *)
Variable today : string.

Variable csvWriteBuffer : Exporter.Workbook -> Js.Error + Exporter.Buffer.
Variable xlsxWriteBuffer : Exporter.Workbook -> Js.Error + Exporter.Buffer.
Variable worksheetName : Exporter.Workbook -> string -> Exporter.NameOutcome.

Variables OrderItem Product CustomerItem Allocation Sale UserItem Supplier
  : Type.

Variable orderRow : OrderItem -> Exporter.ExportRecord.
Variable productRow : Product -> Exporter.ExportRecord.
Variable customerRow : CustomerItem -> Exporter.ExportRecord.
Variable allocationRow : Allocation -> Exporter.ExportRecord.
Variable saleRow : Sale -> Exporter.ExportRecord.
Variable userRow : UserItem -> Exporter.ExportRecord.
Variable supplierRow : Supplier -> Exporter.ExportRecord.

Definition exportOrders (orders : list OrderItem)
  (format : Exporter.ExportFormat) : Eff Exporter.World unit :=
  let formattedData := map orderRow orders in
  let timestamp := today in
  Exporter.exportData csvWriteBuffer xlsxWriteBuffer worksheetName
                      (Some formattedData)
                      ("orders_" ++ timestamp) format "Orders".

Definition exportProducts (products : list Product)
  (format : Exporter.ExportFormat) : Eff Exporter.World unit :=
  let formattedData := map productRow products in
  let timestamp := today in
  Exporter.exportData csvWriteBuffer xlsxWriteBuffer worksheetName
                      (Some formattedData)
                      ("products_" ++ timestamp) format "Products".

Definition exportCustomers (customers : list CustomerItem)
  (format : Exporter.ExportFormat) : Eff Exporter.World unit :=
  let formattedData := map customerRow customers in
  let timestamp := today in
  Exporter.exportData csvWriteBuffer xlsxWriteBuffer worksheetName
                      (Some formattedData)
                      ("customers_" ++ timestamp) format "Customers".

Definition exportDriverAllocations (allocations : list Allocation)
  (format : Exporter.ExportFormat) : Eff Exporter.World unit :=
  let formattedData := map allocationRow allocations in
  let timestamp := today in
  Exporter.exportData csvWriteBuffer xlsxWriteBuffer worksheetName
                      (Some formattedData)
                      ("driver_allocations_" ++ timestamp) format
                      "Driver Allocations".

Definition exportDriverSales (sales : list Sale)
  (format : Exporter.ExportFormat) : Eff Exporter.World unit :=
  let formattedData := map saleRow sales in
  let timestamp := today in
  Exporter.exportData csvWriteBuffer xlsxWriteBuffer worksheetName
                      (Some formattedData)
                      ("driver_sales_" ++ timestamp) format "Driver Sales".

Definition exportUsers (users : list UserItem)
  (format : Exporter.ExportFormat) : Eff Exporter.World unit :=
  let formattedData := map userRow users in
  let timestamp := today in
  Exporter.exportData csvWriteBuffer xlsxWriteBuffer worksheetName
                      (Some formattedData)
                      ("users_" ++ timestamp) format "Users".

Definition exportSuppliers (suppliers : list Supplier)
  (format : Exporter.ExportFormat) : Eff Exporter.World unit :=
  let formattedData := map supplierRow suppliers in
  let timestamp := today in
  Exporter.exportData csvWriteBuffer xlsxWriteBuffer worksheetName
                      (Some formattedData)
                      ("suppliers_" ++ timestamp) format "Suppliers".

End Adapters.

End Adapters.

(** What an adapter with row literal [row], file prefix [prefix] and sheet
    name [sheet] does: over no entities, the notice and nothing else;
    over some, one worksheet [sheet] built from the rows, and, when the
    encoder answers with a buffer, one saved file named after the prefix,
    the day and the format. *)
Definition behavesAsAdapter {A : Type} (today : string)
  (csvWriteBuffer xlsxWriteBuffer
     : Exporter.Workbook -> Js.Error + Exporter.Buffer)
  (adapter : list A -> Exporter.ExportFormat -> Eff Exporter.World unit)
  (row : A -> Exporter.ExportRecord) (prefix sheet : string) : Prop :=
  forall (format : Exporter.ExportFormat) (w : Exporter.World),
    adapter [] format w
    = (Returned tt,
       Exporter.mkWorld (Exporter.workbook w)
                        (Exporter.events w
                         ++ [Exporter.Alert "No data to export"]))
    /\ forall x xs,
         let built := worksheetBySpec sheet (row x) (map row xs) in
         Exporter.workbook (snd (adapter (x :: xs) format w)) = [built]
         /\ Exporter.name built = sheet
         /\ forall buf,
              encoderFor csvWriteBuffer xlsxWriteBuffer format [built]
              = inr buf ->
              Exporter.events (snd (adapter (x :: xs) format w))
              = (Exporter.events w
                 ++ [Exporter.SaveAs
                       (Exporter.mkBlob buf (mimeFor format))
                       (prefix ++ "_" ++ today ++ extensionFor format);
                     Exporter.ConsoleLog (S (List.length xs))
                                         (Exporter.formatUpper format)])%list.

Module Scenario3.

(** Encoders that fail. *)
Definition failingEncoder : Exporter.Workbook -> Js.Error + Exporter.Buffer :=
  fun _ => inl (Js.NetworkError "out of memory").

(** A world left by an earlier export. *)
Definition usedExport : Exporter.World :=
  Exporter.mkWorld
    [Exporter.mkWorksheet "Old" [] []]
    [Exporter.Alert "No data to export"].

(** A supplier as a pair of id and name, and its row. *)
Definition supplierRow (s : string * string) : Exporter.ExportRecord :=
  [("Supplier ID", Some (Exporter.CText (fst s)));
   ("Name", Some (Exporter.CText (snd s)))].

End Scenario3.

(* ===================================================================== *)
(** ** Facts about [includes] *)
(* ===================================================================== *)

Section IncludesFacts.


(** A needle that avoids the character [c] cannot start before a [c] and
    run over it. *)
Lemma prefix_stop (c : ascii) (n : string) :
  Js.hasChar c n = false ->
  forall a b, prefix n (a ++ String c b) = prefix n a.
Proof.
  induction n as [|x n IH]; intros Hc a b.
  - destruct a; reflexivity.
  - simpl in Hc. apply orb_false_iff in Hc. destruct Hc as [Hx Hn].
    destruct a as [|y a]; simpl.
    + destruct (ascii_dec x c) as [->|Hne]; [|reflexivity].
      rewrite Ascii.eqb_refl in Hx. discriminate.
    + destruct (ascii_dec x y); [apply IH; exact Hn | reflexivity].
Qed.

Lemma includes_cons_skip (c : ascii) (n b : string) :
  Js.hasChar c n = false -> n <> EmptyString ->
  Js.includes (String c b) n = Js.includes b n.
Proof.
  intros Hc Hn. simpl.
  destruct n as [|x n]; [contradiction|].
  simpl in Hc. apply orb_false_iff in Hc. destruct Hc as [Hx _].
  destruct (ascii_dec x c) as [->|Hne].
  - rewrite Ascii.eqb_refl in Hx. discriminate.
  - reflexivity.
Qed.

(** Splitting a haystack at a character foreign to the needle. *)
Lemma includes_split (c : ascii) (n : string) :
  Js.hasChar c n = false -> n <> EmptyString ->
  forall a b,
    Js.includes (a ++ String c b) n = Js.includes a n || Js.includes b n.
Proof.
  intros Hc Hn a b. induction a as [|y a IH].
  - change (EmptyString ++ String c b) with (String c b).
    rewrite includes_cons_skip by assumption.
    simpl. destruct n; [contradiction | reflexivity].
  - change (String y a ++ String c b) with (String y (a ++ String c b)).
    cbn [Js.includes]. rewrite IH.
    change (String y (a ++ String c b)) with (String y a ++ String c b).
    rewrite (prefix_stop c n Hc (String y a) b).
    rewrite orb_assoc. reflexivity.
Qed.




End IncludesFacts.

Example toLocaleString_examples :
  Runtime.toLocaleString 100 = "100"
  /\ Runtime.toLocaleString 1234567 = "12,34,567"
  /\ Runtime.toLocaleString 0 = "0"
  /\ Runtime.toLocaleString (-45000) = "-45,000".
Proof. repeat split; vm_compute; reflexivity. Qed.

Example getTime_examples :
  Runtime.getTime "1970-01-02" = Some 86400000
  /\ Runtime.getTime "2024-03-01" = Some 1709251200000
  /\ Runtime.getTime "soon" = None.
Proof. repeat split; vm_compute; reflexivity. Qed.

(* ===================================================================== *)
(** ** Derivation *)
(* ===================================================================== *)

Section DerivationFacts.

Variable today : string.
Variable customers : list Customer.t.
Variable users : list User.t.
Variable currentUser : option User.t.
Variable completedIds : list Js.Value.

Let step := forEachOrder today customers users currentUser completedIds.
Let contrib := contribution today customers users currentUser completedIds.

Lemma records_pushIfPositive order c u t b st :
  records (pushIfPositive today completedIds order c u t b st)
  = (records st ++ emitted today completedIds order c u t b)%list.
Proof.
  unfold emitted, pushIfPositive. destruct b as [z|]; simpl.
  - destruct (0 <? z); simpl; [reflexivity | now rewrite app_nil_r].
  - now rewrite app_nil_r.
Qed.

(** With both lookups resolved, an order contributes its credit record and
    then its cheque record. *)
Lemma contribution_resolved order c u :
  findCustomer customers order = Some c ->
  findCollectedBy users currentUser order = Some u ->
  contrib order
  = (emitted today completedIds order c u credit (Order.creditBalance order)
     ++ emitted today completedIds order c u cheque
                (Order.chequeBalance order))%list.
Proof.
  intros Hc Hu. unfold contrib, contribution, forEachOrder.
  rewrite Hc, Hu.
  destruct (Js.gtZero (Order.creditBalance order)
            || Js.gtZero (Order.chequeBalance order)); simpl;
    rewrite !records_pushIfPositive; reflexivity.
Qed.

(** The records after one order are the records before it followed by the
    order's contribution, whatever the console holds. *)
Lemma records_forEachOrder st order :
  records (step st order) = (records st ++ contrib order)%list.
Proof.
  destruct (findCustomer customers order) as [c|] eqn:Hc.
  - destruct (findCollectedBy users currentUser order) as [u|] eqn:Hu.
    + rewrite (contribution_resolved order c u Hc Hu).
      unfold step, forEachOrder. rewrite Hc, Hu.
      destruct (Js.gtZero (Order.creditBalance order)
                || Js.gtZero (Order.chequeBalance order)); simpl;
        rewrite !records_pushIfPositive; simpl;
        rewrite app_assoc; reflexivity.
    + unfold step, contrib, contribution, forEachOrder. rewrite Hc, Hu.
      simpl. now rewrite app_nil_r.
  - unfold step, contrib, contribution, forEachOrder. rewrite Hc.
    simpl. now rewrite app_nil_r.
Qed.

Lemma records_fold orders st :
  records (fold_left step orders st)
  = (records st ++ flat_map contrib orders)%list.
Proof.
  revert st. induction orders as [|o os IH]; intros st; simpl.
  - now rewrite app_nil_r.
  - rewrite IH, records_forEachOrder, app_assoc. reflexivity.
Qed.

Lemma contribution_skipped order :
  skipped customers users currentUser order -> contrib order = [].
Proof.
  unfold skipped, contrib, contribution, forEachOrder.
  intros [H|H]; rewrite H; [reflexivity|].
  destruct (findCustomer customers order); reflexivity.
Qed.

End DerivationFacts.

(** The records of a whole pass, when the cache can be read. *)
Lemma derivedRecords_deriveCollections today customers users currentUser
  item orders :
  derivedRecords
    (deriveCollections today customers users currentUser item orders)
  = match completedIdsOf (readCompletedCollections item) with
    | inl e => inl e
    | inr ids =>
        inr (flat_map (contribution today customers users currentUser ids)
                      orders)
    end.
Proof.
  unfold deriveCollections.
  destruct (completedIdsOf (readCompletedCollections item)) as [e|ids];
    [reflexivity|].
  simpl. rewrite records_fold. reflexivity.
Qed.

(** Entries that are plain strings have no [id] property: the set built
    from them holds [undefined] only, and no string is a member. *)
Lemma completedIdsOf_strings (ids : list string) :
  completedIdsOf (Js.JArr (map Js.JStr ids))
  = inr (map (fun _ => Js.Undefined) ids).
Proof.
  simpl. induction ids as [|i ids IH]; simpl; [reflexivity|].
  rewrite IH. reflexivity.
Qed.

Lemma setHas_undefined (ids : list string) (s : string) :
  Js.setHas (map (fun _ => Js.Undefined) ids) s = false.
Proof. induction ids; simpl; auto. Qed.

(** When the cache holds plain strings, only the notes marker can mark a
    derived record complete. *)
Lemma status_with_string_cache today (ids : list string) order c u t b :
  CollectionRecord.status
    (makeRecord today (map (fun _ => Js.Undefined) ids) order c u t b)
  = if isCollectionCompleted order then complete else pending.
Proof. unfold makeRecord. simpl. rewrite setHas_undefined. reflexivity. Qed.

(** When the cache holds objects carrying an [id], the set built from it
    does contain that id. *)
Lemma setHas_object_entry (props : list (string * Js.JSON)) (s : string)
  (rest : list Js.JSON) (ids : list Js.Value) :
  Js.lookupProp "id" props = Js.Val (Js.JStr s) ->
  completedIdsOf (Js.JArr rest) = inr ids ->
  exists ids', completedIdsOf (Js.JArr (Js.JObj props :: rest)) = inr ids'
               /\ Js.setHas ids' s = true.
Proof.
  intros Hp Hr. simpl in *. rewrite Hp, Hr.
  eexists. split; [reflexivity|]. simpl. rewrite String.eqb_refl. reflexivity.
Qed.


Lemma find_isCurrent_some users currentUser u :
  Js.find (isCurrent currentUser) users = Some u ->
  In u users
  /\ exists cu, currentUser = Some cu /\ User.email u = User.email cu.
Proof.
  intros H. apply find_some in H. destruct H as [Hin Hcur]. split; [exact Hin|].
  unfold isCurrent in Hcur. destruct currentUser as [cu|]; [|discriminate].
  exists cu. split; [reflexivity|]. apply String.eqb_eq. exact Hcur.
Qed.

Lemma emitted_collectedBy today ids order c u t b :
  Forall (fun r => CollectionRecord.collectedBy r = User.name u)
         (emitted today ids order c u t b).
Proof.
  unfold emitted, pushIfPositive. destruct b as [z|]; simpl; [|constructor].
  destruct (0 <? z); simpl; repeat constructor.
Qed.

(** C1, as the code runs it: recognising the pending credit record of order
    [o1] appends the string ["o1-credit"] to the cached list, and a later
    derivation that reads this very cache, over an order that still
    carries the credit balance, emits the record ["o1-credit"] with status
    [pending], not [complete]: the reader looks for an [id] property on
    each cached entry, which a string does not have. *)
Theorem C1_recognized_id_stays_pending :
  let w := snd (handleRecognizeCollection Runtime.toLocaleString
                  Sample.acceptAll None Sample.customers (Some Sample.asha)
                  Sample.emptyWorld) in
  localStorage w = Some (Js.JArr [Js.JStr "o1-credit"])
  /\ completedIdsOf (readCompletedCollections (localStorage w))
     = inr [Js.Undefined]
  /\ derivedRecords
       (deriveCollections Sample.today Sample.customers Sample.users
                          (Some Sample.asha) (localStorage w) [Sample.order1])
     = inr [Sample.order1Credit]
  /\ CollectionRecord.id Sample.order1Credit = "o1-credit"
  /\ CollectionRecord.status Sample.order1Credit = pending.
Proof. vm_compute. repeat split; reflexivity. Qed.

Lemma find_nowhere {A : Type} (p : A -> bool) (l : list A) :
  (forall x, In x l -> p x = false) -> Js.find p l = None.
Proof.
  unfold Js.find. induction l as [|x l IH]; intros H; simpl; [reflexivity|].
  rewrite (H x (or_introl eq_refl)). apply IH. intros y Hy. apply H.
  right. exact Hy.
Qed.

Lemma find_first {A : Type} (p : A -> bool) (before behind : list A) x :
  (forall y, In y before -> p y = false) -> p x = true ->
  Js.find p (before ++ x :: behind) = Some x.
Proof.
  unfold Js.find. induction before as [|y before IH]; intros H Hx; simpl.
  - rewrite Hx. reflexivity.
  - rewrite (H y (or_introl eq_refl)). apply IH; [|exact Hx].
    intros z Hz. apply H. right. exact Hz.
Qed.

Lemma findCustomer_unknown customers order :
  customerUnknown customers order -> findCustomer customers order = None.
Proof.
  intros H. unfold findCustomer. apply find_nowhere. intros c Hc.
  apply String.eqb_neq. exact (H c Hc).
Qed.

Lemma findCustomer_customerOf customers order c :
  customerOf customers order c -> findCustomer customers order = Some c.
Proof.
  intros [before [behind [-> [Hid Hbefore]]]]. unfold findCustomer.
  apply find_first.
  - intros d Hd. apply String.eqb_neq. exact (Hbefore d Hd).
  - apply String.eqb_eq. exact Hid.
Qed.

Lemma find_assigneeUnknown users order :
  assigneeUnknown users order -> Js.find (isAssigned order) users = None.
Proof.
  intros H. apply find_nowhere. intros u Hu. unfold isAssigned.
  destruct (Order.assignedUserId order) as [uid|] eqn:E; [|reflexivity].
  apply String.eqb_neq. intros Heq. apply (H u Hu). rewrite E, Heq.
  reflexivity.
Qed.

Lemma findCollectedBy_listedAs users currentUser order u :
  assigneeUnknown users order -> listedAs users currentUser u ->
  findCollectedBy users currentUser order = Some u.
Proof.
  intros Hnone [cu [before [behind [-> [-> [Hmail Hbefore]]]]]].
  unfold findCollectedBy. rewrite (find_assigneeUnknown _ _ Hnone).
  apply find_first.
  - intros v Hv. unfold isCurrent. apply String.eqb_neq.
    exact (Hbefore v Hv).
  - unfold isCurrent. apply String.eqb_eq. exact Hmail.
Qed.

Lemma findCollectedBy_notListed users currentUser order :
  assigneeUnknown users order -> notListed users currentUser ->
  findCollectedBy users currentUser order = None.
Proof.
  intros Hnone Hoff. unfold findCollectedBy.
  rewrite (find_assigneeUnknown _ _ Hnone). apply find_nowhere.
  intros u Hu. unfold isCurrent. destruct currentUser as [cu|];
    [|reflexivity].
  apply String.eqb_neq. exact (Hoff u Hu).
Qed.

Lemma emitted_positive today ids order c u t b :
  0 < b ->
  exists r,
    emitted today ids order c u t (Some b) = [r]
    /\ CollectionRecord.collectedBy r = User.name u
    /\ CollectionRecord.amount r = b
    /\ CollectionRecord.collectionType r = t.
Proof.
  intros Hb. unfold emitted, pushIfPositive.
  destruct (Z.ltb_spec 0 b) as [_|Hle]; [|lia].
  eexists. split; [reflexivity|]. repeat split.
Qed.

(** C3 fails as stated when the signed-in user is not in the user list:
    the order [o3], whose customer is found and whose [assignedUserId]
    no user bears, is not collected by the signed-in user Nimal; it is
    skipped with the no-user diagnostic although it carries a cheque
    balance of 25, and the pass derives no record. *)
Lemma C3_signed_in_user_off_the_list_is_no_collector :
  findCustomer Sample.customers Sample.unassigned = Some Sample.silva
  /\ Order.chequeBalance Sample.unassigned = Some 25
  /\ forEachOrder Sample.today Sample.customers Sample.users
       (Some Sample.nimal) [] (mkDeriveState [] []) Sample.unassigned
     = mkDeriveState
         []
         [DebugOrder "o3" None (Some 25) (Some "Silva Traders") None;
          DebugNoUser "o3" (Some "u7")]
  /\ derivedRecords
       (deriveCollections Sample.today Sample.customers Sample.users
          (Some Sample.nimal) None [Sample.unassigned])
     = inr [].
Proof. repeat split. Qed.

(** C3, amended: an order whose [customerId] no customer bears leaves the
    record list as it was and adds the per-order debug line and the
    no-customer diagnostic; when no user bears the order's
    [assignedUserId], the collector is the first entry of the user list
    that bears the e-mail address of the signed-in user, the emitted
    records bear that entry's name, and there is one for each positive
    balance; when nobody is signed in, or the user list has no entry with
    the signed-in user's e-mail address, the order leaves the record list
    as it was and adds the no-user diagnostic; and an order skipped for
    either reason changes nothing in the outcome of the pass over the
    orders around it. *)
Theorem C3_skipped_unless_customer_and_listed_collector
  (today : string) (customers : list Customer.t) (users : list User.t)
  (currentUser : option User.t) (completedIds : list Js.Value)
  (order : Order.t) (st : DeriveState) :
  let step := forEachOrder today customers users currentUser completedIds in
  let contrib :=
    contribution today customers users currentUser completedIds order in
  (customerUnknown customers order ->
     step st order
     = mkDeriveState
         (records st)
         (console st
          ++ [DebugOrder (Order.id order) (Order.creditBalance order)
                (Order.chequeBalance order) None
                (option_map User.name
                            (findCollectedBy users currentUser order));
              DebugNoCustomer (Order.id order) (Order.customerId order)]))
  /\ (forall c u,
        customerOf customers order c ->
        assigneeUnknown users order ->
        listedAs users currentUser u ->
        records (step st order) = (records st ++ contrib)%list
        /\ contrib
           = (emitted today completedIds order c u credit
                      (Order.creditBalance order)
              ++ emitted today completedIds order c u cheque
                         (Order.chequeBalance order))%list
        /\ Forall (fun r => CollectionRecord.collectedBy r = User.name u)
                  contrib
        /\ (forall b,
              Order.creditBalance order = Some b
              \/ Order.chequeBalance order = Some b ->
              0 < b ->
              exists r,
                In r contrib
                /\ CollectionRecord.collectedBy r = User.name u
                /\ CollectionRecord.amount r = b))
  /\ (forall c,
        customerOf customers order c ->
        assigneeUnknown users order ->
        notListed users currentUser ->
        step st order
        = mkDeriveState
            (records st)
            (console st
             ++ [DebugOrder (Order.id order) (Order.creditBalance order)
                   (Order.chequeBalance order) (Some (Customer.name c)) None;
                 DebugNoUser (Order.id order) (Order.assignedUserId order)]))
  /\ (forall item before after,
        customerUnknown customers order
        \/ (assigneeUnknown users order /\ notListed users currentUser) ->
        derivedRecords
          (deriveCollections today customers users currentUser item
                             (before ++ order :: after))
        = derivedRecords
            (deriveCollections today customers users currentUser item
                               (before ++ after))).
Proof.
  intros step contrib. split; [|split; [|split]].
  - intros Hc. apply findCustomer_unknown in Hc.
    unfold step, forEachOrder. rewrite Hc. unfold log. simpl.
    rewrite <- app_assoc. reflexivity.
  - intros c u Hc Hid Hmail.
    apply findCustomer_customerOf in Hc.
    pose proof (findCollectedBy_listedAs _ _ _ _ Hid Hmail) as Hu.
    pose proof (contribution_resolved today customers users currentUser
                  completedIds order c u Hc Hu) as Hcontrib.
    fold contrib in Hcontrib.
    split; [apply records_forEachOrder|]. split; [exact Hcontrib|].
    split.
    + rewrite Hcontrib. apply Forall_app. split; apply emitted_collectedBy.
    + intros b Hb Hpos. rewrite Hcontrib.
      destruct Hb as [Hb|Hb]; rewrite Hb.
      * destruct (emitted_positive today completedIds order c u credit b
                    Hpos) as [r [Hr [Hby [Hamount _]]]].
        exists r. rewrite Hr. split; [left; reflexivity|]. tauto.
      * destruct (emitted_positive today completedIds order c u cheque b
                    Hpos) as [r [Hr [Hby [Hamount _]]]].
        exists r. rewrite Hr. split; [|tauto].
        apply in_or_app. right. left. reflexivity.
  - intros c Hc Hid Hoff.
    apply findCustomer_customerOf in Hc.
    pose proof (findCollectedBy_notListed _ _ _ Hid Hoff) as Hu.
    unfold step, forEachOrder. rewrite Hc, Hu. unfold log.
    simpl. rewrite <- app_assoc. reflexivity.
  - intros item before after Hs.
    assert (Hskipped : skipped customers users currentUser order).
    { destruct Hs as [Hc|[Hid Hoff]].
      - left. apply findCustomer_unknown. exact Hc.
      - right. apply findCollectedBy_notListed; assumption. }
    rewrite !derivedRecords_deriveCollections.
    destruct (completedIdsOf (readCompletedCollections item)) as [e|ids];
      [reflexivity|].
    rewrite !flat_map_app. simpl.
    rewrite (contribution_skipped today customers users currentUser ids
               order Hskipped).
    reflexivity.
Qed.

(** C3, amended, at the sample data: the order [o3], assigned to nobody
    of the user list, is collected by Asha when she is signed in, and its
    cheque balance of 25 gives a record in her name; [orphan], which has
    no customer, changes nothing in the pass. *)
Lemma C3_skipped_unless_customer_and_listed_collector_witness :
  (exists r,
     In r (contribution Sample.today Sample.customers Sample.users
                        (Some Sample.asha) [] Sample.unassigned)
     /\ CollectionRecord.collectedBy r = "Asha"
     /\ CollectionRecord.amount r = 25)
  /\ derivedRecords
       (deriveCollections Sample.today Sample.customers Sample.users
          (Some Sample.asha) None [Sample.orphan; Sample.order1])
     = derivedRecords
         (deriveCollections Sample.today Sample.customers Sample.users
            (Some Sample.asha) None [Sample.order1]).
Proof.
  split.
  - destruct (C3_skipped_unless_customer_and_listed_collector
                Sample.today Sample.customers Sample.users
                (Some Sample.asha) [] Sample.unassigned
                (mkDeriveState [] [])) as [_ [H _]].
    destruct (H Sample.silva Sample.asha) as [_ [_ [_ Hrecord]]].
    + exists [Sample.perera], []. split; [reflexivity|].
      split; [reflexivity|].
      intros d [<-|[]]. discriminate.
    + intros u [<-|[<-|[]]]; discriminate.
    + exists Sample.asha, [], [Sample.ravi]. split; [reflexivity|].
      split; [reflexivity|]. split; [reflexivity|]. intros v [].
    + apply (Hrecord 25); [right; reflexivity | reflexivity].
  - destruct (C3_skipped_unless_customer_and_listed_collector
                Sample.today Sample.customers Sample.users
                (Some Sample.asha) [] Sample.orphan
                (mkDeriveState [] [])) as [_ [_ [_ H]]].
    apply (H None [] [Sample.order1]). left.
    intros c [<-|[<-|[]]]; discriminate.
Defined.



Lemma filter_none_in {A : Type} (p : A -> bool) (l : list A) :
  (forall c, In c l -> p c = false) -> filter p l = [].
Proof.
  induction l as [|c l IH]; intros H; simpl; [reflexivity|].
  rewrite (H c (or_introl eq_refl)).
  apply IH. intros d Hd. apply H. right. exact Hd.
Qed.

(* ===================================================================== *)
(** ** The engine's sort *)
(* ===================================================================== *)

Section ArraySortFacts.

Variable A : Type.
Variable cmp : A -> A -> Z.

Lemma insertAt_perm n x (l : list A) :
  Permutation (ArraySort.insertAt n x l) (x :: l).
Proof.
  unfold ArraySort.insertAt. apply Permutation_sym.
  rewrite <- (firstn_skipn n l) at 1. apply Permutation_middle.
Qed.

Lemma binaryInsertionSort_perm (rest run : list A) :
  Permutation (ArraySort.binaryInsertionSort cmp run rest) (run ++ rest).
Proof.
  unfold ArraySort.binaryInsertionSort. revert run.
  induction rest as [|p rest IH]; intros run; simpl.
  - rewrite app_nil_r. apply Permutation_refl.
  - eapply perm_trans; [apply IH|].
    unfold ArraySort.insertPivot.
    eapply perm_trans;
      [apply Permutation_app_tail, insertAt_perm|].
    simpl. apply Permutation_middle.
Qed.

Lemma countAndMakeRun_perm (l : list A) :
  Permutation (fst (ArraySort.countAndMakeRun cmp l)
               ++ snd (ArraySort.countAndMakeRun cmp l)) l.
Proof.
  unfold ArraySort.countAndMakeRun.
  destruct l as [|hi [|lo rest]]; cbv zeta; cbn [fst snd];
    try (rewrite app_nil_r; apply Permutation_refl).
  set (n := S (S (ArraySort.runAfter cmp (cmp lo hi <? 0) lo rest))).
  apply perm_trans with (firstn n (hi :: lo :: rest)
                         ++ skipn n (hi :: lo :: rest))%list.
  - apply Permutation_app_tail.
    destruct (cmp lo hi <? 0);
      [apply Permutation_sym, Permutation_rev | apply Permutation_refl].
  - rewrite firstn_skipn. apply Permutation_refl.
Qed.

(** Whatever the comparator answers, sorting rearranges the array. *)
Lemma sort_perm (l : list A) : Permutation (ArraySort.sort cmp l) l.
Proof.
  unfold ArraySort.sort. destruct l as [|hi [|lo rest]];
    try apply Permutation_refl.
  pose proof (countAndMakeRun_perm (hi :: lo :: rest)) as H.
  destruct (ArraySort.countAndMakeRun cmp (hi :: lo :: rest)) as [run rst].
  eapply perm_trans; [apply binaryInsertionSort_perm | exact H].
Qed.

(** The halvings allowed to the binary search are enough: with more of
    them the search ends at the same place, whatever the comparator
    answers. *)
Lemma binarySearch_steps (steps extra : nat) (pivot : A) (l : list A)
  (left right : nat) :
  (right - left <= steps)%nat ->
  ArraySort.binarySearch cmp (steps + extra) pivot l left right
  = ArraySort.binarySearch cmp steps pivot l left right.
Proof.
  revert left right. induction steps as [|steps IH]; intros left right H.
  - destruct extra as [|extra]; [reflexivity|].
    cbn [Nat.add ArraySort.binarySearch].
    destruct (Nat.ltb_spec left right) as [Hlt|_]; [lia|reflexivity].
  - cbn [Nat.add ArraySort.binarySearch]. cbv zeta.
    destruct (Nat.ltb_spec left right) as [Hlt|_]; [|reflexivity].
    set (mid := (left + (right - left) / 2)%nat).
    assert (Hmid : (2 * ((right - left) / 2) <= right - left)%nat)
      by (apply Nat.Div0.mul_div_le).
    assert (Hhalf : ((right - left) / 2 <= steps)%nat) by lia.
    destruct (nth_error l mid); [|reflexivity].
    destruct (cmp pivot a <? 0); apply IH; unfold mid; lia.
Qed.

Lemma insertAt_placeOf p (l : list A) :
  ArraySort.insertAt (placeOf cmp p l) p l = putInPlace cmp p l.
Proof.
  induction l as [|e l IH]; [reflexivity|].
  simpl. destruct (cmp p e <? 0); [reflexivity|].
  unfold ArraySort.insertAt in *. simpl. rewrite IH. reflexivity.
Qed.

Lemma placeOf_le p (l : list A) : (placeOf cmp p l <= List.length l)%nat.
Proof.
  induction l as [|e l IH]; simpl; [lia|].
  destruct (cmp p e <? 0); lia.
Qed.

Lemma before_placeOf p (l : list A) i e :
  (i < placeOf cmp p l)%nat -> nth_error l i = Some e ->
  (cmp p e <? 0) = false.
Proof.
  revert i. induction l as [|x l IH]; intros i Hi He; simpl in *; [lia|].
  destruct (cmp p x <? 0) eqn:E; [lia|].
  destruct i as [|i]; simpl in He.
  - injection He as <-. exact E.
  - apply (IH i); [lia | exact He].
Qed.

(** The consistent case: on the elements at hand the comparator is the
    difference of a key. *)

Variable key : A -> Z.
Variable D : A -> Prop.
Hypothesis cmp_key : forall a b, D a -> D b -> cmp a b = key b - key a.

Let desc := StronglySorted (fun a b => key b <= key a).
Let strictlyAsc := StronglySorted (fun a b => key a < key b).

Lemma after_placeOf p (l : list A) i e :
  D p -> Forall D l -> desc l ->
  (placeOf cmp p l <= i)%nat -> nth_error l i = Some e ->
  (cmp p e <? 0) = true.
Proof.
  intros Hp Hl Hs. revert i. induction Hs as [|x l Hs IH Hall];
    intros i Hi He; [destruct i; discriminate|].
  inversion Hl as [|? ? Hx Hl']; subst. simpl in Hi.
  destruct (cmp p x <? 0) eqn:E.
  - apply Z.ltb_lt in E. rewrite (cmp_key p x Hp Hx) in E.
    apply nth_error_In in He. destruct He as [<-|Hin].
    + apply Z.ltb_lt. rewrite (cmp_key p x Hp Hx). exact E.
    + apply Z.ltb_lt.
      rewrite (cmp_key p e Hp (proj1 (Forall_forall D l) Hl' e Hin)).
      pose proof (proj1 (Forall_forall _ l) Hall e Hin). simpl in *. lia.
  - destruct i as [|i]; [lia|]. simpl in He.
    apply (IH Hl' i); [lia | exact He].
Qed.

Lemma binarySearch_placeOf p (l : list A) :
  D p -> Forall D l -> desc l ->
  forall steps left right,
    (left <= placeOf cmp p l)%nat -> (placeOf cmp p l <= right)%nat ->
    (right <= List.length l)%nat -> (right - left <= steps)%nat ->
    ArraySort.binarySearch cmp steps p l left right = placeOf cmp p l.
Proof.
  intros Hp Hl Hs. induction steps as [|steps IH];
    intros left right Hleft Hright Hlen Hsteps;
    cbn [ArraySort.binarySearch]; [lia|].
  destruct (Nat.ltb_spec left right) as [Hlt|Hge]; [|lia].
  cbv zeta. set (mid := (left + (right - left) / 2)%nat).
  assert (Hmid : (left <= mid /\ mid < right)%nat).
  { unfold mid. split; [lia|].
    assert ((right - left) / 2 < right - left)%nat
      by (apply Nat.div_lt; lia).
    lia. }
  destruct (nth_error l mid) as [e|] eqn:He.
  - destruct (cmp p e <? 0) eqn:E.
    + apply IH; try lia.
      destruct (Nat.le_gt_cases (placeOf cmp p l) mid) as [H|H]; [exact H|].
      rewrite (before_placeOf p l mid e H He) in E. discriminate.
    + apply IH; try lia.
      destruct (Nat.le_gt_cases (placeOf cmp p l) mid) as [H|H]; [|lia].
      rewrite (after_placeOf p l mid e Hp Hl Hs H He) in E. discriminate.
  - apply nth_error_None in He. lia.
Qed.

(** On a sorted front part one round puts the pivot behind the elements
    that are not older. *)
Lemma insertPivot_putInPlace p (l : list A) :
  D p -> Forall D l -> desc l ->
  ArraySort.insertPivot cmp l p = putInPlace cmp p l.
Proof.
  intros Hp Hl Hs. unfold ArraySort.insertPivot.
  rewrite (binarySearch_placeOf p l Hp Hl Hs); try lia.
  - apply insertAt_placeOf.
  - apply placeOf_le.
Qed.

Lemma putInPlace_Forall (P : A -> Prop) p (l : list A) :
  P p -> Forall P l -> Forall P (putInPlace cmp p l).
Proof.
  intros Hp Hl. induction Hl as [|e l He Hl IH]; simpl.
  - repeat constructor. exact Hp.
  - destruct (cmp p e <? 0); repeat constructor; assumption.
Qed.

Lemma putInPlace_desc p (l : list A) :
  D p -> Forall D l -> desc l -> desc (putInPlace cmp p l).
Proof.
  intros Hp Hl Hs. induction Hs as [|e l Hs IH Hall]; simpl.
  - repeat constructor.
  - inversion Hl as [|? ? He Hl']; subst.
    destruct (cmp p e <? 0) eqn:E.
    + apply Z.ltb_lt in E. rewrite (cmp_key p e Hp He) in E.
      constructor; [constructor; assumption|].
      constructor; [lia|].
      apply Forall_forall. intros x Hx.
      pose proof (proj1 (Forall_forall _ l) Hall x Hx). simpl in *. lia.
    + apply Z.ltb_ge in E. rewrite (cmp_key p e Hp He) in E.
      constructor; [apply IH; exact Hl'|].
      apply putInPlace_Forall; [lia | exact Hall].
Qed.

Variable t : Z.

Let atT (a : A) : bool := key a =? t.

Lemma putInPlace_filter p (l : list A) :
  D p -> Forall D l -> desc l ->
  filter atT (putInPlace cmp p l) = (filter atT l ++ filter atT [p])%list.
Proof.
  intros Hp Hl Hs. induction Hs as [|e l Hs IH Hall]; [reflexivity|].
  inversion Hl as [|? ? He Hl']; subst.
  cbn [putInPlace]. destruct (cmp p e <? 0) eqn:E.
  - apply Z.ltb_lt in E. rewrite (cmp_key p e Hp He) in E.
    change (filter atT (p :: e :: l))
      with (if atT p then p :: filter atT (e :: l) else filter atT (e :: l)).
    change (filter atT [p]) with (if atT p then [p] else []).
    destruct (atT p) eqn:Hq; [|now rewrite app_nil_r].
    apply Z.eqb_eq in Hq.
    rewrite (filter_none_in atT (e :: l)); [reflexivity|].
    intros x [<-|Hx]; unfold atT; apply Z.eqb_neq; [lia|].
    pose proof (proj1 (Forall_forall _ l) Hall x Hx). simpl in *. lia.
  - cbn [filter]. rewrite (IH Hl').
    destruct (atT e); reflexivity.
Qed.

(** The rounds of the insertion, on a sorted front part. *)
Lemma binaryInsertionSort_sorted (rest run : list A) :
  Forall D run -> Forall D rest -> desc run ->
  desc (ArraySort.binaryInsertionSort cmp run rest)
  /\ filter atT (ArraySort.binaryInsertionSort cmp run rest)
     = (filter atT run ++ filter atT rest)%list.
Proof.
  unfold ArraySort.binaryInsertionSort. revert run.
  induction rest as [|p rest IH]; intros run Hrun Hrest Hs; simpl.
  - split; [exact Hs | now rewrite app_nil_r].
  - inversion Hrest as [|? ? Hp Hrest']; subst.
    rewrite (insertPivot_putInPlace p run Hp Hrun Hs).
    destruct (IH (putInPlace cmp p run)
                 (putInPlace_Forall D p run Hp Hrun) Hrest'
                 (putInPlace_desc p run Hp Hrun Hs)) as [H1 H2].
    split; [exact H1|].
    rewrite H2, (putInPlace_filter p run Hp Hrun Hs).
    cbn [filter]. rewrite <- app_assoc.
    destruct (atT p); reflexivity.
Qed.

Lemma runAfter_le d prev (rest : list A) :
  (ArraySort.runAfter cmp d prev rest <= List.length rest)%nat.
Proof.
  revert prev. induction rest as [|cur rest IH]; intros prev; simpl; [lia|].
  destruct d; [destruct (0 <=? cmp cur prev) | destruct (cmp cur prev <? 0)];
    try lia; specialize (IH cur); lia.
Qed.

(** A run that does not descend is sorted as it stands. *)
Lemma run_desc prev (rest : list A) :
  Forall D (prev :: rest) ->
  desc (prev :: firstn (ArraySort.runAfter cmp false prev rest) rest).
Proof.
  revert prev. induction rest as [|cur rest IH]; intros prev Hall; simpl.
  - repeat constructor.
  - inversion Hall as [|? ? Hprev Hrest]; subst.
    inversion Hrest as [|? ? Hcur Hrest']; subst.
    destruct (cmp cur prev <? 0) eqn:E; [repeat constructor|].
    apply Z.ltb_ge in E. rewrite (cmp_key cur prev Hcur Hprev) in E.
    specialize (IH cur Hrest). simpl.
    constructor; [exact IH|].
    constructor; [lia|].
    apply StronglySorted_inv in IH. destruct IH as [_ Hle].
    apply Forall_forall. intros x Hx.
    pose proof (proj1 (Forall_forall _ _) Hle x Hx). simpl in *. lia.
Qed.

(** A run that descends strictly has strictly growing keys. *)
Lemma run_strictlyAsc prev (rest : list A) :
  Forall D (prev :: rest) ->
  strictlyAsc (prev :: firstn (ArraySort.runAfter cmp true prev rest) rest).
Proof.
  revert prev. induction rest as [|cur rest IH]; intros prev Hall; simpl.
  - repeat constructor.
  - inversion Hall as [|? ? Hprev Hrest]; subst.
    inversion Hrest as [|? ? Hcur Hrest']; subst.
    destruct (0 <=? cmp cur prev) eqn:E; [repeat constructor|].
    apply Z.leb_gt in E. rewrite (cmp_key cur prev Hcur Hprev) in E.
    specialize (IH cur Hrest). simpl.
    constructor; [exact IH|].
    constructor; [lia|].
    apply StronglySorted_inv in IH. destruct IH as [_ Hle].
    apply Forall_forall. intros x Hx.
    pose proof (proj1 (Forall_forall _ _) Hle x Hx). simpl in *. lia.
Qed.

Lemma strictlyAsc_rev (l : list A) : strictlyAsc l -> desc (rev l).
Proof.
  induction 1 as [|a l Hs IH Hall]; simpl; [constructor|].
  clear Hs. revert IH. generalize (Forall_rev Hall).
  generalize (rev l). intros m Hm Hd.
  induction Hd as [|b m Hd IHd Hb]; simpl.
  - repeat constructor.
  - inversion Hm as [|? ? Hab Hm']; subst.
    constructor; [apply IHd; exact Hm'|].
    apply Forall_app. split; [exact Hb|].
    repeat constructor. simpl. lia.
Qed.

Lemma strictlyAsc_filter (l : list A) :
  strictlyAsc l -> filter atT (rev l) = filter atT l.
Proof.
  intros Hs. rewrite filter_rev.
  assert (Hlen : (List.length (filter atT l) <= 1)%nat).
  { induction Hs as [|a l Hs IH Hall]; simpl; [lia|].
    unfold atT at 1. destruct (Z.eqb_spec (key a) t) as [Ht|Ht]; [|exact IH].
    rewrite (filter_none_in atT l); [simpl; lia|].
    intros x Hx. pose proof (proj1 (Forall_forall _ l) Hall x Hx).
    unfold atT. apply Z.eqb_neq. simpl in *. lia. }
  destruct (filter atT l) as [|x [|y m]]; simpl in *; try reflexivity. lia.
Qed.

(** The run the engine starts from is sorted, and the records of one
    instant stand in it as they stood. *)
Lemma countAndMakeRun_sorted (l : list A) :
  Forall D l ->
  desc (fst (ArraySort.countAndMakeRun cmp l))
  /\ (filter atT (fst (ArraySort.countAndMakeRun cmp l))
      ++ filter atT (snd (ArraySort.countAndMakeRun cmp l)))%list
     = filter atT l.
Proof.
  intros Hall. unfold ArraySort.countAndMakeRun.
  destruct l as [|hi [|lo rest]].
  - split; [constructor | reflexivity].
  - split; [repeat constructor | apply app_nil_r].
  - inversion Hall as [|? ? Hhi Hrest]; subst.
    inversion Hrest as [|? ? Hlo Hrest']; subst.
    set (d := cmp lo hi <? 0).
    set (n := ArraySort.runAfter cmp d lo rest).
    cbn [fst snd].
    assert (Hsplit : (filter atT (firstn (S (S n)) (hi :: lo :: rest))
                      ++ filter atT (skipn (S (S n)) (hi :: lo :: rest)))%list
                     = filter atT (hi :: lo :: rest))
      by (rewrite <- filter_app, firstn_skipn; reflexivity).
    change (firstn (S (S n)) (hi :: lo :: rest))
      with (hi :: lo :: firstn n rest) in *.
    destruct d eqn:E; unfold d in E.
    + apply Z.ltb_lt in E. rewrite (cmp_key lo hi Hlo Hhi) in E.
      assert (Hasc : strictlyAsc (hi :: lo :: firstn n rest)).
      { pose proof (run_strictlyAsc lo rest Hrest) as H. fold n in H.
        constructor; [exact H|]. constructor; [lia|].
        apply StronglySorted_inv in H. destruct H as [_ Hlt].
        apply Forall_forall. intros x Hx.
        pose proof (proj1 (Forall_forall _ _) Hlt x Hx). simpl in *. lia. }
      split; [apply strictlyAsc_rev; exact Hasc|].
      rewrite (strictlyAsc_filter _ Hasc). exact Hsplit.
    + apply Z.ltb_ge in E. rewrite (cmp_key lo hi Hlo Hhi) in E.
      split; [|exact Hsplit].
      pose proof (run_desc lo rest Hrest) as H. fold n in H.
      constructor; [exact H|]. constructor; [lia|].
      apply StronglySorted_inv in H. destruct H as [_ Hle].
      apply Forall_forall. intros x Hx.
      pose proof (proj1 (Forall_forall _ _) Hle x Hx). simpl in *. lia.
Qed.

(** With a consistent comparator the sorted array is in order, and the
    elements of one key stand in it as they stood in the array. *)
Lemma sort_sorted (l : list A) :
  Forall D l ->
  desc (ArraySort.sort cmp l)
  /\ filter atT (ArraySort.sort cmp l) = filter atT l.
Proof.
  intros Hall. unfold ArraySort.sort.
  destruct l as [|hi [|lo rest]];
    [split; [constructor | reflexivity]
    |split; [repeat constructor | reflexivity]|].
  destruct (countAndMakeRun_sorted (hi :: lo :: rest) Hall) as [Hd Hf].
  pose proof (countAndMakeRun_perm (hi :: lo :: rest)) as Hperm.
  destruct (ArraySort.countAndMakeRun cmp (hi :: lo :: rest)) as [run rst].
  cbn [fst snd] in *.
  assert (Hboth : Forall D (run ++ rst))
    by (apply (Permutation_Forall (Permutation_sym Hperm)); exact Hall).
  apply Forall_app in Hboth. destruct Hboth as [Hrun Hrst].
  destruct (binaryInsertionSort_sorted rst run Hrun Hrst Hd) as [H1 H2].
  split; [exact H1 | rewrite H2; exact Hf].
Qed.

Lemma runAfter_all prev (rest : list A) :
  Forall D (prev :: rest) -> desc (prev :: rest) ->
  ArraySort.runAfter cmp false prev rest = List.length rest.
Proof.
  revert prev. induction rest as [|cur rest IH]; intros prev Hall Hs;
    [reflexivity|].
  inversion Hall as [|? ? Hprev Hrest]; subst.
  inversion Hrest as [|? ? Hcur _]; subst.
  apply StronglySorted_inv in Hs. destruct Hs as [Hs Hle].
  inversion Hle as [|? ? Hcp _]; subst. simpl.
  rewrite (cmp_key cur prev Hcur Hprev).
  destruct (Z.ltb_spec (key prev - key cur) 0) as [H|H]; [lia|].
  rewrite (IH cur Hrest Hs). reflexivity.
Qed.

(** An array that is in order already is returned as it is. *)
Lemma sort_fixed (l : list A) :
  Forall D l -> desc l -> ArraySort.sort cmp l = l.
Proof.
  intros Hall Hs. unfold ArraySort.sort, ArraySort.countAndMakeRun.
  destruct l as [|hi [|lo rest]]; try reflexivity.
  inversion Hall as [|? ? Hhi Hrest]; subst.
  inversion Hrest as [|? ? Hlo _]; subst.
  pose proof Hs as Hs0.
  apply StronglySorted_inv in Hs. destruct Hs as [Hs Hle].
  inversion Hle as [|? ? Hlh _]; subst.
  rewrite (cmp_key lo hi Hlo Hhi).
  destruct (Z.ltb_spec (key hi - key lo) 0) as [H|H]; [lia|].
  rewrite (runAfter_all lo rest Hrest Hs).
  change (S (S (List.length rest))) with (List.length (hi :: lo :: rest)).
  rewrite firstn_all, skipn_all. reflexivity.
Qed.

End ArraySortFacts.

(* ===================================================================== *)
(** ** Filtering and sorting *)
(* ===================================================================== *)

Section FilteringFacts.

Variable getTime : string -> option Z.

Let cmp := compareFn getTime.

Lemma sortBy_perm l : Permutation (sortBy cmp l) l.
Proof. unfold sortBy. apply sort_perm. Qed.

(** Between dates the comparator is the difference of the times. *)
Lemma compareFn_timeOf a b :
  hasDate getTime a -> hasDate getTime b ->
  cmp a b = timeOf getTime b - timeOf getTime a.
Proof.
  unfold hasDate, cmp, compareFn, timeOf. intros Ha Hb.
  destruct (getTime (CollectionRecord.collectedAt a)); [|contradiction].
  destruct (getTime (CollectionRecord.collectedAt b)); [|contradiction].
  reflexivity.
Qed.

Lemma notOlder_timeOf a b :
  hasDate getTime a -> hasDate getTime b ->
  timeOf getTime b <= timeOf getTime a -> notOlder getTime a b.
Proof.
  unfold hasDate, notOlder, timeOf. intros Ha Hb H.
  destruct (getTime (CollectionRecord.collectedAt a)) as [ta|];
    [|contradiction].
  destruct (getTime (CollectionRecord.collectedAt b)) as [tb|];
    [|contradiction].
  exists ta, tb. auto.
Qed.

Lemma timeOf_notOlder a b :
  notOlder getTime a b -> timeOf getTime b <= timeOf getTime a.
Proof.
  unfold notOlder, timeOf. intros [ta [tb [-> [-> H]]]]. exact H.
Qed.

Lemma dated_sorted l :
  datesValid getTime l ->
  StronglySorted (fun a b => timeOf getTime b <= timeOf getTime a) l ->
  StronglySorted (notOlder getTime) l.
Proof.
  intros Hv Hs. induction Hs as [|a l Hs IH Hall]; [constructor|].
  inversion Hv as [|? ? Ha Hv']; subst.
  constructor; [apply IH; exact Hv'|].
  apply Forall_forall. intros b Hb.
  apply notOlder_timeOf; [exact Ha | |].
  - exact (proj1 (Forall_forall _ l) Hv' b Hb).
  - exact (proj1 (Forall_forall _ l) Hall b Hb).
Qed.

Lemma sorted_dated l :
  StronglySorted (notOlder getTime) l ->
  StronglySorted (fun a b => timeOf getTime b <= timeOf getTime a) l.
Proof.
  induction 1 as [|a l Hs IH Hall]; constructor; [exact IH|].
  apply Forall_forall. intros b Hb. apply timeOf_notOlder.
  exact (proj1 (Forall_forall _ l) Hall b Hb).
Qed.

(** When every record carries a date, sorting puts the latest first. *)
Lemma sortBy_dates l :
  datesValid getTime l -> StronglySorted (notOlder getTime) (sortBy cmp l).
Proof.
  intros Hv. apply dated_sorted.
  - apply (Permutation_Forall (Permutation_sym (sortBy_perm l))). exact Hv.
  - unfold sortBy.
    apply (sort_sorted CollectionRecord.t cmp (timeOf getTime)
             (hasDate getTime) compareFn_timeOf 0 l Hv).
Qed.

Lemma collectedAtTime_timeOf t c :
  hasDate getTime c ->
  collectedAtTime getTime t c = (timeOf getTime c =? t).
Proof.
  unfold hasDate, collectedAtTime, timeOf.
  destruct (getTime (CollectionRecord.collectedAt c)); [reflexivity|].
  intros H. contradiction.
Qed.

(** When every record carries a date, the records of one instant stand
    after the sort as they stood before it. *)
Lemma sortBy_same_instant t l :
  datesValid getTime l ->
  filter (collectedAtTime getTime t) (sortBy cmp l)
  = filter (collectedAtTime getTime t) l.
Proof.
  intros Hv.
  assert (Hv' : datesValid getTime (sortBy cmp l))
    by (apply (Permutation_Forall (Permutation_sym (sortBy_perm l)));
        exact Hv).
  rewrite (filter_ext_in (collectedAtTime getTime t)
                         (fun c => timeOf getTime c =? t) (sortBy cmp l))
    by (intros c Hc; apply collectedAtTime_timeOf;
        exact (proj1 (Forall_forall _ _) Hv' c Hc)).
  rewrite (filter_ext_in (collectedAtTime getTime t)
                         (fun c => timeOf getTime c =? t) l)
    by (intros c Hc; apply collectedAtTime_timeOf;
        exact (proj1 (Forall_forall _ _) Hv c Hc)).
  unfold sortBy.
  apply (sort_sorted CollectionRecord.t cmp (timeOf getTime)
           (hasDate getTime) compareFn_timeOf t l Hv).
Qed.

(** A dated list that is in order already is returned as it is. *)
Lemma sortBy_fixed l :
  datesValid getTime l -> StronglySorted (notOlder getTime) l ->
  sortBy cmp l = l.
Proof.
  intros Hv Hs. unfold sortBy.
  apply (sort_fixed CollectionRecord.t cmp (timeOf getTime)
           (hasDate getTime) compareFn_timeOf l Hv).
  apply sorted_dated. exact Hs.
Qed.

Lemma filter_both {A : Type} (p q : A -> bool) (l : list A) :
  filter q (filter p l) = filter (fun x => p x && q x) l.
Proof.
  induction l as [|x l IH]; simpl; [reflexivity|].
  destruct (p x); simpl; [destruct (q x)|]; rewrite IH; reflexivity.
Qed.

Lemma filter_true {A : Type} (l : list A) : filter (fun _ => true) l = l.
Proof. induction l as [|x l IH]; simpl; [|rewrite IH]; reflexivity. Qed.

(** The two filter steps amount to one filter by both tests. *)
Lemma applyFilters collections sf tf :
  applyTypeFilter tf (applyStatusFilter sf collections)
  = filter (fun c => statusMatches sf c && typeMatches tf c) collections.
Proof.
  destruct sf as [|s], tf as [|t]; simpl.
  - symmetry. apply filter_true.
  - reflexivity.
  - apply filter_ext. intros c. now rewrite andb_true_r.
  - apply filter_both.
Qed.

End FilteringFacts.

(** C8 fails as stated: one [collectedAt] that is not a date makes every
    comparison with it answer [NaN], read as 0, and the sort then leaves
    the three records where they are, the record of January before the
    record of May. *)
Lemma C8_unparsable_date_leaves_older_first :
  filteredCollections Runtime.getTime Sample.undated StatusAll TypeAll
  = [ Sample.entry "o1-credit" credit pending "2024-01-01";
      Sample.entry "o2-credit" credit pending "n/a";
      Sample.entry "o3-credit" credit pending "2024-05-01" ]
  /\ Runtime.getTime "2024-01-01" = Some 1704067200000
  /\ Runtime.getTime "n/a" = None
  /\ Runtime.getTime "2024-05-01" = Some 1714521600000
  /\ ~ StronglySorted (notOlder Runtime.getTime)
         (filteredCollections Runtime.getTime Sample.undated
                              StatusAll TypeAll).
Proof.
  assert (Hview :
    filteredCollections Runtime.getTime Sample.undated StatusAll TypeAll
    = [ Sample.entry "o1-credit" credit pending "2024-01-01";
        Sample.entry "o2-credit" credit pending "n/a";
        Sample.entry "o3-credit" credit pending "2024-05-01" ])
    by (vm_compute; reflexivity).
  rewrite Hview.
  split; [reflexivity|].
  split; [vm_compute; reflexivity|].
  split; [vm_compute; reflexivity|].
  split; [vm_compute; reflexivity|].
  intros H. inversion H as [|a l _ Hall]; subst.
  inversion Hall as [|b l' Hab _]; subst.
  destruct Hab as [ta [tb [_ [Hb _]]]].
  change (CollectionRecord.collectedAt
            (Sample.entry "o2-credit" credit pending "n/a"))
    with "n/a" in Hb.
  vm_compute in Hb. discriminate.
Qed.

(** C8, amended: the result of [filteredCollections] is a rearrangement
    of the records that pass the status test and the type test, each test
    being void when its filter is at its initial value ['all']; when every
    record of the result carries a [collectedAt] that is a date, the
    result is sorted by [collectedAt], latest first.  With status
    [pending] and type [cheque] over a dated list holding three pending
    credit, two pending cheque and one completed cheque record, the
    result is made of exactly the two pending cheque records, the later
    one first. *)
Theorem C8_sorted_when_dates_parse
  (getTime : string -> option Z) (collections : list CollectionRecord.t)
  (statusFilter : StatusFilter) (typeFilter : TypeFilter) :
  let result :=
    filteredCollections getTime collections statusFilter typeFilter in
  Permutation result
    (filter (fun c => statusMatches statusFilter c
                      && typeMatches typeFilter c) collections)
  /\ (forall c, In c result <->
                In c collections
                /\ statusMatches statusFilter c = true
                /\ typeMatches typeFilter c = true)
  /\ filteredCollections getTime collections
                         initialStatusFilter initialTypeFilter
     = sortBy (compareFn getTime) collections
  /\ (datesValid getTime result -> StronglySorted (notOlder getTime) result)
  /\ (statusFilter = StatusIs pending -> typeFilter = TypeIs cheque ->
      List.length (filter (isOf pending credit) collections) = 3%nat ->
      List.length (filter (isOf pending cheque) collections) = 2%nat ->
      List.length (filter (isOf complete cheque) collections) = 1%nat ->
      datesValid getTime result ->
      exists a b,
        result = [a; b]
        /\ Permutation [a; b] (filter (isOf pending cheque) collections)
        /\ notOlder getTime a b).
Proof.
  intros result.
  assert (Hperm : Permutation result
    (filter (fun c => statusMatches statusFilter c
                      && typeMatches typeFilter c) collections)).
  { unfold result, filteredCollections. rewrite <- applyFilters.
    apply sortBy_perm. }
  assert (Hsorted : datesValid getTime result ->
                    StronglySorted (notOlder getTime) result).
  { intros Hv. unfold result, filteredCollections in *.
    apply sortBy_dates.
    apply (Permutation_Forall (sortBy_perm getTime _)). exact Hv. }
  split; [exact Hperm|]. split; [|split; [|split]].
  - intros c. split.
    + intros Hin. apply (Permutation_in _ Hperm) in Hin.
      apply filter_In in Hin. destruct Hin as [Hin Hb].
      apply andb_true_iff in Hb. tauto.
    + intros [Hin [Hs Ht]]. apply (Permutation_in _ (Permutation_sym Hperm)).
      apply filter_In. split; [exact Hin|]. now rewrite Hs, Ht.
  - reflexivity.
  - exact Hsorted.
  - intros Hsf Htf _ Htwo _ Hv.
    assert (Hperm' : Permutation result
                       (filter (isOf pending cheque) collections)).
    { eapply perm_trans; [exact Hperm|]. subst statusFilter typeFilter.
      apply Permutation_refl. }
    pose proof (Permutation_length Hperm') as Hlen. rewrite Htwo in Hlen.
    pose proof (Hsorted Hv) as Hss.
    destruct result as [|a [|b [|c rest]]] eqn:E; try discriminate.
    exists a, b. split; [reflexivity|]. split; [exact Hperm'|].
    inversion Hss as [|? ? _ Hall]; subst.
    inversion Hall; assumption.
Qed.

(** C8, amended, at the sample worklist: the two pending cheque entries,
    17 May before 11 April. *)
Lemma C8_sorted_when_dates_parse_witness :
  filteredCollections Runtime.getTime Sample.worklist
                      (StatusIs pending) (TypeIs cheque)
  = [ Sample.entry "o5-cheque" cheque pending "2024-05-17";
      Sample.entry "o2-cheque" cheque pending "2024-04-11" ]
  /\ exists a b,
       filteredCollections Runtime.getTime Sample.worklist
                           (StatusIs pending) (TypeIs cheque) = [a; b]
       /\ Permutation [a; b] (filter (isOf pending cheque) Sample.worklist)
       /\ notOlder Runtime.getTime a b.
Proof.
  split; [vm_compute; reflexivity|].
  destruct (C8_sorted_when_dates_parse Runtime.getTime Sample.worklist
              (StatusIs pending) (TypeIs cheque))
    as [_ [_ [_ [_ H]]]].
  apply H; try reflexivity.
  repeat constructor; vm_compute; discriminate.
Defined.

(* ===================================================================== *)
(** ** Recognition *)
(* ===================================================================== *)

Section GrowsFacts.

Lemma grows_ret {A : Type} (a : A) : grows (ret a).
Proof. intros w. exists []. simpl. now rewrite app_nil_r. Qed.

Lemma grows_throw {A : Type} (e : Js.Error) : grows (@throw World A e).
Proof. intros w. exists []. simpl. now rewrite app_nil_r. Qed.

Lemma grows_gets {A : Type} (f : World -> A) : grows (gets f).
Proof. intros w. exists []. simpl. now rewrite app_nil_r. Qed.

Lemma grows_bind {A B : Type} (m : Eff World A) (k : A -> Eff World B) :
  grows m -> (forall a, grows (k a)) -> grows (bind m k).
Proof.
  intros Hm Hk w. unfold bind. destruct (Hm w) as [p1 H1].
  destruct (m w) as [[a|e] w1]; simpl in *.
  - destruct (Hk a w1) as [p2 H2]. exists (p1 ++ p2)%list.
    rewrite H2, H1, app_assoc. reflexivity.
  - exists p1. exact H1.
Qed.

Lemma grows_tryCatch {A : Type} (m : Eff World A)
  (h : Js.Error -> Eff World A) :
  grows m -> (forall e, grows (h e)) -> grows (tryCatch m h).
Proof.
  intros Hm Hh w. unfold tryCatch. destruct (Hm w) as [p1 H1].
  destruct (m w) as [[a|e] w1]; simpl in *.
  - exists p1. exact H1.
  - destruct (Hh e w1) as [p2 H2]. exists (p1 ++ p2)%list.
    rewrite H2, H1, app_assoc. reflexivity.
Qed.

Lemma grows_emit (e : Event) : grows (emit e).
Proof. intros w. exists [e]. reflexivity. Qed.

Lemma grows_setItem (j : Js.JSON) : grows (setItem j).
Proof. intros w. exists [CacheWrite j]. reflexivity. Qed.

Lemma grows_setCollections f : grows (setCollections f).
Proof. intros w. exists []. simpl. now rewrite app_nil_r. Qed.

Lemma grows_setSelectedCollection c : grows (setSelectedCollection c).
Proof. intros w. exists []. simpl. now rewrite app_nil_r. Qed.

Lemma grows_setVerificationNotes s : grows (setVerificationNotes s).
Proof. intros w. exists []. simpl. now rewrite app_nil_r. Qed.

End GrowsFacts.

Create HintDb grows.

#[local] Hint Resolve grows_ret grows_throw grows_gets grows_emit
  grows_setItem grows_setCollections grows_setSelectedCollection
  grows_setVerificationNotes : grows.

Ltac grows_step :=
  first [ apply grows_bind; [|intros ?]
        | apply grows_tryCatch; [|intros ?]
        | solve [auto with grows]
        | match goal with
          | |- grows (match ?x with _ => _ end) => destruct x
          | |- grows (if ?x then _ else _) => destruct x
          end ].

Section RecognitionFacts.

Variable toLocaleString : Z -> string.
Variable backend : string -> Patch -> string -> Response.
Variable refetchOutcome : option Js.Error.
Variable customers : list Customer.t.
Variable currentUser : option User.t.



Lemma grows_storeCompletion id : grows (storeCompletion id).
Proof. unfold storeCompletion. repeat grows_step. Qed.

Lemma grows_refetchData : grows (refetchData refetchOutcome).
Proof. unfold refetchData. repeat grows_step. Qed.

Lemma grows_afterStoreUpdates sel verification :
  grows (afterStoreUpdates toLocaleString refetchOutcome sel verification).
Proof.
  unfold afterStoreUpdates.
  repeat (grows_step || apply grows_storeCompletion
          || apply grows_refetchData).
Qed.

Lemma grows_onError e : grows (onError e).
Proof. unfold onError. repeat grows_step. Qed.

End RecognitionFacts.

Section HandlerRuns.

Variable toLocaleString : Z -> string.
Variable backend : string -> Patch -> string -> Response.
Variable refetchOutcome : option Js.Error.
Variable customers : list Customer.t.
Variable currentUser : option User.t.

Let handler :=
  handleRecognizeCollection toLocaleString backend refetchOutcome
                            customers currentUser.
Let orderPatch := updatedOrderData toLocaleString currentUser.

(** With a record selected, the handler is its [try]/[catch]. *)
Lemma run_handler w sel :
  selectedCollection w = Some sel ->
  handler w
  = tryCatch (recognize toLocaleString backend refetchOutcome customers
                        currentUser sel (verificationNotes w))
             onError w.
Proof.
  intros H. unfold handler, handleRecognizeCollection, bind, gets.
  rewrite H. reflexivity.
Qed.


Lemma run_recognize_accepted w sel v :
  backend "orders" (orderPatch sel v) (CollectionRecord.orderId sel)
  = Succeeded ->
  recognize toLocaleString backend refetchOutcome customers currentUser
            sel v w
  = bind (updateCustomer backend customers sel)
         (fun _ => afterStoreUpdates toLocaleString refetchOutcome sel v)
         (recorded (StoreUpdate "orders" (orderPatch sel v)
                                (CollectionRecord.orderId sel)) w).
Proof.
  intros H. unfold recognize, supabaseUpdate, orderPatch in *.
  unfold bind at 1 2 3. unfold emit, modify. rewrite H. reflexivity.
Qed.

(** An order update that comes back with an error, or is rejected, ends
    the [try] block right after the call. *)
Lemma run_recognize_refused w sel v e :
  backend "orders" (orderPatch sel v) (CollectionRecord.orderId sel)
  = ErrorReturned e
  \/ backend "orders" (orderPatch sel v) (CollectionRecord.orderId sel)
     = Rejected e ->
  recognize toLocaleString backend refetchOutcome customers currentUser
            sel v w
  = (Thrown e,
     recorded (StoreUpdate "orders" (orderPatch sel v)
                           (CollectionRecord.orderId sel)) w).
Proof.
  intros H. unfold recognize, supabaseUpdate, orderPatch in *.
  unfold bind at 1 2 3. unfold emit, modify.
  destruct H as [H|H]; rewrite H; reflexivity.
Qed.

(** The customer update, when the customer is found: the call is recorded
    and only a rejection stops what follows; an error object in the
    answer is dropped. *)
Lemma run_updateCustomer_found w sel c :
  Js.find (fun c => String.eqb (Customer.id c)
                               (CollectionRecord.customerId sel))
          customers = Some c ->
  let patch :=
    [("outstandingbalance",
      FNum (newOutstandingBalance c (CollectionRecord.amount sel)))] in
  let w' := recorded (StoreUpdate "customers" patch
                                  (CollectionRecord.customerId sel)) w in
  updateCustomer backend customers sel w
  = match backend "customers" patch (CollectionRecord.customerId sel) with
    | Rejected e => (Thrown e, w')
    | _ => (Returned tt, w')
    end.
Proof.
  intros H. unfold updateCustomer. rewrite H.
  unfold supabaseUpdate, bind, emit, modify. simpl.
  destruct (backend "customers" _ _); reflexivity.
Qed.

(** A refused order update aborts the recognition: the error is logged,
    the failure notice is shown once, and nothing else happens. *)
Lemma orders_error_aborts w sel e :
  selectedCollection w = Some sel ->
  backend "orders" (orderPatch sel (verificationNotes w))
          (CollectionRecord.orderId sel) = ErrorReturned e
  \/ backend "orders" (orderPatch sel (verificationNotes w))
             (CollectionRecord.orderId sel) = Rejected e ->
  handler w
  = (Returned tt,
     mkWorld (localStorage w) (collections w) (selectedCollection w)
             (verificationNotes w)
             (trace w
              ++ [StoreUpdate "orders" (orderPatch sel (verificationNotes w))
                              (CollectionRecord.orderId sel);
                  ConsoleError e;
                  Alert FAILED_NOTICE])).
Proof.
  intros Hsel Hresp. rewrite (run_handler w sel Hsel).
  unfold tryCatch. rewrite (run_recognize_refused w sel _ e Hresp).
  unfold onError, bind, emit, modify, recorded. simpl.
  rewrite <- !app_assoc. reflexivity.
Qed.

(** After an accepted order update and with the customer at hand, the
    trace goes on with the two store calls. *)
Lemma trace_two_updates w sel c :
  selectedCollection w = Some sel ->
  backend "orders" (orderPatch sel (verificationNotes w))
          (CollectionRecord.orderId sel) = Succeeded ->
  Js.find (fun c => String.eqb (Customer.id c)
                               (CollectionRecord.customerId sel))
          customers = Some c ->
  exists post,
    trace (snd (handler w))
    = (trace w
       ++ [StoreUpdate "orders" (orderPatch sel (verificationNotes w))
                       (CollectionRecord.orderId sel);
           StoreUpdate "customers"
             [("outstandingbalance",
               FNum (newOutstandingBalance c (CollectionRecord.amount sel)))]
             (CollectionRecord.customerId sel)]
       ++ post)%list.
Proof.
  intros Hsel Hok Hfind.
  set (e1 := StoreUpdate "orders" (orderPatch sel (verificationNotes w))
                         (CollectionRecord.orderId sel)).
  set (p2 := [("outstandingbalance",
               FNum (newOutstandingBalance c (CollectionRecord.amount sel)))]).
  set (e2 := StoreUpdate "customers" p2 (CollectionRecord.customerId sel)).
  set (rest :=
         match backend "customers" p2 (CollectionRecord.customerId sel) with
         | Rejected e => throw e
         | _ => afterStoreUpdates toLocaleString refetchOutcome sel
                                  (verificationNotes w)
         end).
  assert (Hrun : handler w
                 = tryCatch rest onError (recorded e2 (recorded e1 w))).
  { rewrite (run_handler w sel Hsel). unfold tryCatch.
    rewrite (run_recognize_accepted w sel _ Hok). unfold bind at 1.
    rewrite (run_updateCustomer_found _ sel c Hfind).
    unfold rest, e2, p2, e1.
    destruct (backend "customers" _ _); reflexivity. }
  assert (Hgrows : grows (tryCatch rest onError)).
  { apply grows_tryCatch; [|intros e; apply grows_onError].
    unfold rest. destruct (backend "customers" _ _);
      try apply grows_afterStoreUpdates; apply grows_throw. }
  destruct (Hgrows (recorded e2 (recorded e1 w))) as [post Hpost].
  exists post. rewrite Hrun, Hpost. simpl. rewrite <- !app_assoc.
  reflexivity.
Qed.

End HandlerRuns.

(** C2, as the code runs it: the order update is accepted and the customer
    update comes back with an error object.  The handler does not look at
    that answer: it goes on to write the cache, flip the record, reload
    and show the success notice; nothing is logged and no failure notice
    is shown.  The refused order update, in contrast, aborts. *)
Theorem C2_customer_error_not_detected :
  Sample.customersDenied "customers" [("outstandingbalance", FNum 0)] "c1"
  = ErrorReturned (Js.StoreError "permission denied")
  /\ handleRecognizeCollection Runtime.toLocaleString Sample.customersDenied
       None Sample.customers (Some Sample.asha) Sample.emptyWorld
     = (Returned tt,
        mkWorld
          (Some (Js.JArr [Js.JStr "o1-credit"]))
          [CollectionRecord.mk "o1-credit" "o1" "c1" "Perera Stores" credit
                               100 "Ravi" "2024-05-01" complete (Some "")]
          None
          ""
          [StoreUpdate "orders"
             [("notes", FStr "CREDIT collection of LKR 100 completed by Asha. ");
              ("creditbalance", FNum 0)] "o1";
           StoreUpdate "customers" [("outstandingbalance", FNum 0)] "c1";
           CacheWrite (Js.JArr [Js.JStr "o1-credit"]);
           RefetchData;
           Alert "CREDIT collection of LKR 100 has been completed and all outstanding amounts updated!"])
  /\ handleRecognizeCollection Runtime.toLocaleString Sample.ordersDenied
       None Sample.customers (Some Sample.asha) Sample.emptyWorld
     = (Returned tt,
        mkWorld None [Sample.order1Credit] (Some Sample.order1Credit) ""
          [StoreUpdate "orders"
             [("notes", FStr "CREDIT collection of LKR 100 completed by Asha. ");
              ("creditbalance", FNum 0)] "o1";
           ConsoleError (Js.StoreError "permission denied");
           Alert FAILED_NOTICE]).
Proof. repeat split; vm_compute; reflexivity. Qed.

Lemma numOr_zero (n : option Z) :
  Js.numOr n 0 = match n with Some b => b | None => 0 end.
Proof.
  destruct n as [z|]; simpl; [|reflexivity].
  destruct (Z.eqb_spec z 0); congruence.
Qed.

Lemma newOutstandingBalance_max (c : Customer.t) (amount : Z) :
  newOutstandingBalance c amount = Z.max 0 (balanceOf c - amount).
Proof.
  unfold newOutstandingBalance, Js.mathMax0, balanceOf.
  rewrite numOr_zero. reflexivity.
Qed.

(** C6: when the order update is accepted and the customer of the selected
    record is in the customer list with outstanding balance [B] (absent:
    0), the handler's next store call writes
    [outstandingbalance = max(0, B - A)] to that customer, [A] being the
    record's amount; the value is never negative, and it is 0 for
    [B = 50], [A = 80]. *)
Theorem C6_new_outstanding_balance
  (toLocaleString : Z -> string)
  (backend : string -> Patch -> string -> Response)
  (refetchOutcome : option Js.Error) (customers : list Customer.t)
  (currentUser : option User.t) (w : World)
  (sel : CollectionRecord.t) (c : Customer.t) :
  selectedCollection w = Some sel ->
  backend "orders"
          (updatedOrderData toLocaleString currentUser sel
                            (verificationNotes w))
          (CollectionRecord.orderId sel) = Succeeded ->
  Js.find (fun c => String.eqb (Customer.id c)
                               (CollectionRecord.customerId sel))
          customers = Some c ->
  let A := CollectionRecord.amount sel in
  let B := balanceOf c in
  (exists post,
     trace (snd (handleRecognizeCollection toLocaleString backend
                   refetchOutcome customers currentUser w))
     = (trace w
        ++ [StoreUpdate "orders"
              (updatedOrderData toLocaleString currentUser sel
                                (verificationNotes w))
              (CollectionRecord.orderId sel);
            StoreUpdate "customers"
              [("outstandingbalance", FNum (Z.max 0 (B - A)))]
              (CollectionRecord.customerId sel)]
        ++ post)%list)
  /\ 0 <= Z.max 0 (B - A)
  /\ (B = 50 -> A = 80 -> Z.max 0 (B - A) = 0).
Proof.
  intros Hsel Hok Hfind A B. split; [|split].
  - destruct (trace_two_updates toLocaleString backend refetchOutcome
                customers currentUser w sel c Hsel Hok Hfind) as [post H].
    exists post. rewrite H. rewrite newOutstandingBalance_max. reflexivity.
  - lia.
  - intros -> ->. reflexivity.
Qed.

(** C6 at the sample data: 80 recognised against a customer owing 50. *)
Lemma C6_new_outstanding_balance_witness :
  exists post,
    trace (snd (handleRecognizeCollection Runtime.toLocaleString
                  Sample.acceptAll None Sample.customers (Some Sample.asha)
                  Sample.world80))
    = ([StoreUpdate "orders"
          (updatedOrderData Runtime.toLocaleString (Some Sample.asha)
                            Sample.credit80 "cash counted") "o4";
        StoreUpdate "customers" [("outstandingbalance", FNum 0)] "c1"]
       ++ post)%list.
Proof.
  destruct (C6_new_outstanding_balance Runtime.toLocaleString
              Sample.acceptAll None Sample.customers (Some Sample.asha)
              Sample.world80 Sample.credit80 Sample.perera
              eq_refl eq_refl eq_refl) as [[post H] _].
  exists post. exact H.
Defined.

(* ===================================================================== *)
(** ** The order update and its audit note *)
(* ===================================================================== *)



Lemma includes_empty (s : string) : Js.includes s "" = true.
Proof. destruct s; reflexivity. Qed.



Section AuditNote.

Variable toLocaleString : Z -> string.
Variable currentUser : option User.t.






End AuditNote.



(** C10 fails as stated: with the verification notes spelling the token,
    the audit string written to the order's notes contains it, and the
    next derivation over the reloaded order marks its cheque record
    complete through the notes marker. *)
Lemma C10_notes_may_spell_the_marker :
  auditNote Runtime.toLocaleString (Some Sample.asha) Sample.order1Credit
            Sample.tokenNotes = Sample.tokenAudit
  /\ Js.includes Sample.tokenAudit COLLECTION_COMPLETED = true
  /\ isCollectionCompleted Sample.order1Reloaded = true
  /\ map (fun r => (CollectionRecord.id r, CollectionRecord.status r))
         (contribution Sample.today Sample.customers Sample.users
                       (Some Sample.asha) [] Sample.order1Reloaded)
     = [("o1-cheque", complete)].
Proof. repeat split; vm_compute; reflexivity. Qed.

Ltac split_at c :=
  rewrite (includes_split c) by (first [reflexivity | discriminate]).

(** C10, amended: the fixed text of the audit string never brings in the
    token.  When the formatted amount, the actor's name and the
    verification notes are free of it, the audit string is free of it,
    and an order carrying that audit string as its notes does not fire
    the notes marker in a later derivation. *)
Theorem C10_template_adds_no_marker
  (toLocaleString : Z -> string) (currentUser : option User.t)
  (sel : CollectionRecord.t) (verification : string) :
  Js.includes (toLocaleString (CollectionRecord.amount sel))
              COLLECTION_COMPLETED = false ->
  Js.includes (actorName currentUser) COLLECTION_COMPLETED = false ->
  Js.includes verification COLLECTION_COMPLETED = false ->
  Js.includes (auditNote toLocaleString currentUser sel verification)
              COLLECTION_COMPLETED = false
  /\ forall order,
       Order.notes order
       = Some (auditNote toLocaleString currentUser sel verification) ->
       isCollectionCompleted order = false.
Proof.
  intros Hamount Hactor Hnotes.
  assert (Haudit :
    Js.includes (auditNote toLocaleString currentUser sel verification)
                COLLECTION_COMPLETED = false).
  { unfold COLLECTION_COMPLETED in *.
    assert (Hsuffix : Js.includes
              (String " " (notesSuffix verification))
              "COLLECTION_COMPLETED" = false).
    { unfold notesSuffix. destruct verification as [|ch v]; [reflexivity|].
      change (String " " ("Notes: " ++ String ch v))
        with ("" ++ String " " ("Notes:" ++ String " " (String ch v))).
      repeat split_at " "%char. rewrite Hnotes. reflexivity. }
    assert (Htail : Js.includes
              (actorName currentUser
               ++ String "." (String " " (notesSuffix verification)))
              "COLLECTION_COMPLETED" = false).
    { split_at "."%char. rewrite Hactor, Hsuffix. reflexivity. }
    change (auditNote toLocaleString currentUser sel verification)
      with (typeNameUpper (CollectionRecord.collectionType sel)
            ++ String " "
                 ("collection" ++ String " "
                    ("of" ++ String " "
                       ("LKR" ++ String " "
                          (toLocaleString (CollectionRecord.amount sel)
                           ++ String " "
                                ("completed" ++ String " "
                                   ("by" ++ String " "
                                      (actorName currentUser
                                       ++ String "."
                                            (String " "
                                               (notesSuffix verification)
          ))))))))).
    repeat split_at " "%char.
    rewrite Hamount, Htail.
    destruct (CollectionRecord.collectionType sel); reflexivity. }
  split; [exact Haudit|].
  intros order Hn. unfold isCollectionCompleted. rewrite Hn.
  destruct (auditNote toLocaleString currentUser sel verification);
    [reflexivity | exact Haudit].
Qed.

(** C10, amended, at the sample data. *)
Lemma C10_template_adds_no_marker_witness :
  Js.includes (auditNote Runtime.toLocaleString (Some Sample.asha)
                         Sample.credit80 "cash counted")
              COLLECTION_COMPLETED = false.
Proof.
  destruct (C10_template_adds_no_marker Runtime.toLocaleString
              (Some Sample.asha) Sample.credit80 "cash counted"
              eq_refl eq_refl eq_refl) as [H _].
  exact H.
Defined.

(* ===================================================================== *)
(** ** The exporter *)
(* ===================================================================== *)

Section ExporterFacts.

Variable csvWriteBuffer : Exporter.Workbook -> Js.Error + Exporter.Buffer.
Variable xlsxWriteBuffer : Exporter.Workbook -> Js.Error + Exporter.Buffer.
Variable worksheetName : Exporter.Workbook -> string -> Exporter.NameOutcome.

Let export :=
  Exporter.exportData csvWriteBuffer xlsxWriteBuffer worksheetName.

(** The rows [addRows] writes are the rows of the specification. *)
Lemma rowOf_keys (ks : list string) (r : Exporter.ExportRecord) :
  Exporter.rowOf (map (fun k => Exporter.mkColumn k k 20) ks) r
  = map (fun k => Exporter.valueOf k r) ks.
Proof. unfold Exporter.rowOf. rewrite map_map. reflexivity. Qed.

Lemma header_keys (ks : list string) :
  Exporter.headerRows (map (fun k => Exporter.mkColumn k k 20) ks)
  = match ks with
    | [] => []
    | _ :: _ => [map (fun k => Some (Exporter.CText k)) ks]
    end.
Proof.
  destruct ks as [|k ks]; [reflexivity|].
  unfold Exporter.headerRows. cbn [map]. rewrite map_map. reflexivity.
Qed.

(** The run of the exporter over a non-empty list, for both formats, when
    the library takes the sheet name. *)
Lemma run_export first rest filename format sheetName stored warned w :
  worksheetName [] sheetName = Exporter.NameStored stored warned ->
  export (Some (first :: rest)) filename format sheetName w
  = (Returned tt,
     Exporter.mkWorld
       [worksheetBySpec stored first rest]
       (Exporter.events w
        ++ nameWarning sheetName warned
        ++ encodeAndSave csvWriteBuffer xlsxWriteBuffer
             [worksheetBySpec stored first rest] filename format
             (S (List.length rest)))).
Proof.
  intros Hname.
  assert (Hsheet :
    Exporter.mkWorksheet stored
      (map (fun k => Exporter.mkColumn k k 20) (Exporter.keys first))
      (Exporter.headerRows
         (map (fun k => Exporter.mkColumn k k 20) (Exporter.keys first))
       ++ map (Exporter.rowOf
                 (map (fun k => Exporter.mkColumn k k 20)
                      (Exporter.keys first)))
              (first :: rest))%list
    = worksheetBySpec stored first rest).
  { unfold worksheetBySpec. rewrite header_keys.
    rewrite (map_ext _ _ (rowOf_keys (Exporter.keys first))).
    reflexivity. }
  unfold export, Exporter.exportData.
  unfold Exporter.addWorksheet, Exporter.writeBuffer.
  unfold tryCatch, bind, Exporter.newWorkbook,
    Exporter.setColumns, Exporter.addRows,
    Exporter.emit, modify, gets, ret, throw.
  cbn [Exporter.workbook Exporter.events fst snd].
  rewrite Hname. unfold nameWarning.
  destruct warned;
    cbn [Exporter.workbook Exporter.events List.length Nat.ltb Nat.leb
         Exporter.updateSheet Exporter.name Exporter.columns Exporter.rows
         fst snd app];
    rewrite Hsheet; unfold encodeAndSave;
    destruct format; cbn -[worksheetBySpec].
  - destruct (csvWriteBuffer _); cbn -[worksheetBySpec];
      rewrite <- ?app_assoc; reflexivity.
  - destruct (xlsxWriteBuffer _); cbn -[worksheetBySpec];
      rewrite <- ?app_assoc; reflexivity.
  - destruct (csvWriteBuffer _); cbn -[worksheetBySpec];
      rewrite <- ?app_assoc; reflexivity.
  - destruct (xlsxWriteBuffer _); cbn -[worksheetBySpec];
      rewrite <- ?app_assoc; reflexivity.
Qed.

(** The run of the exporter over a non-empty list when the library
    refuses the sheet name: whatever the format, no worksheet, the error
    on the console and the notice of the failure. *)
Lemma run_export_refused first rest filename format sheetName e w :
  worksheetName [] sheetName = Exporter.NameRejected e ->
  export (Some (first :: rest)) filename format sheetName w
  = (Returned tt,
     Exporter.mkWorld
       []
       (Exporter.events w
        ++ [Exporter.ConsoleError e;
            Exporter.Alert "Export failed. Please try again."])).
Proof.
  intros Hname.
  unfold export, Exporter.exportData.
  unfold Exporter.addWorksheet.
  unfold tryCatch, bind, Exporter.newWorkbook,
    Exporter.emit, modify, gets, ret, throw.
  cbn [Exporter.workbook Exporter.events fst snd].
  rewrite Hname. cbn. rewrite <- app_assoc. reflexivity.
Qed.

End ExporterFacts.

(** C7: for an absent list and for an empty list, whatever the format, the
    exporter returns after the single notice "No data to export": the
    workbook is untouched, nothing is encoded and no [saveAs] event is
    recorded. *)
Theorem C7_empty_input_fails_fast
  (csvWriteBuffer xlsxWriteBuffer
     : Exporter.Workbook -> Js.Error + Exporter.Buffer)
  (worksheetName : Exporter.Workbook -> string -> Exporter.NameOutcome)
  (filename : string) (format : Exporter.ExportFormat)
  (sheetName : string) (w : Exporter.World) :
  let absent :=
    Exporter.exportData csvWriteBuffer xlsxWriteBuffer worksheetName None
                        filename format sheetName w in
  let empty :=
    Exporter.exportData csvWriteBuffer xlsxWriteBuffer worksheetName
                        (Some []) filename format sheetName w in
  let noticed :=
    (Returned tt,
     Exporter.mkWorld
       (Exporter.workbook w)
       (Exporter.events w ++ [Exporter.Alert "No data to export"])) in
  absent = noticed
  /\ empty = noticed
  /\ filter isSaveAs (Exporter.events (snd absent))
     = filter isSaveAs (Exporter.events w)
  /\ filter isSaveAs (Exporter.events (snd empty))
     = filter isSaveAs (Exporter.events w).
Proof.
  cbv zeta. repeat split; cbn; rewrite filter_app, app_nil_r; reflexivity.
Qed.

(** C9 fails as stated on a sheet name the workbook library refuses: for
    the rows of two orders and the sheet name [a/b], in either format, no
    worksheet is built, the library's error goes to the console, the
    notice of the failure is shown and nothing is saved. *)
Lemma C9_refused_sheet_name_builds_no_worksheet :
  Exporter.exportData Sample.csvEncoder Sample.xlsxEncoder
    Runtime.worksheetName (Some Sample.exportRows) "orders_2024-05-20"
    Exporter.csv "a/b" Sample.blankExport
  = (Returned tt,
     Exporter.mkWorld
       []
       [Exporter.ConsoleError
          (Js.LibraryError "character refused in a worksheet name");
        Exporter.Alert "Export failed. Please try again."])
  /\ Exporter.exportData Sample.csvEncoder Sample.xlsxEncoder
       Runtime.worksheetName (Some Sample.exportRows) "orders_2024-05-20"
       Exporter.xlsx "a/b" Sample.blankExport
     = (Returned tt,
        Exporter.mkWorld
          []
          [Exporter.ConsoleError
             (Js.LibraryError "character refused in a worksheet name");
           Exporter.Alert "Export failed. Please try again."]).
Proof. split; vm_compute; reflexivity. Qed.

(** C9, amended: for a non-empty list and a sheet name the workbook
    library takes, whatever the format, the exporter builds the one
    worksheet of the specification under the name the library stores
    (columns in the order of the first record's keys, width 20, header
    row, one row per record by column key) and hands that workbook to the
    encode-and-save step, which alone depends on the format; for a sheet
    name the library refuses, whatever the format, no worksheet is built,
    the error is logged, the notice of the failure shown and nothing
    saved. *)
Theorem C9_same_worksheet_for_accepted_names
  (csvWriteBuffer xlsxWriteBuffer
     : Exporter.Workbook -> Js.Error + Exporter.Buffer)
  (worksheetName : Exporter.Workbook -> string -> Exporter.NameOutcome)
  (first : Exporter.ExportRecord) (rest : list Exporter.ExportRecord)
  (filename sheetName : string) (w : Exporter.World) :
  let run format :=
    snd (Exporter.exportData csvWriteBuffer xlsxWriteBuffer worksheetName
           (Some (first :: rest)) filename format sheetName w) in
  (forall stored warned,
     worksheetName [] sheetName = Exporter.NameStored stored warned ->
     let sheet := worksheetBySpec stored first rest in
     (forall format,
        Exporter.workbook (run format) = [sheet]
        /\ Exporter.events (run format)
           = (Exporter.events w
              ++ nameWarning sheetName warned
              ++ encodeAndSave csvWriteBuffer xlsxWriteBuffer [sheet]
                   filename format (List.length (first :: rest)))%list)
     /\ map Exporter.header (Exporter.columns sheet) = Exporter.keys first
     /\ map Exporter.key (Exporter.columns sheet) = Exporter.keys first
     /\ Forall (fun c => Exporter.width c = 20) (Exporter.columns sheet)
     /\ (Exporter.keys first <> [] ->
         List.length (Exporter.rows sheet)
         = S (List.length (first :: rest))))
  /\ (forall e,
        worksheetName [] sheetName = Exporter.NameRejected e ->
        forall format,
          Exporter.workbook (run format) = []
          /\ Exporter.events (run format)
             = (Exporter.events w
                ++ [Exporter.ConsoleError e;
                    Exporter.Alert "Export failed. Please try again."])%list)
  /\ Exporter.workbook (run Exporter.csv)
     = Exporter.workbook (run Exporter.xlsx).
Proof.
  intros run. split; [|split].
  - intros stored warned Hname sheet. split; [|split; [|split; [|split]]].
    + intros format. unfold run.
      rewrite (run_export _ _ _ _ _ _ _ _ _ _ _ Hname).
      split; reflexivity.
    + unfold sheet, worksheetBySpec. simpl. rewrite map_map. apply map_id.
    + unfold sheet, worksheetBySpec. simpl. rewrite map_map. apply map_id.
    + unfold sheet, worksheetBySpec. simpl. apply Forall_map.
      apply Forall_forall. reflexivity.
    + intros Hkeys. unfold sheet, worksheetBySpec.
      cbn [Exporter.rows]. destruct (Exporter.keys first);
        [contradiction|].
      rewrite length_app, length_map. reflexivity.
  - intros e Hname format. unfold run.
    rewrite (run_export_refused _ _ _ _ _ _ _ _ _ _ Hname).
    split; reflexivity.
  - unfold run.
    destruct (worksheetName [] sheetName) as [e|stored warned] eqn:Hname.
    + rewrite !(run_export_refused _ _ _ _ _ _ _ _ _ _ Hname). reflexivity.
    + rewrite !(run_export _ _ _ _ _ _ _ _ _ _ _ Hname). reflexivity.
Qed.

Lemma C9_same_worksheet_for_accepted_names_witness :
  Exporter.workbook
    (snd (Exporter.exportData Sample.csvEncoder Sample.xlsxEncoder
            Runtime.worksheetName (Some Sample.customerRows)
            "customers_2024-05-20" Exporter.xlsx "Customers"
            Sample.blankExport))
  = [Exporter.mkWorksheet "Customers"
       [Exporter.mkColumn "Customer ID" "Customer ID" 20;
        Exporter.mkColumn "Email" "Email" 20;
        Exporter.mkColumn "Total Spent" "Total Spent" 20]
       [[Some (Exporter.CText "Customer ID");
         Some (Exporter.CText "Email");
         Some (Exporter.CText "Total Spent")];
        [Some (Exporter.CText "c1"); None; Some (Exporter.CNumber 900)];
        [Some (Exporter.CText "c2");
         Some (Exporter.CText "silva@example.com");
         Some (Exporter.CNumber 40)]]].
Proof.
  destruct (C9_same_worksheet_for_accepted_names
              Sample.csvEncoder Sample.xlsxEncoder Runtime.worksheetName
              [("Customer ID", Some (Exporter.CText "c1")); ("Email", None);
               ("Total Spent", Some (Exporter.CNumber 900))]
              [[("Customer ID", Some (Exporter.CText "c2"));
                ("Email", Some (Exporter.CText "silva@example.com"));
                ("Total Spent", Some (Exporter.CNumber 40))]]
              "customers_2024-05-20" "Customers" Sample.blankExport)
    as [H _].
  destruct (H "Customers" false eq_refl) as [Hrun _].
  exact (proj1 (Hrun Exporter.xlsx)).
Defined.

Example export_sample :
  Exporter.exportData Sample.csvEncoder Sample.xlsxEncoder
    Runtime.worksheetName
    (Some Sample.exportRows) "orders_2024-05-20" Exporter.csv "Orders"
    Sample.blankExport
  = (Returned tt,
     Exporter.mkWorld
       [Exporter.mkWorksheet "Orders"
          [Exporter.mkColumn "Order ID" "Order ID" 20;
           Exporter.mkColumn "Total Amount" "Total Amount" 20;
           Exporter.mkColumn "Notes" "Notes" 20]
          [[Some (Exporter.CText "Order ID");
            Some (Exporter.CText "Total Amount");
            Some (Exporter.CText "Notes")];
           [Some (Exporter.CText "o1"); Some (Exporter.CNumber 100);
            Some (Exporter.CText "paid")];
           [Some (Exporter.CText "o2"); Some (Exporter.CNumber 70); None]]]
       [Exporter.SaveAs (Exporter.mkBlob "csv:1" Exporter.CSV_MIME)
                        "orders_2024-05-20.csv";
        Exporter.ConsoleLog 2 "CSV"]).
Proof. vm_compute. reflexivity. Qed.

(* ===================================================================== *)
(** ** Further properties of the derivation *)
(* ===================================================================== *)

Lemma findCustomer_some customers order c :
  findCustomer customers order = Some c ->
  In c customers /\ Customer.id c = Order.customerId order.
Proof.
  intros H. apply find_some in H. destruct H as [Hin Heq].
  split; [exact Hin|]. apply String.eqb_eq. exact Heq.
Qed.

(** The records one balance gives rise to, spelled out. *)
Lemma emitted_cases today ids order c u t b :
  emitted today ids order c u t b
  = match b with
    | Some z => if 0 <? z then [makeRecord today ids order c u t z] else []
    | None => []
    end.
Proof.
  unfold emitted, pushIfPositive. destruct b as [z|]; [|reflexivity].
  destruct (0 <? z); reflexivity.
Qed.

Lemma in_emitted today ids order c u t b r :
  In r (emitted today ids order c u t b) ->
  exists z, b = Some z /\ 0 < z /\ r = makeRecord today ids order c u t z.
Proof.
  rewrite emitted_cases. destruct b as [z|]; [|intros []].
  destruct (0 <? z) eqn:E; [|intros []].
  intros [<-|[]]. exists z. apply Z.ltb_lt in E. auto.
Qed.

(** Where a record of an order's contribution comes from. *)
Lemma in_contribution today customers users currentUser ids order r :
  In r (contribution today customers users currentUser ids order) ->
  exists c u t z,
    findCustomer customers order = Some c
    /\ findCollectedBy users currentUser order = Some u
    /\ balanceFor order t = Some z /\ 0 < z
    /\ r = makeRecord today ids order c u t z.
Proof.
  intros Hin.
  destruct (findCustomer customers order) as [c|] eqn:Hc.
  - destruct (findCollectedBy users currentUser order) as [u|] eqn:Hu.
    + rewrite (contribution_resolved today customers users currentUser ids
                 order c u Hc Hu) in Hin.
      apply in_app_or in Hin.
      destruct Hin as [Hin|Hin]; apply in_emitted in Hin;
        destruct Hin as [z [Hb [Hz ->]]].
      * exists c, u, credit, z. auto.
      * exists c, u, cheque, z. auto.
    + rewrite (contribution_skipped today customers users currentUser ids
                 order) in Hin by (right; exact Hu).
      destruct Hin.
  - rewrite (contribution_skipped today customers users currentUser ids
               order) in Hin by (left; exact Hc).
    destruct Hin.
Qed.

Lemma derived_inr today customers users currentUser item orders rs :
  derivedRecords
    (deriveCollections today customers users currentUser item orders)
  = inr rs ->
  exists ids,
    completedIdsOf (readCompletedCollections item) = inr ids
    /\ rs = flat_map (contribution today customers users currentUser ids)
                     orders.
Proof.
  rewrite derivedRecords_deriveCollections.
  destruct (completedIdsOf (readCompletedCollections item)) as [e|ids];
    [discriminate|].
  intros H. injection H as <-. exists ids. auto.
Qed.

(** Every entry of a derived worklist stems from one of the orders: that
    order's customer and collector are resolved, the entry carries the
    order's id and customer id, its id is the order id followed by its
    type, its amount is the order's balance of that type and is positive,
    and its collector is the resolved user. *)
Theorem derived_record_has_positive_balance
  (today : string) (customers : list Customer.t) (users : list User.t)
  (currentUser : option User.t) (item : option Js.JSON)
  (orders : list Order.t) (rs : list CollectionRecord.t)
  (r : CollectionRecord.t) :
  derivedRecords
    (deriveCollections today customers users currentUser item orders)
  = inr rs ->
  In r rs ->
  exists order c u,
    In order orders
    /\ findCustomer customers order = Some c
    /\ findCollectedBy users currentUser order = Some u
    /\ CollectionRecord.orderId r = Order.id order
    /\ CollectionRecord.customerId r = Customer.id c
    /\ CollectionRecord.id r
       = Order.id order ++ "-" ++ typeName (CollectionRecord.collectionType r)
    /\ balanceFor order (CollectionRecord.collectionType r)
       = Some (CollectionRecord.amount r)
    /\ 0 < CollectionRecord.amount r
    /\ CollectionRecord.collectedBy r = User.name u.
Proof.
  intros Hrs Hin. apply derived_inr in Hrs. destruct Hrs as [ids [_ ->]].
  apply in_flat_map in Hin. destruct Hin as [order [Ho Hin]].
  apply in_contribution in Hin.
  destruct Hin as [c [u [t [z [Hc [Hu [Hb [Hz ->]]]]]]]].
  exists order, c, u. simpl.
  destruct (findCustomer_some customers order c Hc) as [_ Hid].
  repeat split; auto.
Qed.

Lemma derived_record_has_positive_balance_witness :
  exists order c u,
    In order [Sample.orphan; Sample.order1]
    /\ findCustomer Sample.customers order = Some c
    /\ findCollectedBy Sample.users (Some Sample.asha) order = Some u
    /\ CollectionRecord.orderId Sample.order1Credit = Order.id order
    /\ 0 < CollectionRecord.amount Sample.order1Credit.
Proof.
  destruct (derived_record_has_positive_balance Sample.today
              Sample.customers Sample.users (Some Sample.asha) None
              [Sample.orphan; Sample.order1] [Sample.order1Credit]
              Sample.order1Credit eq_refl (or_introl eq_refl))
    as [order [c [u [H1 [H2 [H3 [H4 [_ [_ [_ [H8 _]]]]]]]]]]].
  exists order, c, u. repeat split; assumption.
Defined.

(** Reading the cache fails exactly when it is not an array or holds a
    [null] entry. *)
Lemma mapThrowing_getId items :
  forallb (fun e => negb (isNull e)) items = true ->
  exists ids, Js.mapThrowing Js.getId items = inr ids.
Proof.
  induction items as [|j items IH]; simpl; intros H; [eexists; reflexivity|].
  apply andb_true_iff in H. destruct H as [Hj Hrest].
  destruct (IH Hrest) as [ids Hids]. rewrite Hids.
  destruct j; simpl in *; try discriminate; eexists; reflexivity.
Qed.

Lemma mapThrowing_getId_null items :
  forallb (fun e => negb (isNull e)) items = false ->
  Js.mapThrowing Js.getId items = inl Js.TypeError.
Proof.
  induction items as [|j items IH]; simpl; intros H; [discriminate|].
  apply andb_false_iff in H.
  destruct j; simpl in *;
    try reflexivity;
    (destruct H as [H|H]; [discriminate|]; rewrite (IH H); reflexivity).
Qed.

Lemma cacheReadable_inr j :
  cacheReadable j = true -> exists ids, completedIdsOf j = inr ids.
Proof.
  destruct j; simpl; try discriminate. apply mapThrowing_getId.
Qed.

Lemma cacheUnreadable_inl j :
  cacheReadable j = false -> completedIdsOf j = inl Js.TypeError.
Proof.
  destruct j; simpl; try reflexivity. apply mapThrowing_getId_null.
Qed.

(** Conversely, an order of the pass whose customer and collector are
    resolved and whose balance of some type is positive has its entry in
    the worklist, provided the cache can be read: the entry's id is the
    order id followed by the type and its amount is that balance. *)
Theorem positive_balance_is_derived
  (today : string) (customers : list Customer.t) (users : list User.t)
  (currentUser : option User.t) (item : option Js.JSON)
  (orders : list Order.t) (order : Order.t) (c : Customer.t) (u : User.t)
  (t : CollectionType) (b : Z) :
  cacheReadable (readCompletedCollections item) = true ->
  In order orders ->
  findCustomer customers order = Some c ->
  findCollectedBy users currentUser order = Some u ->
  balanceFor order t = Some b ->
  0 < b ->
  exists rs r,
    derivedRecords
      (deriveCollections today customers users currentUser item orders)
    = inr rs
    /\ In r rs
    /\ CollectionRecord.id r = Order.id order ++ "-" ++ typeName t
    /\ CollectionRecord.orderId r = Order.id order
    /\ CollectionRecord.collectionType r = t
    /\ CollectionRecord.amount r = b.
Proof.
  intros Hcache Ho Hc Hu Hb Hz.
  destruct (cacheReadable_inr _ Hcache) as [ids Hids].
  exists (flat_map (contribution today customers users currentUser ids)
                   orders),
         (makeRecord today ids order c u t b).
  split; [rewrite derivedRecords_deriveCollections, Hids; reflexivity|].
  split; [|repeat split].
  apply in_flat_map. exists order. split; [exact Ho|].
  rewrite (contribution_resolved today customers users currentUser ids
             order c u Hc Hu).
  rewrite !emitted_cases. apply in_or_app.
  apply Z.ltb_lt in Hz.
  destruct t; simpl in Hb; rewrite Hb, Hz; [left|right]; left; reflexivity.
Qed.

Lemma positive_balance_is_derived_witness :
  exists rs r,
    derivedRecords
      (deriveCollections Sample.today Sample.customers Sample.users
         (Some Sample.asha) None [Sample.orphan; Sample.order1])
    = inr rs
    /\ In r rs
    /\ CollectionRecord.id r = "o1-credit"
    /\ CollectionRecord.amount r = 100.
Proof.
  destruct (positive_balance_is_derived Sample.today Sample.customers
              Sample.users (Some Sample.asha) None
              [Sample.orphan; Sample.order1] Sample.order1 Sample.perera
              Sample.ravi credit 100 eq_refl (or_intror (or_introl eq_refl))
              eq_refl eq_refl eq_refl eq_refl)
    as [rs [r [H1 [H2 [H3 [_ [_ H6]]]]]]].
  exists rs, r. repeat split; assumption.
Defined.

Lemma string_length_app (a b : string) :
  String.length (a ++ b) = (String.length a + String.length b)%nat.
Proof. induction a as [|c a IH]; simpl; [|rewrite IH]; reflexivity. Qed.

(** Two strings that end in suffixes of the same length and are equal have
    equal stems and equal suffixes. *)
Lemma string_app_inv (a b s s' : string) :
  String.length s = String.length s' ->
  a ++ s = b ++ s' -> a = b /\ s = s'.
Proof.
  intros Hlen. revert b. induction a as [|c a IH]; intros [|d b] H; simpl in H.
  - auto.
  - exfalso. apply (f_equal String.length) in H. simpl in H.
    rewrite string_length_app in H. lia.
  - exfalso. apply (f_equal String.length) in H. simpl in H.
    rewrite string_length_app in H. lia.
  - injection H as -> H. destruct (IH b H) as [-> ->]. auto.
Qed.

(** Record ids determine the order id and the type. *)
Lemma collectionId_inj (id1 id2 : string) (t1 t2 : CollectionType) :
  collectionId id1 t1 = collectionId id2 t2 -> id1 = id2 /\ t1 = t2.
Proof.
  unfold collectionId. intros H.
  apply string_app_inv in H; [|destruct t1, t2; reflexivity].
  destruct H as [-> H]. split; [reflexivity|].
  destruct t1, t2; simpl in H; try reflexivity; discriminate.
Qed.

Lemma contribution_ids today customers users currentUser ids order r :
  In r (contribution today customers users currentUser ids order) ->
  exists t, CollectionRecord.id r = collectionId (Order.id order) t.
Proof.
  intros H. apply in_contribution in H.
  destruct H as [c [u [t [z [_ [_ [_ [_ ->]]]]]]]]. exists t. reflexivity.
Qed.

Lemma contribution_ids_NoDup today customers users currentUser ids order :
  NoDup (map CollectionRecord.id
             (contribution today customers users currentUser ids order)).
Proof.
  destruct (findCustomer customers order) as [c|] eqn:Hc.
  - destruct (findCollectedBy users currentUser order) as [u|] eqn:Hu.
    + rewrite (contribution_resolved today customers users currentUser ids
                 order c u Hc Hu), !emitted_cases.
      destruct (Order.creditBalance order) as [z1|];
        destruct (Order.chequeBalance order) as [z2|];
        try destruct (0 <? z1); try destruct (0 <? z2); simpl;
        repeat constructor; simpl; try tauto.
      intros [H|[]]. apply collectionId_inj in H. destruct H; discriminate.
    + rewrite (contribution_skipped today customers users currentUser ids
                 order) by (right; exact Hu). constructor.
  - rewrite (contribution_skipped today customers users currentUser ids
               order) by (left; exact Hc). constructor.
Qed.

(** When the orders of a pass have pairwise distinct ids, so have the
    entries of the derived worklist. *)
Theorem derived_ids_are_distinct
  (today : string) (customers : list Customer.t) (users : list User.t)
  (currentUser : option User.t) (item : option Js.JSON)
  (orders : list Order.t) (rs : list CollectionRecord.t) :
  NoDup (map Order.id orders) ->
  derivedRecords
    (deriveCollections today customers users currentUser item orders)
  = inr rs ->
  NoDup (map CollectionRecord.id rs).
Proof.
  intros Hnd Hrs. apply derived_inr in Hrs. destruct Hrs as [ids [_ ->]].
  induction orders as [|o os IH]; simpl; [constructor|].
  inversion Hnd as [|? ? Hnotin Hnd']; subst.
  rewrite map_app. apply NoDup_app.
  - apply contribution_ids_NoDup.
  - apply IH. exact Hnd'.
  - intros i Hi1 Hi2. apply Hnotin.
    apply in_map_iff in Hi1. destruct Hi1 as [r1 [<- Hr1]].
    apply in_map_iff in Hi2. destruct Hi2 as [r2 [Heq Hr2]].
    apply in_flat_map in Hr2. destruct Hr2 as [o' [Ho' Hr2]].
    apply contribution_ids in Hr1. destruct Hr1 as [t1 H1].
    apply contribution_ids in Hr2. destruct Hr2 as [t2 H2].
    rewrite H1, H2 in Heq. apply collectionId_inj in Heq.
    destruct Heq as [Heq _]. rewrite <- Heq.
    apply in_map. exact Ho'.
Qed.

Lemma derived_ids_are_distinct_witness :
  NoDup (map CollectionRecord.id
           (flat_map (contribution Sample.today Sample.customers Sample.users
                                   (Some Sample.asha) [])
                     [Sample.order1; Scenario.orderBoth])).
Proof.
  apply (derived_ids_are_distinct Sample.today Sample.customers Sample.users
           (Some Sample.asha) None [Sample.order1; Scenario.orderBoth]).
  - repeat constructor; simpl; intros H;
      repeat (destruct H as [H|H]; try discriminate); exact H.
  - reflexivity.
Defined.

(** An order with both balances positive, customer and collector
    resolved, gives exactly two entries: the credit entry first, then the
    cheque entry, each with its own balance as amount. *)
Theorem both_balances_give_two_records
  (today : string) (customers : list Customer.t) (users : list User.t)
  (currentUser : option User.t) (completedIds : list Js.Value)
  (order : Order.t) (c : Customer.t) (u : User.t) (b1 b2 : Z) :
  findCustomer customers order = Some c ->
  findCollectedBy users currentUser order = Some u ->
  Order.creditBalance order = Some b1 -> 0 < b1 ->
  Order.chequeBalance order = Some b2 -> 0 < b2 ->
  map (fun r => (CollectionRecord.id r, CollectionRecord.collectionType r,
                 CollectionRecord.amount r))
      (contribution today customers users currentUser completedIds order)
  = [(Order.id order ++ "-credit", credit, b1);
     (Order.id order ++ "-cheque", cheque, b2)].
Proof.
  intros Hc Hu H1 Hb1 H2 Hb2.
  rewrite (contribution_resolved today customers users currentUser
             completedIds order c u Hc Hu), !emitted_cases, H1, H2.
  apply Z.ltb_lt in Hb1, Hb2. rewrite Hb1, Hb2. reflexivity.
Qed.

Lemma both_balances_give_two_records_witness :
  map (fun r => (CollectionRecord.id r, CollectionRecord.collectionType r,
                 CollectionRecord.amount r))
      (contribution Sample.today Sample.customers Sample.users
                    (Some Sample.asha) [] Scenario.orderBoth)
  = [("o7-credit", credit, 55); ("o7-cheque", cheque, 35)].
Proof.
  apply (both_balances_give_two_records Sample.today Sample.customers
           Sample.users (Some Sample.asha) [] Scenario.orderBoth
           Sample.silva Sample.asha 55 35);
    reflexivity.
Defined.

Lemma contribution_length today customers users currentUser ids order :
  (List.length (contribution today customers users currentUser ids order)
   <= 2)%nat.
Proof.
  destruct (findCustomer customers order) as [c|] eqn:Hc.
  - destruct (findCollectedBy users currentUser order) as [u|] eqn:Hu.
    + rewrite (contribution_resolved today customers users currentUser ids
                 order c u Hc Hu), !emitted_cases.
      destruct (Order.creditBalance order) as [z1|];
        destruct (Order.chequeBalance order) as [z2|];
        try destruct (0 <? z1); try destruct (0 <? z2); simpl; lia.
    + rewrite (contribution_skipped today customers users currentUser ids
                 order) by (right; exact Hu). simpl. lia.
  - rewrite (contribution_skipped today customers users currentUser ids
               order) by (left; exact Hc). simpl. lia.
Qed.

(** A pass never yields more than two entries per order, and none at all
    over an empty order list. *)
Theorem derived_at_most_two_per_order
  (today : string) (customers : list Customer.t) (users : list User.t)
  (currentUser : option User.t) (item : option Js.JSON)
  (orders : list Order.t) (rs : list CollectionRecord.t) :
  derivedRecords
    (deriveCollections today customers users currentUser item orders)
  = inr rs ->
  (List.length rs <= 2 * List.length orders)%nat
  /\ (orders = [] -> rs = []).
Proof.
  intros Hrs. apply derived_inr in Hrs. destruct Hrs as [ids [_ ->]].
  split; [|intros ->; reflexivity].
  induction orders as [|o os IH]; simpl; [lia|].
  rewrite length_app.
  pose proof (contribution_length today customers users currentUser ids o).
  lia.
Qed.

Lemma derived_at_most_two_per_order_witness :
  (List.length [Sample.order1Credit] <= 2 * 2)%nat.
Proof.
  destruct (derived_at_most_two_per_order Sample.today Sample.customers
              Sample.users (Some Sample.asha) None
              [Sample.orphan; Sample.order1] [Sample.order1Credit] eq_refl)
    as [H _].
  exact H.
Defined.

(** The notes marker is a per-order signal: when an order's notes contain
    the token, every entry the order gives rise to is complete and
    annotated "Previously completed", whatever the cache holds. *)
Theorem notes_marker_completes_the_order
  (today : string) (customers : list Customer.t) (users : list User.t)
  (currentUser : option User.t) (completedIds : list Js.Value)
  (order : Order.t) (notes : string) :
  Order.notes order = Some notes ->
  Js.includes notes COLLECTION_COMPLETED = true ->
  Forall (fun r => CollectionRecord.status r = complete
                   /\ CollectionRecord.notes r = Some "Previously completed")
         (contribution today customers users currentUser completedIds order).
Proof.
  intros Hn Hinc. apply Forall_forall. intros r Hin.
  apply in_contribution in Hin.
  destruct Hin as [c [u [t [z [_ [_ [_ [_ ->]]]]]]]].
  assert (Hm : isCollectionCompleted order = true).
  { unfold isCollectionCompleted. rewrite Hn.
    destruct notes as [|ch rest]; [discriminate | exact Hinc]. }
  unfold makeRecord. simpl. rewrite Hm, orb_true_r. auto.
Qed.

Lemma notes_marker_completes_the_order_witness :
  map summary
      (contribution Sample.today Sample.customers Sample.users
                    (Some Sample.asha) [] Scenario.orderMarked)
  = [("o8-credit", credit, 40, complete); ("o8-cheque", cheque, 20, complete)]
  /\ Forall (fun r => CollectionRecord.status r = complete
                      /\ CollectionRecord.notes r
                         = Some "Previously completed")
            (contribution Sample.today Sample.customers Sample.users
                          (Some Sample.asha) [] Scenario.orderMarked).
Proof.
  split; [reflexivity|].
  apply (notes_marker_completes_the_order Sample.today Sample.customers
           Sample.users (Some Sample.asha) [] Scenario.orderMarked
           "paid in full COLLECTION_COMPLETED by cashier");
    reflexivity.
Defined.

(** The derivation fails, with a type error and before any order is
    looked at or any line logged, exactly when the cached value is not an
    array or holds a [null] entry; an absent cache key never fails. *)
Theorem derivation_fails_iff_cache_unreadable
  (today : string) (customers : list Customer.t) (users : list User.t)
  (currentUser : option User.t) (item : option Js.JSON)
  (orders : list Order.t) :
  let run :=
    deriveCollections today customers users currentUser item orders in
  (run = inl Js.TypeError
     <-> cacheReadable (readCompletedCollections item) = false)
  /\ ((exists st, run = inr st)
        <-> cacheReadable (readCompletedCollections item) = true)
  /\ (exists st,
        deriveCollections today customers users currentUser None orders
        = inr st).
Proof.
  intros run. unfold run, deriveCollections.
  destruct (cacheReadable (readCompletedCollections item)) eqn:E.
  - destruct (cacheReadable_inr _ E) as [ids ->].
    split; [split; discriminate|].
    split; [split; [reflexivity | intros _; eexists; reflexivity]|].
    simpl. eexists. reflexivity.
  - rewrite (cacheUnreadable_inl _ E).
    split; [split; reflexivity|].
    split; [split; [intros [st H]; discriminate | discriminate]|].
    simpl. eexists. reflexivity.
Qed.

(* ===================================================================== *)
(** ** Statistics and the filtered view *)
(* ===================================================================== *)

(** The view is a rearrangement of the records that pass both filters. *)
Lemma view_perm (getTime : string -> option Z)
  (collections : list CollectionRecord.t) (sf : StatusFilter)
  (tf : TypeFilter) :
  Permutation (filteredCollections getTime collections sf tf)
              (filter (passes sf tf) collections).
Proof.
  unfold filteredCollections, passes. rewrite <- applyFilters.
  apply sortBy_perm.
Qed.

(** Every record of the view passes both filters. *)
Lemma view_passes (getTime : string -> option Z)
  (collections : list CollectionRecord.t) (sf : StatusFilter)
  (tf : TypeFilter) (c : CollectionRecord.t) :
  In c (filteredCollections getTime collections sf tf) ->
  statusMatches sf c = true /\ typeMatches tf c = true.
Proof.
  intros Hin.
  apply (Permutation_in _ (view_perm getTime collections sf tf)) in Hin.
  apply filter_In in Hin. destruct Hin as [_ H].
  apply andb_true_iff in H. exact H.
Qed.



(** A status filter empties the other status's totals and a type filter
    the other type's: under [pending] the completed total is 0, under
    [complete] every pending figure is 0, under [credit] the pending
    cheque figure is 0 and under [cheque] the pending credit figure. *)
Theorem stats_respect_filters
  (getTime : string -> option Z) (collections : list CollectionRecord.t)
  (sf : StatusFilter) (tf : TypeFilter) :
  let s := totalStats (filteredCollections getTime collections sf tf) in
  (sf = StatusIs pending -> totalCompletedAmount s = 0)
  /\ (sf = StatusIs complete ->
      totalPendingAmount s = 0 /\ pendingCredit s = 0 /\ pendingCheque s = 0)
  /\ (tf = TypeIs credit -> pendingCheque s = 0)
  /\ (tf = TypeIs cheque -> pendingCredit s = 0).
Proof.
  intros s. unfold s, totalStats.
  cbn [totalPendingAmount totalCompletedAmount pendingCredit pendingCheque
       totalCollections].
  pose proof (view_passes getTime collections sf tf) as Hkept.
  split; [|split; [|split]].
  - intros ->. rewrite filter_none_in; [reflexivity|]. intros c Hin.
    destruct (Hkept c Hin) as [H _]. unfold hasStatus. simpl in H.
    destruct (CollectionRecord.status c); [reflexivity | discriminate].
  - intros ->.
    rewrite (filter_none_in (hasStatus pending)); [auto|]. intros c Hin.
    destruct (Hkept c Hin) as [H _]. unfold hasStatus. simpl in H.
    destruct (CollectionRecord.status c); [discriminate | reflexivity].
  - intros ->. rewrite (filter_none_in (hasType cheque)); [reflexivity|].
    intros c Hin. apply filter_In in Hin. destruct Hin as [Hin _].
    destruct (Hkept c Hin) as [_ H]. unfold hasType. simpl in H.
    destruct (CollectionRecord.collectionType c);
      [reflexivity | discriminate].
  - intros ->. rewrite (filter_none_in (hasType credit)); [reflexivity|].
    intros c Hin. apply filter_In in Hin. destruct Hin as [Hin _].
    destruct (Hkept c Hin) as [_ H]. unfold hasType. simpl in H.
    destruct (CollectionRecord.collectionType c);
      [discriminate | reflexivity].
Qed.

Lemma stats_respect_filters_witness :
  totalCompletedAmount
    (totalStats (filteredCollections Runtime.getTime Sample.worklist
                                     (StatusIs pending) (TypeIs cheque)))
  = 0
  /\ pendingCredit
       (totalStats (filteredCollections Runtime.getTime Sample.worklist
                                        (StatusIs pending) (TypeIs cheque)))
     = 0.
Proof.
  destruct (stats_respect_filters Runtime.getTime Sample.worklist
              (StatusIs pending) (TypeIs cheque)) as [H1 [_ [_ H4]]].
  split; [apply H1 | apply H4]; reflexivity.
Defined.

Example stats_sample :
  totalStats (filteredCollections Runtime.getTime Sample.worklist
                                  StatusAll TypeAll)
  = mkStats 50 10 30 20 6.
Proof. vm_compute. reflexivity. Qed.

(** When every record that passes the filters bears a date that parses,
    filtering and sorting the view once more, with the same filters,
    gives the view back. *)
Theorem filtered_view_is_stable_under_refiltering
  (getTime : string -> option Z) (collections : list CollectionRecord.t)
  (sf : StatusFilter) (tf : TypeFilter) :
  datesValid getTime (filter (passes sf tf) collections) ->
  let view := filteredCollections getTime collections sf tf in
  filteredCollections getTime view sf tf = view.
Proof.
  intros Hv view.
  pose proof (view_perm getTime collections sf tf) as Hperm. fold view in Hperm.
  assert (Hall : forallb (passes sf tf) view = true).
  { apply forallb_forall. intros c Hin.
    apply (Permutation_in _ Hperm) in Hin. apply filter_In in Hin. tauto. }
  unfold filteredCollections at 1. rewrite applyFilters.
  change (fun c => statusMatches sf c && typeMatches tf c)
    with (passes sf tf).
  rewrite (forallb_filter_id _ _ Hall).
  apply sortBy_fixed.
  - apply (Permutation_Forall (Permutation_sym Hperm)). exact Hv.
  - unfold view, filteredCollections. apply sortBy_dates.
    rewrite applyFilters. exact Hv.
Qed.

Lemma filtered_view_is_stable_under_refiltering_witness :
  filteredCollections Runtime.getTime
    (filteredCollections Runtime.getTime Sample.worklist
                         (StatusIs pending) TypeAll)
    (StatusIs pending) TypeAll
  = filteredCollections Runtime.getTime Sample.worklist
                        (StatusIs pending) TypeAll.
Proof.
  apply (filtered_view_is_stable_under_refiltering Runtime.getTime
           Sample.worklist (StatusIs pending) TypeAll).
  repeat constructor; discriminate.
Defined.

(** When every record that passes the filters bears a date that parses,
    ties keep their place: the records of the view collected at one and
    the same instant stand in the order in which they stand in the list
    they were taken from. *)
Theorem filtered_view_keeps_order_of_ties
  (getTime : string -> option Z) (collections : list CollectionRecord.t)
  (sf : StatusFilter) (tf : TypeFilter) (t : Z) :
  datesValid getTime (filter (passes sf tf) collections) ->
  filter (collectedAtTime getTime t)
         (filteredCollections getTime collections sf tf)
  = filter (collectedAtTime getTime t)
           (filter (passes sf tf) collections).
Proof.
  intros Hv. unfold filteredCollections. rewrite applyFilters.
  apply sortBy_same_instant. exact Hv.
Qed.

Lemma filtered_view_keeps_order_of_ties_witness :
  filter (collectedAtTime Runtime.getTime 1714608000000)
         (filteredCollections Runtime.getTime Sample.sameDay
                              StatusAll TypeAll)
  = [ Sample.entry "o1-credit" credit pending "2024-05-02";
      Sample.entry "o3-cheque" cheque pending "2024-05-02";
      Sample.entry "o4-credit" credit complete "2024-05-02" ].
Proof.
  rewrite (filtered_view_keeps_order_of_ties Runtime.getTime Sample.sameDay
             StatusAll TypeAll 1714608000000).
  - reflexivity.
  - repeat constructor; discriminate.
Defined.

(* ===================================================================== *)
(** ** Further properties of the recognition *)
(* ===================================================================== *)

Section MoreHandlerRuns.

Variable toLocaleString : Z -> string.
Variable backend : string -> Patch -> string -> Response.
Variable refetchOutcome : option Js.Error.
Variable customers : list Customer.t.
Variable currentUser : option User.t.

Let handler :=
  handleRecognizeCollection toLocaleString backend refetchOutcome
                            customers currentUser.

Lemma run_updateCustomer_missing w sel :
  Js.find (fun c => String.eqb (Customer.id c)
                               (CollectionRecord.customerId sel))
          customers = None ->
  updateCustomer backend customers sel w = (Returned tt, w).
Proof. intros H. unfold updateCustomer. rewrite H. reflexivity. Qed.

(** The customer step when the store does not reject: the call, if any,
    is recorded and the step returns. *)
Lemma run_updateCustomer_ok w sel :
  customersNotRejected backend ->
  updateCustomer backend customers sel w
  = (Returned tt,
     mkWorld (localStorage w) (collections w) (selectedCollection w)
             (verificationNotes w)
             (trace w ++ customerCall customers sel)).
Proof.
  intros Hnr. unfold customerCall.
  destruct (Js.find _ customers) as [c|] eqn:Hfind.
  - rewrite (run_updateCustomer_found backend customers w sel c Hfind).
    destruct (backend "customers" _ _) as [|e|e] eqn:Hb; try reflexivity.
    exfalso. exact (Hnr _ _ _ Hb).
  - rewrite (run_updateCustomer_missing w sel Hfind).
    rewrite app_nil_r. destruct w; reflexivity.
Qed.

(** The local-storage step on a cached array. *)
Lemma run_storeCompletion_array w items id :
  readCompletedCollections (localStorage w) = Js.JArr items ->
  storeCompletion id w
  = (Returned tt,
     mkWorld (cacheCell w items id) (collections w) (selectedCollection w)
             (verificationNotes w) (trace w ++ cacheEvents items id)).
Proof.
  intros H. unfold storeCompletion, bind, gets, cacheCell, cacheEvents.
  rewrite H. destruct (Js.arrIncludes items id).
  - rewrite app_nil_r. destruct w; reflexivity.
  - reflexivity.
Qed.

(** The local-storage step on a cached value that is neither an array nor
    a string holding the id. *)
Lemma run_storeCompletion_unusable w id :
  cacheUsable (readCompletedCollections (localStorage w)) id = false ->
  storeCompletion id w = (Thrown Js.TypeError, w).
Proof.
  intros H. unfold storeCompletion, bind, gets.
  destruct (readCompletedCollections (localStorage w));
    simpl in H; try discriminate; try reflexivity.
  rewrite H. reflexivity.
Qed.

End MoreHandlerRuns.

Section ExactRuns.

Variable toLocaleString : Z -> string.
Variable backend : string -> Patch -> string -> Response.
Variable customers : list Customer.t.
Variable currentUser : option User.t.

(** The steps after the store updates, on a cached array. *)
Lemma run_afterStoreUpdates refetchOutcome w sel v items :
  readCompletedCollections (localStorage w) = Js.JArr items ->
  let id := CollectionRecord.id sel in
  let flipped := map (markComplete sel v) (collections w) in
  afterStoreUpdates toLocaleString refetchOutcome sel v w
  = match refetchOutcome with
    | None =>
        (Returned tt,
         mkWorld (cacheCell w items id) flipped None ""
                 (trace w ++ cacheEvents items id
                  ++ [RefetchData;
                      Alert (successNotice toLocaleString sel)]))
    | Some e =>
        (Thrown e,
         mkWorld (cacheCell w items id) flipped (selectedCollection w)
                 (verificationNotes w)
                 (trace w ++ cacheEvents items id ++ [RefetchData]))
    end.
Proof.
  intros Hcache id flipped. unfold afterStoreUpdates.
  unfold bind at 1.
  rewrite (run_storeCompletion_array w items (CollectionRecord.id sel)
             Hcache).
  subst id flipped.
  unfold bind, setCollections, refetchData, emit, setSelectedCollection,
    setVerificationNotes, modify, ret, throw.
  destruct refetchOutcome; cbn; rewrite <- ?app_assoc; reflexivity.
Qed.

End ExactRuns.

(** The run up to the steps after the store updates: the order update is
    accepted and the customer update, if any, is not rejected. *)
Lemma run_until_store_updates_done toLocaleString backend refetchOutcome
  customers currentUser w sel :
  selectedCollection w = Some sel ->
  backend "orders"
          (updatedOrderData toLocaleString currentUser sel
                            (verificationNotes w))
          (CollectionRecord.orderId sel) = Succeeded ->
  customersNotRejected backend ->
  handleRecognizeCollection toLocaleString backend refetchOutcome customers
                            currentUser w
  = tryCatch
      (afterStoreUpdates toLocaleString refetchOutcome sel
                         (verificationNotes w))
      onError
      (mkWorld (localStorage w) (collections w) (selectedCollection w)
               (verificationNotes w)
               (trace w
                ++ orderCall toLocaleString currentUser sel
                             (verificationNotes w)
                :: customerCall customers sel)).
Proof.
  intros Hsel Hok Hnr.
  rewrite (run_handler toLocaleString backend refetchOutcome customers
             currentUser w sel Hsel).
  unfold tryCatch.
  rewrite (run_recognize_accepted toLocaleString backend refetchOutcome
             customers currentUser w sel _ Hok).
  unfold bind at 1. rewrite (run_updateCustomer_ok backend customers _ sel Hnr).
  unfold recorded, orderCall. cbn [localStorage collections
    selectedCollection verificationNotes trace].
  rewrite <- app_assoc. reflexivity.
Qed.

(** A recognition that goes through: the order update is accepted, the
    customer update is not rejected, the cache holds a list and the reload
    resolves.  The handler returns; the trace gains, in this order, the
    order call, the customer call if the customer is known, the cache
    write unless the id was cached already, the reload and the success
    notice; the cache then holds the id, every record with the selected
    id is flipped in memory, the selection is cleared and the notes field
    is emptied. *)
Theorem recognition_goes_through
  (toLocaleString : Z -> string)
  (backend : string -> Patch -> string -> Response)
  (customers : list Customer.t) (currentUser : option User.t)
  (w : World) (sel : CollectionRecord.t) (items : list Js.JSON) :
  selectedCollection w = Some sel ->
  backend "orders"
          (updatedOrderData toLocaleString currentUser sel
                            (verificationNotes w))
          (CollectionRecord.orderId sel) = Succeeded ->
  customersNotRejected backend ->
  readCompletedCollections (localStorage w) = Js.JArr items ->
  let id := CollectionRecord.id sel in
  let v := verificationNotes w in
  handleRecognizeCollection toLocaleString backend None customers
                            currentUser w
  = (Returned tt,
     mkWorld (cacheCell w items id)
             (map (markComplete sel v) (collections w))
             None
             ""
             (trace w
              ++ orderCall toLocaleString currentUser sel v
              :: customerCall customers sel
              ++ cacheEvents items id
              ++ [RefetchData; Alert (successNotice toLocaleString sel)]))
  /\ readCompletedCollections (cacheCell w items id)
     = Js.JArr (cacheAppend items id)
  /\ Js.arrIncludes (cacheAppend items id) id = true.
Proof.
  intros Hsel Hok Hnr Hcache id v. split; [|split].
  - rewrite (run_until_store_updates_done toLocaleString backend None
               customers currentUser w sel Hsel Hok Hnr).
    unfold tryCatch.
    rewrite (run_afterStoreUpdates toLocaleString None _ sel _ items)
      by exact Hcache.
    cbn [localStorage collections selectedCollection verificationNotes trace].
    unfold cacheCell. cbn [localStorage].
    rewrite <- !app_assoc. reflexivity.
  - unfold cacheCell, cacheAppend.
    destruct (Js.arrIncludes items id); [exact Hcache | reflexivity].
  - unfold cacheAppend. destruct (Js.arrIncludes items id) eqn:E; [exact E|].
    unfold Js.arrIncludes. rewrite existsb_app. simpl.
    rewrite String.eqb_refl. apply orb_true_r.
Qed.

Lemma recognition_goes_through_witness :
  handleRecognizeCollection Runtime.toLocaleString Sample.acceptAll None
                            Sample.customers (Some Sample.asha)
                            Scenario2.worldWithCache
  = (Returned tt,
     mkWorld
       (Some (Js.JArr [Js.JStr "o0-cheque"; Js.JStr "o4-credit"]))
       [Sample.order1Credit;
        CollectionRecord.mk "o4-credit" "o4" "c1" "Perera Stores" credit 80
                            "Ravi" "2024-05-04" complete
                            (Some "cash counted")]
       None
       ""
       [StoreUpdate "orders"
          [("notes",
            FStr "CREDIT collection of LKR 80 completed by Asha. Notes: cash counted");
           ("creditbalance", FNum 0)] "o4";
        StoreUpdate "customers" [("outstandingbalance", FNum 0)] "c1";
        CacheWrite (Js.JArr [Js.JStr "o0-cheque"; Js.JStr "o4-credit"]);
        RefetchData;
        Alert "CREDIT collection of LKR 80 has been completed and all outstanding amounts updated!"]).
Proof.
  destruct (recognition_goes_through Runtime.toLocaleString Sample.acceptAll
              Sample.customers (Some Sample.asha) Scenario2.worldWithCache
              Sample.credit80 [Js.JStr "o0-cheque"] eq_refl eq_refl)
    as [H _]; [intros patch id e; discriminate | reflexivity |].
  eapply eq_trans; [exact H|]. vm_compute. reflexivity.
Defined.

(** A reload that rejects turns a recognition that has been written in
    full into a reported failure: both store calls and the cache write
    have been made and the record is flipped in memory, yet the error is
    logged, the failure notice is shown instead of the success notice,
    and the selection and the notes field are left as they were. *)
Theorem failed_reload_is_reported_as_failure
  (toLocaleString : Z -> string)
  (backend : string -> Patch -> string -> Response)
  (customers : list Customer.t) (currentUser : option User.t)
  (w : World) (sel : CollectionRecord.t) (items : list Js.JSON)
  (e : Js.Error) :
  selectedCollection w = Some sel ->
  backend "orders"
          (updatedOrderData toLocaleString currentUser sel
                            (verificationNotes w))
          (CollectionRecord.orderId sel) = Succeeded ->
  customersNotRejected backend ->
  readCompletedCollections (localStorage w) = Js.JArr items ->
  let id := CollectionRecord.id sel in
  let v := verificationNotes w in
  handleRecognizeCollection toLocaleString backend (Some e) customers
                            currentUser w
  = (Returned tt,
     mkWorld (cacheCell w items id)
             (map (markComplete sel v) (collections w))
             (selectedCollection w)
             v
             (trace w
              ++ orderCall toLocaleString currentUser sel v
              :: customerCall customers sel
              ++ cacheEvents items id
              ++ [RefetchData; ConsoleError e; Alert FAILED_NOTICE])).
Proof.
  intros Hsel Hok Hnr Hcache id v.
  rewrite (run_until_store_updates_done toLocaleString backend (Some e)
             customers currentUser w sel Hsel Hok Hnr).
  unfold tryCatch.
  rewrite (run_afterStoreUpdates toLocaleString (Some e) _ sel _ items)
    by exact Hcache.
  unfold onError, bind, emit, modify.
  cbn [localStorage collections selectedCollection verificationNotes trace
       fst snd].
  unfold cacheCell. cbn [localStorage].
  rewrite <- !app_assoc. reflexivity.
Qed.

Lemma failed_reload_is_reported_as_failure_witness :
  trace (snd (handleRecognizeCollection Runtime.toLocaleString
                Sample.acceptAll (Some (Js.NetworkError "timeout"))
                Sample.customers (Some Sample.asha)
                Scenario2.worldWithCache))
  = [StoreUpdate "orders"
       [("notes",
         FStr "CREDIT collection of LKR 80 completed by Asha. Notes: cash counted");
        ("creditbalance", FNum 0)] "o4";
     StoreUpdate "customers" [("outstandingbalance", FNum 0)] "c1";
     CacheWrite (Js.JArr [Js.JStr "o0-cheque"; Js.JStr "o4-credit"]);
     RefetchData;
     ConsoleError (Js.NetworkError "timeout");
     Alert FAILED_NOTICE].
Proof.
  rewrite (failed_reload_is_reported_as_failure Runtime.toLocaleString
             Sample.acceptAll Sample.customers (Some Sample.asha)
             Scenario2.worldWithCache Sample.credit80 [Js.JStr "o0-cheque"]
             (Js.NetworkError "timeout") eq_refl eq_refl
             (fun patch id e => ltac:(discriminate)) eq_refl).
  vm_compute. reflexivity.
Defined.

(** A cached value that is neither a list nor a string holding the id
    makes the recognition fail after the store has been written: the
    order call and the customer call stand, the cache, the records in
    memory, the selection and the notes field are untouched, a type error
    is logged and the failure notice is shown. *)
Theorem unusable_cache_fails_after_the_store_calls
  (toLocaleString : Z -> string)
  (backend : string -> Patch -> string -> Response)
  (refetchOutcome : option Js.Error)
  (customers : list Customer.t) (currentUser : option User.t)
  (w : World) (sel : CollectionRecord.t) :
  selectedCollection w = Some sel ->
  backend "orders"
          (updatedOrderData toLocaleString currentUser sel
                            (verificationNotes w))
          (CollectionRecord.orderId sel) = Succeeded ->
  customersNotRejected backend ->
  cacheUsable (readCompletedCollections (localStorage w))
              (CollectionRecord.id sel) = false ->
  handleRecognizeCollection toLocaleString backend refetchOutcome customers
                            currentUser w
  = (Returned tt,
     mkWorld (localStorage w) (collections w) (selectedCollection w)
             (verificationNotes w)
             (trace w
              ++ orderCall toLocaleString currentUser sel
                           (verificationNotes w)
              :: customerCall customers sel
              ++ [ConsoleError Js.TypeError; Alert FAILED_NOTICE])).
Proof.
  intros Hsel Hok Hnr Hcache.
  rewrite (run_until_store_updates_done toLocaleString backend
             refetchOutcome customers currentUser w sel Hsel Hok Hnr).
  unfold tryCatch, afterStoreUpdates. unfold bind at 1.
  rewrite run_storeCompletion_unusable by exact Hcache.
  unfold onError, bind, emit, modify.
  cbn [localStorage collections selectedCollection verificationNotes trace
       fst snd].
  rewrite <- !app_assoc. reflexivity.
Qed.

Lemma unusable_cache_fails_after_the_store_calls_witness :
  handleRecognizeCollection Runtime.toLocaleString Sample.acceptAll None
                            Sample.customers (Some Sample.asha)
                            Scenario2.worldBadCache
  = (Returned tt,
     mkWorld (Some (Js.JObj [])) [Sample.credit80] (Some Sample.credit80) ""
       [StoreUpdate "orders"
          [("notes", FStr "CREDIT collection of LKR 80 completed by Asha. ");
           ("creditbalance", FNum 0)] "o4";
        StoreUpdate "customers" [("outstandingbalance", FNum 0)] "c1";
        ConsoleError Js.TypeError;
        Alert FAILED_NOTICE]).
Proof.
  rewrite (unusable_cache_fails_after_the_store_calls Runtime.toLocaleString
             Sample.acceptAll None Sample.customers (Some Sample.asha)
             Scenario2.worldBadCache Sample.credit80 eq_refl eq_refl
             (fun patch id e => ltac:(discriminate)) eq_refl).
  vm_compute. reflexivity.
Defined.

(** A refused order update, whether it comes back with an error or is
    rejected, aborts the recognition at once: the order call is the only
    store call, the error is logged and the failure notice shown, and the
    cache, the records in memory, the selection and the notes field are
    left as they were. *)
Theorem refused_order_update_aborts
  (toLocaleString : Z -> string)
  (backend : string -> Patch -> string -> Response)
  (refetchOutcome : option Js.Error)
  (customers : list Customer.t) (currentUser : option User.t)
  (w : World) (sel : CollectionRecord.t) (e : Js.Error) :
  selectedCollection w = Some sel ->
  backend "orders"
          (updatedOrderData toLocaleString currentUser sel
                            (verificationNotes w))
          (CollectionRecord.orderId sel) = ErrorReturned e
  \/ backend "orders"
             (updatedOrderData toLocaleString currentUser sel
                               (verificationNotes w))
             (CollectionRecord.orderId sel) = Rejected e ->
  handleRecognizeCollection toLocaleString backend refetchOutcome customers
                            currentUser w
  = (Returned tt,
     mkWorld (localStorage w) (collections w) (selectedCollection w)
             (verificationNotes w)
             (trace w
              ++ [orderCall toLocaleString currentUser sel
                            (verificationNotes w);
                  ConsoleError e;
                  Alert FAILED_NOTICE])).
Proof.
  intros Hsel Hresp.
  exact (orders_error_aborts toLocaleString backend refetchOutcome customers
           currentUser w sel e Hsel Hresp).
Qed.

Lemma refused_order_update_aborts_witness :
  handleRecognizeCollection Runtime.toLocaleString Sample.ordersDenied None
                            Sample.customers (Some Sample.asha)
                            Sample.world80
  = (Returned tt,
     mkWorld None [Sample.credit80] (Some Sample.credit80) "cash counted"
       [StoreUpdate "orders"
          [("notes",
            FStr "CREDIT collection of LKR 80 completed by Asha. Notes: cash counted");
           ("creditbalance", FNum 0)] "o4";
        ConsoleError (Js.StoreError "permission denied");
        Alert FAILED_NOTICE]).
Proof.
  rewrite (refused_order_update_aborts Runtime.toLocaleString
             Sample.ordersDenied None Sample.customers (Some Sample.asha)
             Sample.world80 Sample.credit80
             (Js.StoreError "permission denied") eq_refl
             (or_introl eq_refl)).
  vm_compute. reflexivity.
Defined.

(** A customer update that is rejected aborts the recognition after the
    order has been written: the order call stands and no further store
    call is made to undo it, the cache, the records in memory, the
    selection and the notes field are untouched, the error is logged and
    the failure notice is shown. *)
Theorem rejected_customer_update_aborts
  (toLocaleString : Z -> string)
  (backend : string -> Patch -> string -> Response)
  (refetchOutcome : option Js.Error)
  (customers : list Customer.t) (currentUser : option User.t)
  (w : World) (sel : CollectionRecord.t) (c : Customer.t) (e : Js.Error) :
  selectedCollection w = Some sel ->
  backend "orders"
          (updatedOrderData toLocaleString currentUser sel
                            (verificationNotes w))
          (CollectionRecord.orderId sel) = Succeeded ->
  Js.find (fun c => String.eqb (Customer.id c)
                               (CollectionRecord.customerId sel))
          customers = Some c ->
  backend "customers"
          [("outstandingbalance",
            FNum (newOutstandingBalance c (CollectionRecord.amount sel)))]
          (CollectionRecord.customerId sel) = Rejected e ->
  handleRecognizeCollection toLocaleString backend refetchOutcome customers
                            currentUser w
  = (Returned tt,
     mkWorld (localStorage w) (collections w) (selectedCollection w)
             (verificationNotes w)
             (trace w
              ++ [orderCall toLocaleString currentUser sel
                            (verificationNotes w);
                  StoreUpdate "customers"
                    [("outstandingbalance",
                      FNum (newOutstandingBalance c
                              (CollectionRecord.amount sel)))]
                    (CollectionRecord.customerId sel);
                  ConsoleError e;
                  Alert FAILED_NOTICE])).
Proof.
  intros Hsel Hok Hfind Hrej.
  rewrite (run_handler toLocaleString backend refetchOutcome customers
             currentUser w sel Hsel).
  unfold tryCatch.
  rewrite (run_recognize_accepted toLocaleString backend refetchOutcome
             customers currentUser w sel _ Hok).
  unfold bind at 1.
  rewrite (run_updateCustomer_found backend customers _ sel c Hfind).
  rewrite Hrej.
  unfold onError, bind, emit, modify, recorded, orderCall.
  cbn [localStorage collections selectedCollection verificationNotes trace
       fst snd].
  rewrite <- !app_assoc. reflexivity.
Qed.

Lemma rejected_customer_update_aborts_witness :
  handleRecognizeCollection Runtime.toLocaleString
                            Scenario2.customersRejected None
                            Sample.customers (Some Sample.asha)
                            Sample.world80
  = (Returned tt,
     mkWorld None [Sample.credit80] (Some Sample.credit80) "cash counted"
       [StoreUpdate "orders"
          [("notes",
            FStr "CREDIT collection of LKR 80 completed by Asha. Notes: cash counted");
           ("creditbalance", FNum 0)] "o4";
        StoreUpdate "customers" [("outstandingbalance", FNum 0)] "c1";
        ConsoleError (Js.NetworkError "offline");
        Alert FAILED_NOTICE]).
Proof.
  rewrite (rejected_customer_update_aborts Runtime.toLocaleString
             Scenario2.customersRejected None Sample.customers
             (Some Sample.asha) Sample.world80 Sample.credit80 Sample.perera
             (Js.NetworkError "offline") eq_refl eq_refl eq_refl eq_refl).
  vm_compute. reflexivity.
Defined.

(** Recording an id in a cached list is idempotent: after the step the
    list holds the id, the entries it held before are still there in the
    same order, and a second step writes nothing and leaves the world as
    it is. *)
Theorem cache_append_is_idempotent
  (w : World) (items : list Js.JSON) (id : string) :
  readCompletedCollections (localStorage w) = Js.JArr items ->
  let w1 := snd (storeCompletion id w) in
  readCompletedCollections (localStorage w1) = Js.JArr (cacheAppend items id)
  /\ Js.arrIncludes (cacheAppend items id) id = true
  /\ (exists added, cacheAppend items id = (items ++ added)%list)
  /\ storeCompletion id w1 = (Returned tt, w1).
Proof.
  intros Hcache w1.
  assert (Hinc : Js.arrIncludes (cacheAppend items id) id = true).
  { unfold cacheAppend. destruct (Js.arrIncludes items id) eqn:E; [exact E|].
    unfold Js.arrIncludes. rewrite existsb_app. simpl.
    rewrite String.eqb_refl. apply orb_true_r. }
  assert (Hw1 : readCompletedCollections (localStorage w1)
                = Js.JArr (cacheAppend items id)).
  { unfold w1. rewrite (run_storeCompletion_array w items id Hcache).
    unfold cacheCell, cacheAppend. simpl.
    destruct (Js.arrIncludes items id); [exact Hcache | reflexivity]. }
  split; [exact Hw1|]. split; [exact Hinc|]. split.
  - unfold cacheAppend. destruct (Js.arrIncludes items id).
    + exists []. now rewrite app_nil_r.
    + eexists. reflexivity.
  - rewrite (run_storeCompletion_array w1 _ id Hw1).
    unfold cacheCell, cacheEvents. rewrite Hinc, app_nil_r.
    destruct w1; reflexivity.
Qed.

Lemma cache_append_is_idempotent_witness :
  readCompletedCollections
    (localStorage (snd (storeCompletion "o4-credit" Scenario2.worldWithCache)))
  = Js.JArr [Js.JStr "o0-cheque"; Js.JStr "o4-credit"]
  /\ storeCompletion "o4-credit"
       (snd (storeCompletion "o4-credit" Scenario2.worldWithCache))
     = (Returned tt,
        snd (storeCompletion "o4-credit" Scenario2.worldWithCache)).
Proof.
  destruct (cache_append_is_idempotent Scenario2.worldWithCache
              [Js.JStr "o0-cheque"] "o4-credit" eq_refl)
    as [H1 [_ [_ H4]]].
  split; [exact H1 | exact H4].
Defined.

(* ===================================================================== *)
(** ** Counting events *)
(* ===================================================================== *)

Section Counting.

Variable p : Event -> bool.

Lemma countIn_app l l' :
  countIn p (l ++ l') = (countIn p l + countIn p l')%nat.
Proof. unfold countIn. rewrite filter_app, length_app. reflexivity. Qed.

Lemma adds_ret {A : Type} (a : A) n : adds p 0 n (ret a).
Proof. intros w. exists []. simpl. now rewrite app_nil_r. Qed.

Lemma adds_throw {A : Type} (e : Js.Error) n : adds p n 0 (@throw World A e).
Proof. intros w. exists []. simpl. now rewrite app_nil_r. Qed.

Lemma adds_gets {A : Type} (f : World -> A) n : adds p 0 n (gets f).
Proof. intros w. exists []. simpl. now rewrite app_nil_r. Qed.

Lemma adds_emit (e : Event) n :
  adds p (if p e then 1 else 0) n (emit e).
Proof.
  intros w. exists [e]. split; [reflexivity|].
  unfold countIn. simpl. destruct (p e); reflexivity.
Qed.

Lemma adds_setItem (j : Js.JSON) n :
  adds p (if p (CacheWrite j) then 1 else 0) n (setItem j).
Proof.
  intros w. exists [CacheWrite j]. split; [reflexivity|].
  unfold countIn. simpl. destruct (p (CacheWrite j)); reflexivity.
Qed.

Lemma adds_setCollections f n : adds p 0 n (setCollections f).
Proof. intros w. exists []. simpl. now rewrite app_nil_r. Qed.

Lemma adds_setSelectedCollection c n : adds p 0 n (setSelectedCollection c).
Proof. intros w. exists []. simpl. now rewrite app_nil_r. Qed.

Lemma adds_setVerificationNotes s n : adds p 0 n (setVerificationNotes s).
Proof. intros w. exists []. simpl. now rewrite app_nil_r. Qed.

(** Sequencing: the counts add up, provided a throw of the second part
    leaves the count a throw of the first part would. *)
Lemma adds_bind {A B : Type} (m : Eff World A) (k : A -> Eff World B)
  (a b c d : nat) :
  adds p a b m -> (forall x, adds p c d (k x)) -> b = (a + d)%nat ->
  adds p (a + c) b (bind m k).
Proof.
  intros Hm Hk Hb w. unfold bind. destruct (Hm w) as [p1 [H1 C1]].
  destruct (m w) as [[x|e] w1]; simpl in *.
  - destruct (Hk x w1) as [p2 [H2 C2]]. exists (p1 ++ p2)%list.
    split; [rewrite H2, H1, app_assoc; reflexivity|].
    rewrite countIn_app, C1, C2.
    destruct (fst (k x w1)); [reflexivity | symmetry; exact Hb].
  - exists p1. split; assumption.
Qed.

Lemma adds_tryCatch {A : Type} (m : Eff World A)
  (h : Js.Error -> Eff World A) (a b c d : nat) :
  adds p a b m -> (forall e, adds p c d (h e)) -> a = (b + c)%nat ->
  adds p a (b + d) (tryCatch m h).
Proof.
  intros Hm Hh Ha w. unfold tryCatch. destruct (Hm w) as [p1 [H1 C1]].
  destruct (m w) as [[x|e] w1]; simpl in *.
  - exists p1. split; assumption.
  - destruct (Hh e w1) as [p2 [H2 C2]]. exists (p1 ++ p2)%list.
    split; [rewrite H2, H1, app_assoc; reflexivity|].
    rewrite countIn_app, C1, C2.
    destruct (fst (h e w1)); [symmetry; exact Ha | reflexivity].
Qed.

(** What a computation that never throws adds on a throw is immaterial. *)
Lemma adds_returns {A : Type} (m : Eff World A) (a b b' : nat) :
  returns m -> adds p a b m -> adds p a b' m.
Proof.
  intros Hr Hm w. destruct (Hm w) as [post [H C]]. exists post.
  split; [exact H|]. destruct (Hr w) as [x Hx]. rewrite Hx in *. exact C.
Qed.

End Counting.

Section Returning.

Lemma returns_ret {A : Type} (a : A) : returns (ret a).
Proof. intros w. exists a. reflexivity. Qed.

Lemma returns_modify (f : World -> World) : returns (modify f).
Proof. intros w. exists tt. reflexivity. Qed.

Lemma returns_bind {A B : Type} (m : Eff World A) (k : A -> Eff World B) :
  returns m -> (forall x, returns (k x)) -> returns (bind m k).
Proof.
  intros Hm Hk w. unfold bind. destruct (Hm w) as [x Hx].
  destruct (m w) as [[y|e] w1]; simpl in Hx; [|discriminate].
  apply Hk.
Qed.


Lemma returns_onError e : returns (onError e).
Proof.
  unfold onError, emit. apply returns_bind; [apply returns_modify|].
  intros _. apply returns_modify.
Qed.

End Returning.

Section HandlerCounts.

Variable toLocaleString : Z -> string.
Variable backend : string -> Patch -> string -> Response.
Variable refetchOutcome : option Js.Error.
Variable customers : list Customer.t.
Variable currentUser : option User.t.

Variable p : Event -> bool.



Lemma adds_storeCompletion id :
  (forall j, p (CacheWrite j) = false) ->
  adds p 0 0 (storeCompletion id).
Proof.
  intros Hp. unfold storeCompletion.
  apply (adds_bind p _ _ 0 0 0 0); [apply adds_gets | |reflexivity].
  intros item.
  destruct (readCompletedCollections item) as [| | |s|items|];
    try apply adds_throw.
  - destruct (Js.includes s id); [apply adds_ret | apply adds_throw].
  - destruct (Js.arrIncludes items id); [apply adds_ret|].
    pose proof (adds_setItem p (Js.JArr (items ++ [Js.JStr id])) 0) as H.
    rewrite Hp in H. exact H.
Qed.

Lemma adds_refetchData :
  p RefetchData = false -> adds p 0 0 (refetchData refetchOutcome).
Proof.
  intros Hp. unfold refetchData.
  apply (adds_bind p _ _ 0 0 0 0); [| |reflexivity].
  - pose proof (adds_emit p RefetchData 0) as H. rewrite Hp in H. exact H.
  - intros _. destruct refetchOutcome; [apply adds_throw | apply adds_ret].
Qed.

(** The steps after the store updates add the success notice when they
    return and nothing of the kinds [p] counts otherwise. *)
Lemma adds_afterStoreUpdates sel v :
  (forall j, p (CacheWrite j) = false) ->
  p RefetchData = false ->
  adds p (if p (Alert (successNotice toLocaleString sel)) then 1 else 0) 0
       (afterStoreUpdates toLocaleString refetchOutcome sel v).
Proof.
  intros Hcache Hrefetch. unfold afterStoreUpdates.
  set (n := if p (Alert (successNotice toLocaleString sel)) then 1%nat
            else 0%nat).
  assert (Htail : adds p 0 0
            (bind (setSelectedCollection None)
                  (fun _ => setVerificationNotes ""))).
  { apply (adds_bind p _ _ 0 0 0 0); [| |reflexivity].
    - apply adds_setSelectedCollection.
    - intros _. apply adds_setVerificationNotes. }
  assert (Hnotice : adds p n 0
            (bind (emit (Alert (successNotice toLocaleString sel)))
                  (fun _ => bind (setSelectedCollection None)
                                 (fun _ => setVerificationNotes "")))).
  { apply (adds_returns p _ n n 0).
    - apply returns_bind; [apply returns_modify|]. intros _.
      apply returns_bind; intros; apply returns_modify.
    - pose proof (adds_bind p
                    (emit (Alert (successNotice toLocaleString sel)))
                    (fun _ => bind (setSelectedCollection None)
                                   (fun _ => setVerificationNotes ""))
                    n n 0 0
                    (adds_emit p (Alert (successNotice toLocaleString sel)) n)
                    (fun _ => Htail) (eq_sym (Nat.add_0_r n))) as H.
      rewrite Nat.add_0_r in H. exact H. }
  apply (adds_bind p _ _ 0 0 n 0); [| |reflexivity].
  - apply adds_storeCompletion. exact Hcache.
  - intros _. apply (adds_bind p _ _ 0 0 n 0); [| |reflexivity].
    + apply adds_setCollections.
    + intros _. apply (adds_bind p _ _ 0 0 n 0); [| |reflexivity].
      * apply adds_refetchData. exact Hrefetch.
      * intros _. exact Hnotice.
Qed.


Lemma adds_onError e n :
  p (ConsoleError e) = false ->
  adds p (if p (Alert FAILED_NOTICE) then 1 else 0) n (onError e).
Proof.
  intros Herr. unfold onError.
  set (k := if p (Alert FAILED_NOTICE) then 1%nat else 0%nat).
  apply (adds_returns p _ k 0 n); [apply returns_onError|].
  apply (adds_bind p _ _ 0 0 k 0); [| |reflexivity].
  - pose proof (adds_emit p (ConsoleError e) 0) as H. rewrite Herr in H.
    exact H.
  - intros _. apply adds_emit.
Qed.

End HandlerCounts.


(** With a record selected, the handler's store calls are the order call
    and, when the order call was accepted and the customer is known, the
    customer call, in this order and first in what it adds to the trace;
    no other store call follows, whatever fails afterwards. *)
Theorem handler_makes_no_other_store_call
  (toLocaleString : Z -> string)
  (backend : string -> Patch -> string -> Response)
  (refetchOutcome : option Js.Error)
  (customers : list Customer.t) (currentUser : option User.t)
  (w : World) (sel : CollectionRecord.t) :
  selectedCollection w = Some sel ->
  exists post,
    trace (snd (handleRecognizeCollection toLocaleString backend
                  refetchOutcome customers currentUser w))
    = (trace w
       ++ expectedStoreCalls toLocaleString backend customers currentUser
                             sel (verificationNotes w)
       ++ post)%list
    /\ countIn isStoreUpdate post = 0%nat.
Proof.
  intros Hsel. unfold expectedStoreCalls.
  assert (Hquiet : forall m : Eff World unit,
            adds isStoreUpdate 0 0 m ->
            adds isStoreUpdate 0 (0 + 0) (tryCatch m onError)).
  { intros m Hm.
    apply (adds_tryCatch isStoreUpdate _ _ 0 0 0 0); [exact Hm| |reflexivity].
    intros e. apply (adds_onError isStoreUpdate e 0). reflexivity. }
  assert (Hafter : adds isStoreUpdate 0 0
            (afterStoreUpdates toLocaleString refetchOutcome sel
                               (verificationNotes w)))
    by (apply (adds_afterStoreUpdates toLocaleString refetchOutcome
                 isStoreUpdate sel (verificationNotes w)); reflexivity).
  destruct (backend "orders" _ _) as [|e|e] eqn:Hresp.
  - rewrite (run_handler toLocaleString backend refetchOutcome customers
               currentUser w sel Hsel).
    unfold tryCatch at 1.
    rewrite (run_recognize_accepted toLocaleString backend refetchOutcome
               customers currentUser w sel _ Hresp).
    unfold bind at 1. unfold customerCall.
    destruct (Js.find _ customers) as [c|] eqn:Hfind.
    + rewrite (run_updateCustomer_found backend customers _ sel c Hfind).
      set (w2 := recorded _ (recorded _ w)).
      assert (Hw2 : trace w2
                    = (trace w
                       ++ [orderCall toLocaleString currentUser sel
                                     (verificationNotes w);
                           StoreUpdate "customers"
                             [("outstandingbalance",
                               FNum (newOutstandingBalance c
                                       (CollectionRecord.amount sel)))]
                             (CollectionRecord.customerId sel)])%list).
      { unfold w2, recorded, orderCall. simpl. rewrite <- app_assoc.
        reflexivity. }
      destruct (backend "customers" _ _) as [|e|e].
      * destruct (Hquiet _ Hafter w2) as [post [Ht Hc]]. exists post.
        unfold tryCatch in Ht. split.
        -- rewrite Ht, Hw2, <- app_assoc. reflexivity.
        -- destruct (fst _) in Hc; exact Hc.
      * destruct (Hquiet _ Hafter w2) as [post [Ht Hc]]. exists post.
        unfold tryCatch in Ht. split.
        -- rewrite Ht, Hw2, <- app_assoc. reflexivity.
        -- destruct (fst _) in Hc; exact Hc.
      * destruct (adds_onError isStoreUpdate e 0 eq_refl w2)
          as [post [Ht Hc]].
        exists post. split.
        -- rewrite Ht, Hw2, <- app_assoc. reflexivity.
        -- destruct (fst _) in Hc; exact Hc.
    + rewrite (run_updateCustomer_missing backend customers _ sel Hfind).
      set (w1 := recorded _ w).
      destruct (Hquiet _ Hafter w1) as [post [Ht Hc]]. exists post.
      unfold tryCatch in Ht. split.
      * rewrite Ht. unfold w1, recorded, orderCall. simpl.
        rewrite <- app_assoc. reflexivity.
      * destruct (fst _) in Hc; exact Hc.
  - rewrite (orders_error_aborts toLocaleString backend refetchOutcome
               customers currentUser w sel e Hsel (or_introl Hresp)).
    exists [ConsoleError e; Alert FAILED_NOTICE]. split; reflexivity.
  - rewrite (orders_error_aborts toLocaleString backend refetchOutcome
               customers currentUser w sel e Hsel (or_intror Hresp)).
    exists [ConsoleError e; Alert FAILED_NOTICE]. split; reflexivity.
Qed.

Lemma handler_makes_no_other_store_call_witness :
  exists post,
    trace (snd (handleRecognizeCollection Runtime.toLocaleString
                  Sample.customersDenied None Sample.customers
                  (Some Sample.asha) Sample.world80))
    = ([StoreUpdate "orders"
          [("notes",
            FStr "CREDIT collection of LKR 80 completed by Asha. Notes: cash counted");
           ("creditbalance", FNum 0)] "o4";
        StoreUpdate "customers" [("outstandingbalance", FNum 0)] "c1"]
       ++ post)%list
    /\ countIn isStoreUpdate post = 0%nat.
Proof.
  destruct (handler_makes_no_other_store_call Runtime.toLocaleString
              Sample.customersDenied None Sample.customers
              (Some Sample.asha) Sample.world80 Sample.credit80 eq_refl)
    as [post [H1 H2]].
  exists post. split; [|exact H2].
  eapply eq_trans; [exact H1|]. vm_compute. reflexivity.
Defined.

(* ===================================================================== *)
(** ** The optimistic flip *)
(* ===================================================================== *)

Lemma markComplete_other sel v c :
  CollectionRecord.id c <> CollectionRecord.id sel ->
  markComplete sel v c = c.
Proof.
  intros H. unfold markComplete.
  destruct (String.eqb_spec (CollectionRecord.id c) (CollectionRecord.id sel));
    [contradiction | reflexivity].
Qed.

Lemma map_markComplete_others sel v l :
  ~ In (CollectionRecord.id sel) (map CollectionRecord.id l) ->
  map (markComplete sel v) l = l.
Proof.
  induction l as [|c l IH]; intros H; simpl; [reflexivity|].
  simpl in H. rewrite markComplete_other by (intros E; apply H; auto).
  rewrite IH by (intros E; apply H; auto). reflexivity.
Qed.

Lemma markComplete_keeps_id sel v c :
  CollectionRecord.id (markComplete sel v c) = CollectionRecord.id c.
Proof.
  unfold markComplete.
  destruct (String.eqb (CollectionRecord.id c) (CollectionRecord.id sel));
    reflexivity.
Qed.

(** In a worklist with distinct ids the optimistic flip changes the
    selected record and no other: the list is the same before and behind
    it, and in its place stands the record with the status [complete] and
    the verification notes as its notes, every other field as it was. *)
Theorem flip_changes_the_selected_record_only
  (l : list CollectionRecord.t) (sel : CollectionRecord.t) (v : string) :
  NoDup (map CollectionRecord.id l) ->
  In sel l ->
  let flipped := map (markComplete sel v) l in
  let done :=
    CollectionRecord.mk
      (CollectionRecord.id sel) (CollectionRecord.orderId sel)
      (CollectionRecord.customerId sel) (CollectionRecord.customerName sel)
      (CollectionRecord.collectionType sel) (CollectionRecord.amount sel)
      (CollectionRecord.collectedBy sel) (CollectionRecord.collectedAt sel)
      complete (Some v) in
  (exists before behind,
      l = (before ++ sel :: behind)%list
      /\ flipped = (before ++ done :: behind)%list)
  /\ map CollectionRecord.id flipped = map CollectionRecord.id l
  /\ totalCollections (totalStats flipped) = totalCollections (totalStats l).
Proof.
  intros Hnd Hin flipped done. split; [|split].
  - destruct (in_split _ _ Hin) as [before [behind ->]].
    exists before, behind. split; [reflexivity|].
    rewrite map_app in Hnd. cbn [map] in Hnd.
    pose proof (NoDup_remove_2 _ _ _ Hnd) as Hno.
    unfold flipped. rewrite map_app. cbn [map].
    rewrite (map_markComplete_others sel v before)
      by (intros H; apply Hno; apply in_or_app; left; exact H).
    rewrite (map_markComplete_others sel v behind)
      by (intros H; apply Hno; apply in_or_app; right; exact H).
    unfold markComplete at 1. rewrite String.eqb_refl. reflexivity.
  - unfold flipped. rewrite map_map. apply map_ext. intros c.
    apply markComplete_keeps_id.
  - unfold flipped, totalStats. cbn [totalCollections].
    apply length_map.
Qed.

Lemma flip_changes_the_selected_record_only_witness :
  map CollectionRecord.id
      (map (markComplete Sample.credit80 "cash counted")
           [Sample.order1Credit; Sample.credit80])
  = ["o1-credit"; "o4-credit"].
Proof.
  destruct (flip_changes_the_selected_record_only
              [Sample.order1Credit; Sample.credit80] Sample.credit80
              "cash counted") as [_ [H _]].
  - repeat constructor; simpl; intros H;
      repeat (destruct H as [H|H]; try discriminate); exact H.
  - right. left. reflexivity.
  - exact H.
Defined.

(* ===================================================================== *)
(** ** Further properties of the exporter *)
(* ===================================================================== *)

(** When the library takes the sheet name and the encoder of the chosen
    format fails on the built workbook, nothing is saved: the error is
    logged and the failure notice shown, the exporter itself returns. *)
Theorem failed_encoding_saves_nothing
  (csvWriteBuffer xlsxWriteBuffer
     : Exporter.Workbook -> Js.Error + Exporter.Buffer)
  (worksheetName : Exporter.Workbook -> string -> Exporter.NameOutcome)
  (first : Exporter.ExportRecord) (rest : list Exporter.ExportRecord)
  (filename sheetName stored : string) (warned : bool)
  (format : Exporter.ExportFormat) (w : Exporter.World) (e : Js.Error) :
  worksheetName [] sheetName = Exporter.NameStored stored warned ->
  encoderFor csvWriteBuffer xlsxWriteBuffer format
             [worksheetBySpec stored first rest] = inl e ->
  let run := Exporter.exportData csvWriteBuffer xlsxWriteBuffer
               worksheetName (Some (first :: rest)) filename format
               sheetName w in
  run = (Returned tt,
         Exporter.mkWorld
           [worksheetBySpec stored first rest]
           (Exporter.events w
            ++ nameWarning sheetName warned
            ++ [Exporter.ConsoleError e; Exporter.Alert EXPORT_FAILED]))
  /\ filter isSaveAs (Exporter.events (snd run))
     = filter isSaveAs (Exporter.events w).
Proof.
  intros Hname Henc run.
  assert (Hrun : run = (Returned tt,
         Exporter.mkWorld
           [worksheetBySpec stored first rest]
           (Exporter.events w
            ++ nameWarning sheetName warned
            ++ [Exporter.ConsoleError e; Exporter.Alert EXPORT_FAILED]))).
  { unfold run. rewrite (run_export _ _ _ _ _ _ _ _ _ _ _ Hname).
    unfold encodeAndSave.
    destruct format; simpl in Henc; rewrite Henc; reflexivity. }
  split; [exact Hrun|]. rewrite Hrun. cbn [snd Exporter.events].
  rewrite !filter_app. destruct warned; simpl; apply app_nil_r.
Qed.

Lemma failed_encoding_saves_nothing_witness :
  Exporter.exportData Scenario3.failingEncoder Scenario3.failingEncoder
    Runtime.worksheetName (Some Sample.exportRows) "orders_2024-05-20"
    Exporter.xlsx "Orders" Sample.blankExport
  = (Returned tt,
     Exporter.mkWorld
       [worksheetBySpec "Orders"
          [("Order ID", Some (Exporter.CText "o1"));
           ("Total Amount", Some (Exporter.CNumber 100));
           ("Notes", Some (Exporter.CText "paid"))]
          [[("Order ID", Some (Exporter.CText "o2"));
            ("Total Amount", Some (Exporter.CNumber 70))]]]
       [Exporter.ConsoleError (Js.NetworkError "out of memory");
        Exporter.Alert EXPORT_FAILED]).
Proof.
  destruct (failed_encoding_saves_nothing Scenario3.failingEncoder
              Scenario3.failingEncoder Runtime.worksheetName
              [("Order ID", Some (Exporter.CText "o1"));
               ("Total Amount", Some (Exporter.CNumber 100));
               ("Notes", Some (Exporter.CText "paid"))]
              [[("Order ID", Some (Exporter.CText "o2"));
                ("Total Amount", Some (Exporter.CNumber 70))]]
              "orders_2024-05-20" "Orders" "Orders" false Exporter.xlsx
              Sample.blankExport
              (Js.NetworkError "out of memory") eq_refl eq_refl) as [H _].
  exact H.
Defined.

(** When the library takes the sheet name and the encoder of the chosen
    format answers with a buffer, exactly one file is saved: its content
    is that buffer, its type and its extension are those of the format,
    and the number of exported records is logged. *)
Theorem successful_export_saves_one_file
  (csvWriteBuffer xlsxWriteBuffer
     : Exporter.Workbook -> Js.Error + Exporter.Buffer)
  (worksheetName : Exporter.Workbook -> string -> Exporter.NameOutcome)
  (first : Exporter.ExportRecord) (rest : list Exporter.ExportRecord)
  (filename sheetName stored : string) (warned : bool)
  (format : Exporter.ExportFormat) (w : Exporter.World)
  (buf : Exporter.Buffer) :
  worksheetName [] sheetName = Exporter.NameStored stored warned ->
  encoderFor csvWriteBuffer xlsxWriteBuffer format
             [worksheetBySpec stored first rest] = inr buf ->
  let run := Exporter.exportData csvWriteBuffer xlsxWriteBuffer
               worksheetName (Some (first :: rest)) filename format
               sheetName w in
  Exporter.events (snd run)
  = (Exporter.events w
     ++ nameWarning sheetName warned
     ++ [Exporter.SaveAs (Exporter.mkBlob buf (mimeFor format))
                         (filename ++ extensionFor format);
         Exporter.ConsoleLog (S (List.length rest))
                             (Exporter.formatUpper format)])%list
  /\ filter isSaveAs (Exporter.events (snd run))
     = (filter isSaveAs (Exporter.events w)
        ++ [Exporter.SaveAs (Exporter.mkBlob buf (mimeFor format))
                            (filename ++ extensionFor format)])%list.
Proof.
  intros Hname Henc run.
  assert (Hev : Exporter.events (snd run)
    = (Exporter.events w
       ++ nameWarning sheetName warned
       ++ [Exporter.SaveAs (Exporter.mkBlob buf (mimeFor format))
                           (filename ++ extensionFor format);
           Exporter.ConsoleLog (S (List.length rest))
                               (Exporter.formatUpper format)])%list).
  { unfold run. rewrite (run_export _ _ _ _ _ _ _ _ _ _ _ Hname).
    unfold encodeAndSave.
    destruct format; simpl in Henc; rewrite Henc; reflexivity. }
  split; [exact Hev|]. rewrite Hev, !filter_app.
  destruct warned; reflexivity.
Qed.

Lemma successful_export_saves_one_file_witness :
  Exporter.events
    (snd (Exporter.exportData Sample.csvEncoder Sample.xlsxEncoder
            Runtime.worksheetName (Some Sample.exportRows)
            "orders_2024-05-20" Exporter.xlsx "Orders"
            Sample.blankExport))
  = [Exporter.SaveAs (Exporter.mkBlob "xlsx:1" Exporter.XLSX_MIME)
                     "orders_2024-05-20.xlsx";
     Exporter.ConsoleLog 2 "XLSX"].
Proof.
  destruct (successful_export_saves_one_file Sample.csvEncoder
              Sample.xlsxEncoder Runtime.worksheetName
              [("Order ID", Some (Exporter.CText "o1"));
               ("Total Amount", Some (Exporter.CNumber 100));
               ("Notes", Some (Exporter.CText "paid"))]
              [[("Order ID", Some (Exporter.CText "o2"));
                ("Total Amount", Some (Exporter.CNumber 70))]]
              "orders_2024-05-20" "Orders" "Orders" false Exporter.xlsx
              Sample.blankExport "xlsx:1" eq_refl eq_refl) as [H _].
  exact H.
Defined.

Lemma valueOf_missing (k : string) (r : Exporter.ExportRecord) :
  ~ In k (Exporter.keys r) -> Exporter.valueOf k r = None.
Proof.
  induction r as [|[k' v] r IH]; intros H; simpl; [reflexivity|].
  simpl in H. destruct (String.eqb_spec k k') as [->|Hne].
  - exfalso. apply H. left. reflexivity.
  - apply IH. intros Hin. apply H. right. exact Hin.
Qed.

(** When the library takes the sheet name, the sheet the exporter builds
    is rectangular and its columns are decided by the first record alone:
    the header row, written when the first record has a key at all, and
    every record's row have one cell per key of the first record; the
    row of a record holds, key by key, the record's value under that
    key, so that a record lacking one of these keys, or holding no value
    under it, has an empty cell in its row, the first record too; and two
    records that agree on these keys give the same row, whatever other
    keys they carry. *)
Theorem first_record_decides_the_columns
  (csvWriteBuffer xlsxWriteBuffer
     : Exporter.Workbook -> Js.Error + Exporter.Buffer)
  (worksheetName : Exporter.Workbook -> string -> Exporter.NameOutcome)
  (first : Exporter.ExportRecord) (rest : list Exporter.ExportRecord)
  (filename sheetName stored : string) (warned : bool)
  (format : Exporter.ExportFormat) (w : Exporter.World) :
  worksheetName [] sheetName = Exporter.NameStored stored warned ->
  exists headers recordRows,
    Exporter.workbook
      (snd (Exporter.exportData csvWriteBuffer xlsxWriteBuffer
              worksheetName (Some (first :: rest)) filename format
              sheetName w))
    = [Exporter.mkWorksheet stored
         (map (fun k => Exporter.mkColumn k k 20) (Exporter.keys first))
         (headers ++ recordRows)]
    /\ headers
       = match Exporter.keys first with
         | [] => []
         | _ :: _ =>
             [map (fun k => Some (Exporter.CText k)) (Exporter.keys first)]
         end
    /\ Forall (fun row => List.length row
                          = List.length (Exporter.keys first))
              (headers ++ recordRows)
    /\ List.length recordRows = List.length (first :: rest)
    /\ (forall i r row,
          nth_error (first :: rest) i = Some r ->
          nth_error recordRows i = Some row ->
          forall j k,
            nth_error (Exporter.keys first) j = Some k ->
            nth_error row j = Some (Exporter.valueOf k r))
    /\ (forall i r row k,
          nth_error (first :: rest) i = Some r ->
          nth_error recordRows i = Some row ->
          In k (Exporter.keys first) -> ~ In k (Exporter.keys r) ->
          In None row)
    /\ (forall i r row k,
          nth_error (first :: rest) i = Some r ->
          nth_error recordRows i = Some row ->
          In k (Exporter.keys first) ->
          Exporter.valueOf k r = None -> In None row)
    /\ (forall i j r1 r2 row1 row2,
          nth_error (first :: rest) i = Some r1 ->
          nth_error (first :: rest) j = Some r2 ->
          nth_error recordRows i = Some row1 ->
          nth_error recordRows j = Some row2 ->
          agreeOn (Exporter.keys first) r1 r2 -> row1 = row2).
Proof.
  intros Hname.
  set (ks := Exporter.keys first).
  exists (match ks with
          | [] => []
          | _ :: _ => [map (fun k => Some (Exporter.CText k)) ks]
          end),
         (map (fun r => map (fun k => Exporter.valueOf k r) ks)
              (first :: rest)).
  split; [rewrite (run_export _ _ _ _ _ _ _ _ _ _ _ Hname); reflexivity|].
  split; [reflexivity|].
  split; [|split; [|split; [|split; [|split]]]].
  - apply Forall_app. split.
    + destruct ks; repeat constructor. apply length_map.
    + apply Forall_map. apply Forall_forall. intros r _. apply length_map.
  - apply length_map.
  - intros i r row Hr Hrow j k Hk.
    rewrite nth_error_map, Hr in Hrow. injection Hrow as <-.
    rewrite nth_error_map, Hk. reflexivity.
  - intros i r row k Hr Hrow Hk Hmissing.
    rewrite nth_error_map, Hr in Hrow. injection Hrow as <-.
    apply in_map_iff. exists k. split; [|exact Hk].
    apply valueOf_missing. exact Hmissing.
  - intros i r row k Hr Hrow Hk Hnone.
    rewrite nth_error_map, Hr in Hrow. injection Hrow as <-.
    apply in_map_iff. exists k. split; assumption.
  - intros i j r1 r2 row1 row2 H1 H2 Hrow1 Hrow2 Hagree.
    rewrite nth_error_map, H1 in Hrow1. injection Hrow1 as <-.
    rewrite nth_error_map, H2 in Hrow2. injection Hrow2 as <-.
    apply map_ext_in. exact Hagree.
Qed.

Lemma first_record_decides_the_columns_witness :
  exists headers recordRows,
    Exporter.workbook
      (snd (Exporter.exportData Sample.csvEncoder Sample.xlsxEncoder
              Runtime.worksheetName (Some Sample.customerRows)
              "customers_2024-05-20" Exporter.csv "Customers"
              Sample.blankExport))
    = [Exporter.mkWorksheet "Customers"
         [Exporter.mkColumn "Customer ID" "Customer ID" 20;
          Exporter.mkColumn "Email" "Email" 20;
          Exporter.mkColumn "Total Spent" "Total Spent" 20]
         (headers ++ recordRows)]
    /\ (forall row, nth_error recordRows 0 = Some row -> In None row).
Proof.
  destruct (first_record_decides_the_columns Sample.csvEncoder
              Sample.xlsxEncoder Runtime.worksheetName
              [("Customer ID", Some (Exporter.CText "c1")); ("Email", None);
               ("Total Spent", Some (Exporter.CNumber 900))]
              [[("Customer ID", Some (Exporter.CText "c2"));
                ("Email", Some (Exporter.CText "silva@example.com"));
                ("Total Spent", Some (Exporter.CNumber 40))]]
              "customers_2024-05-20" "Customers" "Customers" false
              Exporter.csv Sample.blankExport eq_refl)
    as [headers [recordRows [Hbook [_ [_ [_ [_ [_ [Hempty _]]]]]]]]].
  exists headers, recordRows. split; [exact Hbook|].
  intros row Hrow.
  apply (Hempty 0%nat _ row "Email" eq_refl Hrow).
  - right. left. reflexivity.
  - reflexivity.
Defined.

(** Every call builds its workbook afresh: when the library takes the
    sheet name, a second export of the same records leaves one worksheet,
    not two, and adds the events of the first export a second time. *)
Theorem export_twice_downloads_twice
  (csvWriteBuffer xlsxWriteBuffer
     : Exporter.Workbook -> Js.Error + Exporter.Buffer)
  (worksheetName : Exporter.Workbook -> string -> Exporter.NameOutcome)
  (first : Exporter.ExportRecord) (rest : list Exporter.ExportRecord)
  (filename sheetName stored : string) (warned : bool)
  (format : Exporter.ExportFormat) (w : Exporter.World) :
  worksheetName [] sheetName = Exporter.NameStored stored warned ->
  let export := Exporter.exportData csvWriteBuffer xlsxWriteBuffer
                  worksheetName (Some (first :: rest)) filename format
                  sheetName in
  let once := snd (export w) in
  let twice := snd (export once) in
  let step := (nameWarning sheetName warned
               ++ encodeAndSave csvWriteBuffer xlsxWriteBuffer
                    [worksheetBySpec stored first rest] filename format
                    (S (List.length rest)))%list in
  Exporter.workbook twice = [worksheetBySpec stored first rest]
  /\ Exporter.workbook twice = Exporter.workbook once
  /\ Exporter.events twice = (Exporter.events w ++ step ++ step)%list
  /\ List.length (filter isSaveAs (Exporter.events twice))
     = (List.length (filter isSaveAs (Exporter.events w))
        + 2 * List.length (filter isSaveAs step))%nat.
Proof.
  intros Hname export once twice step. unfold twice, once, export.
  rewrite !(run_export _ _ _ _ _ _ _ _ _ _ _ Hname).
  cbn [snd Exporter.workbook Exporter.events].
  fold step. split; [reflexivity|]. split; [reflexivity|].
  split; [rewrite <- app_assoc; reflexivity|].
  rewrite !filter_app, !length_app. lia.
Qed.

Lemma export_twice_downloads_twice_witness :
  let export :=
    Exporter.exportData Sample.csvEncoder Sample.xlsxEncoder
      Runtime.worksheetName (Some Sample.exportRows) "orders_2024-05-20"
      Exporter.csv "Orders" in
  Exporter.events (snd (export (snd (export Sample.blankExport))))
  = [Exporter.SaveAs (Exporter.mkBlob "csv:1" Exporter.CSV_MIME)
                     "orders_2024-05-20.csv";
     Exporter.ConsoleLog 2 "CSV";
     Exporter.SaveAs (Exporter.mkBlob "csv:1" Exporter.CSV_MIME)
                     "orders_2024-05-20.csv";
     Exporter.ConsoleLog 2 "CSV"].
Proof.
  destruct (export_twice_downloads_twice Sample.csvEncoder
              Sample.xlsxEncoder Runtime.worksheetName
              [("Order ID", Some (Exporter.CText "o1"));
               ("Total Amount", Some (Exporter.CNumber 100));
               ("Notes", Some (Exporter.CText "paid"))]
              [[("Order ID", Some (Exporter.CText "o2"));
                ("Total Amount", Some (Exporter.CNumber 70))]]
              "orders_2024-05-20" "Orders" "Orders" false Exporter.csv
              Sample.blankExport eq_refl) as [_ [_ [H _]]].
  exact H.
Defined.

Lemma string_app_assoc (a b c : string) : (a ++ b) ++ c = a ++ b ++ c.
Proof. induction a as [|ch a IH]; simpl; [|rewrite IH]; reflexivity. Qed.

Section AdapterFacts.

Variable today : string.
Variable csvWriteBuffer : Exporter.Workbook -> Js.Error + Exporter.Buffer.
Variable xlsxWriteBuffer : Exporter.Workbook -> Js.Error + Exporter.Buffer.
Variable worksheetName : Exporter.Workbook -> string -> Exporter.NameOutcome.

(** The shape all seven adapters share, for a sheet name the library
    takes as it is. *)
Lemma adapter_shape {A : Type} (row : A -> Exporter.ExportRecord)
  (prefix sheet : string)
  (adapter : list A -> Exporter.ExportFormat -> Eff Exporter.World unit) :
  worksheetName [] sheet = Exporter.NameStored sheet false ->
  (forall items format,
     adapter items format
     = Exporter.exportData csvWriteBuffer xlsxWriteBuffer worksheetName
         (Some (map row items)) (prefix ++ "_" ++ today) format sheet) ->
  behavesAsAdapter today csvWriteBuffer xlsxWriteBuffer adapter row
                   prefix sheet.
Proof.
  intros Hname Hdef format w. split.
  - rewrite Hdef. reflexivity.
  - intros x xs built. rewrite Hdef. cbn [map].
    rewrite (run_export _ _ _ _ _ _ _ _ _ _ _ Hname).
    cbn [snd Exporter.workbook Exporter.events nameWarning app].
    split; [reflexivity|]. split; [reflexivity|].
    intros buf Henc. unfold encodeAndSave. fold built.
    rewrite length_map.
    destruct format; simpl in Henc; rewrite Henc;
      cbn [mimeFor extensionFor Exporter.formatUpper];
      rewrite string_app_assoc; reflexivity.
Qed.

End AdapterFacts.

(** The seven adapters: over an empty list each shows the notice "No data
    to export" and nothing else; over a non-empty list each builds one
    worksheet under its own sheet name from its rows and, when the encoder
    answers, saves one file named [{prefix}_{day}.{csv|xlsx}] with its own
    prefix.  The seven sheet names pass the name check of the workbook
    library as they are. *)
Theorem adapters_name_file_and_sheet
  (today : string)
  (csvWriteBuffer xlsxWriteBuffer
     : Exporter.Workbook -> Js.Error + Exporter.Buffer)
  (OrderItem Product CustomerItem Allocation Sale UserItem Supplier : Type)
  (orderRow : OrderItem -> Exporter.ExportRecord)
  (productRow : Product -> Exporter.ExportRecord)
  (customerRow : CustomerItem -> Exporter.ExportRecord)
  (allocationRow : Allocation -> Exporter.ExportRecord)
  (saleRow : Sale -> Exporter.ExportRecord)
  (userRow : UserItem -> Exporter.ExportRecord)
  (supplierRow : Supplier -> Exporter.ExportRecord) :
  behavesAsAdapter today csvWriteBuffer xlsxWriteBuffer
    (Adapters.exportOrders today csvWriteBuffer xlsxWriteBuffer
                           Runtime.worksheetName OrderItem orderRow)
    orderRow "orders" "Orders"
  /\ behavesAsAdapter today csvWriteBuffer xlsxWriteBuffer
       (Adapters.exportProducts today csvWriteBuffer xlsxWriteBuffer
                                Runtime.worksheetName Product productRow)
       productRow "products" "Products"
  /\ behavesAsAdapter today csvWriteBuffer xlsxWriteBuffer
       (Adapters.exportCustomers today csvWriteBuffer xlsxWriteBuffer
                                 Runtime.worksheetName CustomerItem
                                 customerRow)
       customerRow "customers" "Customers"
  /\ behavesAsAdapter today csvWriteBuffer xlsxWriteBuffer
       (Adapters.exportDriverAllocations today csvWriteBuffer
                                         xlsxWriteBuffer
                                         Runtime.worksheetName Allocation
                                         allocationRow)
       allocationRow "driver_allocations" "Driver Allocations"
  /\ behavesAsAdapter today csvWriteBuffer xlsxWriteBuffer
       (Adapters.exportDriverSales today csvWriteBuffer xlsxWriteBuffer
                                   Runtime.worksheetName Sale saleRow)
       saleRow "driver_sales" "Driver Sales"
  /\ behavesAsAdapter today csvWriteBuffer xlsxWriteBuffer
       (Adapters.exportUsers today csvWriteBuffer xlsxWriteBuffer
                             Runtime.worksheetName UserItem userRow)
       userRow "users" "Users"
  /\ behavesAsAdapter today csvWriteBuffer xlsxWriteBuffer
       (Adapters.exportSuppliers today csvWriteBuffer xlsxWriteBuffer
                                 Runtime.worksheetName Supplier
                                 supplierRow)
       supplierRow "suppliers" "Suppliers".
Proof.
  repeat match goal with |- _ /\ _ => split end;
    (apply (adapter_shape today csvWriteBuffer xlsxWriteBuffer
              Runtime.worksheetName); [reflexivity|]);
    intros items format;
    unfold Adapters.exportOrders, Adapters.exportProducts,
      Adapters.exportCustomers, Adapters.exportDriverAllocations,
      Adapters.exportDriverSales, Adapters.exportUsers,
      Adapters.exportSuppliers;
    rewrite ?string_app_assoc; reflexivity.
Qed.

Example export_suppliers_sample :
  Adapters.exportSuppliers Sample.today Sample.csvEncoder Sample.xlsxEncoder
    Runtime.worksheetName
    (string * string) Scenario3.supplierRow
    [("s1", "Lanka Mills"); ("s2", "Kandy Tea")] Exporter.csv
    Sample.blankExport
  = (Returned tt,
     Exporter.mkWorld
       [Exporter.mkWorksheet "Suppliers"
          [Exporter.mkColumn "Supplier ID" "Supplier ID" 20;
           Exporter.mkColumn "Name" "Name" 20]
          [[Some (Exporter.CText "Supplier ID"); Some (Exporter.CText "Name")];
           [Some (Exporter.CText "s1"); Some (Exporter.CText "Lanka Mills")];
           [Some (Exporter.CText "s2"); Some (Exporter.CText "Kandy Tea")]]]
       [Exporter.SaveAs (Exporter.mkBlob "csv:1" Exporter.CSV_MIME)
                        "suppliers_2024-05-20.csv";
        Exporter.ConsoleLog 2 "CSV"]).
Proof. vm_compute. reflexivity. Qed.
